(** * cercis.lines: logical lines, the line-fit judge and the blank-line tracker

    A shallow embedding of [src/cercis/lines.py].  Leaves are mutable Python
    objects with identity, so they live in a store addressed by their [id];
    a line holds references into that store.  Code that mutates or raises is
    written in a small state-and-exception monad whose state survives a
    raised exception, as Python's heap does. *)

From Stdlib Require Import ZArith List String Ascii Bool Lia Permutation.
Import ListNotations.

Local Open Scope string_scope.
Local Open Scope Z_scope.
Local Open Scope list_scope.

(** ** Python sequences and strings *)

Module Py.

(** [l[-k]] for [k >= 1]; [None] stands for [IndexError]. *)
Definition neg_index {A : Type} (l : list A) (k : nat) : option A :=
  if (List.length l <? k)%nat then None
  else nth_error l (List.length l - k).

(** [l[-k:]] *)
Definition last_slice {A : Type} (k : nat) (l : list A) : list A :=
  skipn (List.length l - k) l.

(** [del l[-k:]] *)
Definition del_last {A : Type} (k : nat) (l : list A) : list A :=
  firstn (List.length l - k) l.

Definition len (s : string) : Z := Z.of_nat (String.length s).

Definition chars (s : string) : list ascii := list_ascii_of_string s.
Definition of_chars (l : list ascii) : string := string_of_list_ascii l.

Definition newline : ascii := "010"%char.
Definition nl : string := String newline EmptyString.

(** [str.isspace] on one character (code points below 256). *)
Definition isspace (c : ascii) : bool :=
  let n := nat_of_ascii c in
  ((9 <=? n) && (n <=? 13) || (28 <=? n) && (n <=? 32)
   || (n =? 133) || (n =? 160))%nat.

Fixpoint lstrip_by (p : ascii -> bool) (l : list ascii) : list ascii :=
  match l with
  | c :: l' => if p c then lstrip_by p l' else l
  | [] => []
  end.

Definition strip_by (p : ascii -> bool) (l : list ascii) : list ascii :=
  rev (lstrip_by p (rev (lstrip_by p l))).

(** [s.strip()] *)
Definition strip (s : string) : string := of_chars (strip_by isspace (chars s)).

(** [s.strip("\n")] *)
Definition strip_newlines (s : string) : string :=
  of_chars (strip_by (Ascii.eqb newline) (chars s)).

(** [bool(s)] *)
Definition truthy (s : string) : bool :=
  match s with EmptyString => false | _ => true end.

(** [s.count("\n")] *)
Definition count_newlines (s : string) : Z :=
  Z.of_nat (List.length (filter (Ascii.eqb newline) (chars s))).

(** ["\n" in s] *)
Definition has_newline (s : string) : bool :=
  existsb (Ascii.eqb newline) (chars s).

(** [s.startswith(p)] *)
Definition startswith (p s : string) : bool := String.prefix p s.

(** [s.split("\n")], never empty. *)
Fixpoint split_lines_aux (cur : list ascii) (l : list ascii) : list string :=
  match l with
  | [] => [of_chars (rev cur)]
  | c :: l' =>
      if Ascii.eqb c newline then of_chars (rev cur) :: split_lines_aux [] l'
      else split_lines_aux (c :: cur) l'
  end.

Definition split_lines (s : string) : list string := split_lines_aux [] (chars s).

(** [sub in s] *)
Fixpoint contains_chars (sub l : list ascii) : bool :=
  String.prefix (of_chars sub) (of_chars l)
  || match l with
     | [] => false
     | _ :: l' => contains_chars sub l'
     end.

Definition contains (sub s : string) : bool := contains_chars (chars sub) (chars s).

Definition concat (l : list string) : string := String.concat EmptyString l.

(** [s * n]: empty when [n] is zero or negative. *)
Definition times (s : string) (n : Z) : string := concat (repeat s (Z.to_nat n)).

End Py.

(** ** A backtracking matcher for the fragment of [re] that [_PRAGMA_REGEX] uses *)

Module Re.

Inductive regex : Type :=
| Lit (s : string)              (* a literal run of characters *)
| Many (c : ascii)              (* [c*], greedy *)
| Cat (r1 r2 : regex)
| Alt (r1 r2 : regex)           (* [r1|r2], left first *)
| Ahead (r : regex).            (* [(?=r)] *)

Fixpoint lit (p inp : list ascii) : option (list ascii) :=
  match p, inp with
  | [], _ => Some inp
  | c :: p', d :: inp' => if Ascii.eqb c d then lit p' inp' else None
  | _ :: _, [] => None
  end.

(** Greedy repetition of one character: the longest run is tried first and
    given back one character at a time while the continuation fails. *)
Fixpoint many {R : Type} (c : ascii) (inp : list ascii)
         (k : list ascii -> option R) : option R :=
  match inp with
  | d :: inp' =>
      if Ascii.eqb c d then
        match many c inp' k with
        | Some r => Some r
        | None => k inp
        end
      else k inp
  | [] => k []
  end.

(** [run r inp k]: match [r] at the head of [inp] and pass the rest of the
    input to [k]; [None] when every alternative fails. *)
Fixpoint run {R : Type} (r : regex) (inp : list ascii)
         (k : list ascii -> option R) : option R :=
  match r with
  | Lit s => match lit (Py.chars s) inp with
             | Some rest => k rest
             | None => None
             end
  | Many c => many c inp k
  | Cat r1 r2 => run r1 inp (fun rest => run r2 rest k)
  | Alt r1 r2 => match run r1 inp k with
                 | Some x => Some x
                 | None => run r2 inp k
                 end
  | Ahead r' => match run r' inp (fun _ => Some tt) with
                | Some _ => k inp
                | None => None
                end
  end.

(** What is left of [inp] after a match of [r] at its head. *)
Definition match_here (r : regex) (inp : list ascii) : option (list ascii) :=
  run r inp (fun rest => Some rest).

(** Leftmost match: the text before it, the match, the text after it. *)
Fixpoint search (r : regex) (before_rev inp : list ascii)
  : option (list ascii * list ascii * list ascii) :=
  match match_here r inp with
  | Some rest =>
      Some (rev before_rev, firstn (List.length inp - List.length rest) inp, rest)
  | None =>
      match inp with
      | [] => None
      | c :: inp' => search r (c :: before_rev) inp'
      end
  end.

(** [r.split(s, maxsplit=1)] for a pattern that is one capture group
    around the whole match and cannot match the empty string. *)
Definition split1 (r : regex) (s : string) : list string :=
  match search r [] (Py.chars s) with
  | Some (a, m, b) => [Py.of_chars a; Py.of_chars m; Py.of_chars b]
  | None => [s]
  end.

End Re.

(** [re.compile("( *# (?:pylint|pytype|noqa|type(?=: *ignore)):)")] *)
Definition _PRAGMA_REGEX : Re.regex :=
  Re.Cat (Re.Many " "%char)
    (Re.Cat (Re.Lit "# ")
       (Re.Cat
          (Re.Alt (Re.Lit "pylint")
             (Re.Alt (Re.Lit "pytype")
                (Re.Alt (Re.Lit "noqa")
                   (Re.Cat (Re.Lit "type")
                      (Re.Ahead
                         (Re.Cat (Re.Lit ":")
                            (Re.Cat (Re.Many " "%char) (Re.Lit "ignore"))))))))
          (Re.Lit ":"))).

(** ** Exceptions and the state monad *)

Inductive exn : Type :=
| ValueError (msg : string)
| IndexError
| AssertionError
| StopIteration.

Inductive Res (S A : Type) : Type :=
| Ok (a : A) (s : S)
| Raise (e : exn) (s : S).

Arguments Ok {S A} a s.
Arguments Raise {S A} e s.

Definition M (S A : Type) : Type := S -> Res S A.

Definition ret {S A : Type} (a : A) : M S A := fun s => Ok a s.

Definition bind {S A B : Type} (m : M S A) (f : A -> M S B) : M S B :=
  fun s => match m s with
           | Ok a s' => f a s'
           | Raise e s' => Raise e s'
           end.

Definition raise {S A : Type} (e : exn) : M S A := fun s => Raise e s.
Definition get {S : Type} : M S S := fun s => Ok s s.
Definition gets {S A : Type} (f : S -> A) : M S A := fun s => Ok (f s) s.
Definition modify {S : Type} (f : S -> S) : M S unit := fun s => Ok tt (f s).

(** An index that Python would reject raises [IndexError]. *)
Definition index {S A : Type} (o : option A) : M S A :=
  match o with
  | Some a => ret a
  | None => raise IndexError
  end.

Definition when {S : Type} (b : bool) (m : M S unit) : M S unit :=
  if b then m else ret tt.

Definition final_state {S A : Type} (r : Res S A) : S :=
  match r with
  | Ok _ s => s
  | Raise _ s => s
  end.

Declare Scope monad_scope.
Delimit Scope monad_scope with monad.
Notation "x <- m ;; k" := (bind m (fun x => k))
  (at level 61, m at next level, right associativity) : monad_scope.
Notation "m ;;; k" := (bind m (fun _ => k))
  (at level 61, right associativity) : monad_scope.
Local Open Scope monad_scope.

(** ** Token and grammar-symbol types

    [leaf.type] and [node.type] are integers used as an enumeration: the
    names this file tests against, and every other number. *)

Inductive NodeType : Type :=
| NAME | STRING | LPAR | RPAR | LSQB | RSQB | COLON | COMMA | DOT
| LBRACE | RBRACE | AT | COMMENT | ASYNC
| STANDALONE_COMMENT
| trailer | subscriptlist | listmaker
| other_type (n : Z).

Definition NodeType_eq_dec (a b : NodeType) : {a = b} + {a <> b}.
Proof. decide equality. apply Z.eq_dec. Defined.

Definition type_eqb (a b : NodeType) : bool :=
  if NodeType_eq_dec a b then true else false.

Definition type_in (a : NodeType) (l : list NodeType) : bool :=
  existsb (type_eqb a) l.

(** Modelled from the spec: the bracket tables of [cercis.nodes], which are
    not part of this file; the spec speaks of parens, square brackets and
    curly braces, opening and closing. *)
Definition OPENING_BRACKETS : list NodeType := [LPAR; LSQB; LBRACE].
Definition CLOSING_BRACKETS : list NodeType := [RPAR; RSQB; RBRACE].
Definition BRACKETS : list NodeType := OPENING_BRACKETS ++ CLOSING_BRACKETS.

Inductive Preview : Type :=
| multiline_string_handling
| wrap_multiple_context_managers_in_parens
| blank_line_after_nested_stub_class
| other_preview (n : Z).

Definition LeafID : Type := Z.
(** A leaf or a node of the tree, by identity. *)
Definition LN : Type := Z.
Definition Priority : Type := Z.
Definition Indent : Type := Z.

Module Mode.
Record t : Type := mk {
  line_length : Z;
  use_tabs : bool;
  preview : bool;
  wrap_pragma_comments : bool;
  is_pyi : bool;
  magic_trailing_comma : bool;
  enabled_features : list Preview
}.
End Mode.

Module Leaf.
Record t : Type := mk {
  type : NodeType;
  value : string;
  prefix : string;
  lineno : Z;
  bracket_depth : Z;
  opening_bracket : option LeafID;
  parent : option LN;
  prev_sibling : option LN;
  next_sibling : option LN;
  fmt_pass_converted_first_leaf : option LeafID
}.

Definition set_type (ty : NodeType) (l : t) : t :=
  mk ty (value l) (prefix l) (lineno l) (bracket_depth l) (opening_bracket l)
     (parent l) (prev_sibling l) (next_sibling l) (fmt_pass_converted_first_leaf l).

Definition set_prefix (p : string) (l : t) : t :=
  mk (type l) (value l) p (lineno l) (bracket_depth l) (opening_bracket l)
     (parent l) (prev_sibling l) (next_sibling l) (fmt_pass_converted_first_leaf l).

(** What [BracketTracker.mark] writes on the leaf. *)
Definition set_bracket_info (d : Z) (ob : option LeafID) (l : t) : t :=
  mk (type l) (value l) (prefix l) (lineno l) d ob
     (parent l) (prev_sibling l) (next_sibling l) (fmt_pass_converted_first_leaf l).

(** [str(leaf)] *)
Definition str (l : t) : string := (prefix l ++ value l)%string.
End Leaf.

(** The store of leaf objects, addressed by [id(leaf)]. *)
Definition Heap : Type := LeafID -> Leaf.t.

Definition upd (h : Heap) (i : LeafID) (l : Leaf.t) : Heap :=
  fun j => if Z.eqb i j then l else h j.

Arguments upd : simpl never.

Module BracketTracker.
(** The two attributes this file reads, and the tracker's own bookkeeping. *)
Record t : Type := mk {
  depth : Z;
  delimiters : list (LeafID * Priority);
  bookkeeping : list Z
}.

(** [BracketTracker()] *)
Definition new : t := mk 0 [] [].
End BracketTracker.

(** ** Results of code that reads but does not write *)

Inductive result (A : Type) : Type :=
| Return (a : A)
| Throw (e : exn).

Arguments Return {A} a.
Arguments Throw {A} e.

Definition rbind {A B : Type} (m : result A) (f : A -> result B) : result B :=
  match m with
  | Return a => f a
  | Throw e => Throw e
  end.

Notation "x <~ m ;; k" := (rbind m (fun x => k))
  (at level 61, m at next level, right associativity) : monad_scope.
Notation "' pat <~ m ;; k" := (rbind m (fun x => match x with pat => k end))
  (at level 61, pat pattern, m at next level, right associativity) : monad_scope.

(** [a and b], [a or b]: the right operand is evaluated only when needed. *)
Definition and_then (a : bool) (b : result bool) : result bool :=
  if a then b else Return false.
Definition or_else (a : bool) (b : result bool) : result bool :=
  if a then Return true else b.

Definition lift {S A : Type} (r : result A) : M S A :=
  match r with
  | Return a => ret a
  | Throw e => raise e
  end.

(** ** The external collaborators

    Everything [lines.py] imports from the rest of the package and from
    [blib2to3]: the functions are taken as they are called, and may read the
    leaf store. *)

Class Collaborators : Type := {
  (* cercis.mode: [feature in mode] *)
  mode_contains : Preview -> Mode.t -> bool;
  (* cercis.brackets *)
  COMMA_PRIORITY : Priority;
  DOT_PRIORITY : Priority;
  mark : Heap -> BracketTracker.t -> LeafID -> BracketTracker.t * (Z * option LeafID);
  any_open_brackets : BracketTracker.t -> bool;
  max_delimiter_priority : BracketTracker.t -> Priority;
  delimiter_count_with_priority : BracketTracker.t -> Priority -> Z;
  get_open_lsqb : BracketTracker.t -> option LeafID;
  (* cercis.indent: [MultipleIndents(indents, mode)] *)
  render : list Indent -> Mode.t -> bool -> string;
  calc_total_width : list Indent -> Mode.t -> Z;
  (* cercis.nodes *)
  TEST_DESCENDANTS : list NodeType;
  whitespace : Heap -> LeafID -> bool -> string;
  is_import : Heap -> LeafID -> bool;
  is_multiline_string : Heap -> LeafID -> bool;
  is_one_sequence_between :
    Heap -> LeafID -> LeafID -> list LeafID -> NodeType * NodeType -> bool;
  is_type_comment : Heap -> LeafID -> string -> bool;
  is_with_or_async_with_stmt : Heap -> LeafID -> bool;
  child_towards : LN -> LeafID -> option LN;
  (* cercis.strings *)
  str_width : string -> Z;
  (* blib2to3.pytree: the nodes above the leaves *)
  is_node : LN -> bool;
  node_type : LN -> NodeType;
  node_ancestors : LN -> list LN;      (* [n.parent], its parent, ..., the root *)
  node_leaves : LN -> list LeafID;     (* [n.leaves()] *)
  node_str : Heap -> LN -> string;     (* [str(n)] *)
  ln_eq : Heap -> LN -> LN -> bool;    (* [a == b] *)
  pre_order : LN -> list LN
}.

Definition sys_maxsize : Z := 2 ^ 63 - 1.

(** ** Dictionaries that remember insertion order *)

Module Dict.
Definition t : Type := list (LeafID * list LeafID).

(** [d.get(k, [])] *)
Fixpoint get (d : t) (k : LeafID) : list LeafID :=
  match d with
  | [] => []
  | (k', v) :: d' => if Z.eqb k k' then v else get d' k
  end.

(** [d.setdefault(k, []).extend(vs)] *)
Fixpoint setdefault_extend (d : t) (k : LeafID) (vs : list LeafID) : t :=
  match d with
  | [] => [(k, vs)]
  | (k', v) :: d' =>
      if Z.eqb k k' then (k', v ++ vs) :: d'
      else (k', v) :: setdefault_extend d' k vs
  end.

(** [d.pop(k, [])]: the dictionary that is left. *)
Fixpoint remove (d : t) (k : LeafID) : t :=
  match d with
  | [] => []
  | (k', v) :: d' => if Z.eqb k k' then d' else (k', v) :: remove d' k
  end.

(** [itertools.chain.from_iterable(d.values())] *)
Definition chain_values (d : t) : list LeafID := flat_map snd d.
End Dict.

(** ** Enumerations *)

(** [enumerate(sequence)], counting from [index]. *)
Fixpoint enumerate_at {T : Type} (index : Z) (sequence : list T) : list (Z * T) :=
  match sequence with
  | [] => []
  | element :: rest => (index, element) :: enumerate_at (index + 1) rest
  end.

Definition enumerate {T : Type} (sequence : list T) : list (Z * T) :=
  enumerate_at 0 sequence.

(** The loop of [enumerate_reversed]: the elements as they come, the index
    going down. *)
Fixpoint countdown {T : Type} (index : Z) (elements : list T) : list (Z * T) :=
  match elements with
  | [] => []
  | element :: rest => (index, element) :: countdown (index - 1) rest
  end.

Definition enumerate_reversed {T : Type} (sequence : list T) : list (Z * T) :=
  countdown (Z.of_nat (List.length sequence) - 1) (rev sequence).

(** ** Line *)

Module Line.

Record t : Type := mk {
  mode : Mode.t;
  depth : list Indent;
  leaves : list LeafID;
  comments : Dict.t;
  bracket_tracker : BracketTracker.t;
  inside_brackets : bool;
  should_split_rhs : bool;
  magic_trailing_comma : option LeafID
}.

(** [Line(mode=mode, depth=depth)] *)
Definition new (m : Mode.t) (d : list Indent) : t :=
  mk m d [] [] BracketTracker.new false false None.

Definition set_leaves (ls : list LeafID) (l : t) : t :=
  mk (mode l) (depth l) ls (comments l) (bracket_tracker l)
     (inside_brackets l) (should_split_rhs l) (magic_trailing_comma l).

Definition set_comments (cs : Dict.t) (l : t) : t :=
  mk (mode l) (depth l) (leaves l) cs (bracket_tracker l)
     (inside_brackets l) (should_split_rhs l) (magic_trailing_comma l).

Definition set_bracket_tracker (bt : BracketTracker.t) (l : t) : t :=
  mk (mode l) (depth l) (leaves l) (comments l) bt
     (inside_brackets l) (should_split_rhs l) (magic_trailing_comma l).

Definition set_magic_trailing_comma (m : option LeafID) (l : t) : t :=
  mk (mode l) (depth l) (leaves l) (comments l) (bracket_tracker l)
     (inside_brackets l) (should_split_rhs l) m.

(** A line under construction: the leaf store and [self]. *)
Record St : Type := mkSt {
  heap : Heap;
  self : t
}.

Definition on_self (f : t -> t) : M St unit :=
  modify (fun s => mkSt (heap s) (f (self s))).

Definition on_leaf (i : LeafID) (f : Leaf.t -> Leaf.t) : M St unit :=
  modify (fun s => mkSt (upd (heap s) i (f (heap s i))) (self s)).

Section Methods.
Context `{Collaborators}.

Definition render_indent_chars (l : t) (for_width_calculation : bool) : string :=
  render (depth l) (mode l) for_width_calculation.

Definition calc_total_indent_width (l : t) : Z :=
  calc_total_width (depth l) (mode l).

Definition __bool__ (l : t) : bool :=
  match leaves l, comments l with
  | [], [] => false
  | _, _ => true
  end.

(** [bool(self) and test(self.leaves[0])] *)
Definition first_leaf_is (test : LeafID -> bool) (l : t) : result bool :=
  and_then (__bool__ l)
    match leaves l with
    | x :: _ => Return (test x)
    | [] => Throw IndexError
    end.

Definition is_comment (h : Heap) (l : t) : bool :=
  match leaves l with
  | [x] => type_eqb (Leaf.type (h x)) STANDALONE_COMMENT
  | _ => false
  end.

Definition is_decorator (h : Heap) (l : t) : result bool :=
  first_leaf_is (fun x => type_eqb (Leaf.type (h x)) AT) l.

Definition is_import (h : Heap) (l : t) : result bool :=
  first_leaf_is (is_import h) l.

Definition is_with_or_async_with_stmt (h : Heap) (l : t) : result bool :=
  first_leaf_is (is_with_or_async_with_stmt h) l.

Definition is_class (h : Heap) (l : t) : result bool :=
  first_leaf_is
    (fun x => type_eqb (Leaf.type (h x)) NAME
              && String.eqb (Leaf.value (h x)) "class") l.

(** [Leaf(token.DOT, ".")] compares equal to a leaf of that type and text. *)
Definition is_dot (h : Heap) (x : LeafID) : bool :=
  type_eqb (Leaf.type (h x)) DOT && String.eqb (Leaf.value (h x)) ".".

Definition is_stub_class (h : Heap) (l : t) : result bool :=
  c <~ is_class h l ;;
  Return (c && (List.length (Py.last_slice 3 (leaves l)) =? 3)%nat
            && forallb (is_dot h) (Py.last_slice 3 (leaves l))).

Definition is_def (h : Heap) (l : t) : bool :=
  match leaves l with
  | [] => false
  | first_leaf :: rest =>
      let second_leaf := match rest with y :: _ => Some y | [] => None end in
      (type_eqb (Leaf.type (h first_leaf)) NAME
       && String.eqb (Leaf.value (h first_leaf)) "def")
      || (type_eqb (Leaf.type (h first_leaf)) ASYNC
          && match second_leaf with
             | Some y => type_eqb (Leaf.type (h y)) NAME
                         && String.eqb (Leaf.value (h y)) "def"
             | None => false
             end)
  end.

Definition is_paren (h : Heap) (ty : NodeType) (text : string) (x : LeafID) : bool :=
  type_eqb (Leaf.type (h x)) ty && String.eqb (Leaf.value (h x)) text.

Definition is_class_paren_empty (h : Heap) (l : t) : result bool :=
  and_then (__bool__ l && (List.length (leaves l) =? 4)%nat)
    (c <~ is_class h l ;;
     Return (c && match nth_error (leaves l) 2, nth_error (leaves l) 3 with
                  | Some a, Some b => is_paren h LPAR "(" a && is_paren h RPAR ")" b
                  | _, _ => false
                  end)).

Definition triple_double : string :=
  String "034"%char (String "034"%char (String "034"%char EmptyString)).
Definition triple_single : string := "'''".

Definition is_triple_quoted_string (h : Heap) (l : t) : result bool :=
  first_leaf_is
    (fun x => type_eqb (Leaf.type (h x)) STRING
              && (Py.startswith triple_double (Leaf.value (h x))
                  || Py.startswith triple_single (Leaf.value (h x)))) l.

Definition opens_block (h : Heap) (l : t) : bool :=
  match Py.neg_index (leaves l) 1 with
  | None => false
  | Some x => type_eqb (Leaf.type (h x)) COLON
  end.

Definition is_fmt_pass_converted (h : Heap) (l : t)
           (first_leaf_matches : option (LeafID -> bool)) : bool :=
  match leaves l with
  | [leaf] =>
      match Leaf.fmt_pass_converted_first_leaf (h leaf) with
      | Some orig =>
          if negb (type_eqb (Leaf.type (h leaf)) STANDALONE_COMMENT) then false
          else match first_leaf_matches with
               | None => true
               | Some f => f orig
               end
      | None => false
      end
  | _ => false
  end.

Definition contains_standalone_comments (h : Heap) (l : t) (depth_limit : Z) : bool :=
  existsb (fun leaf => type_eqb (Leaf.type (h leaf)) STANDALONE_COMMENT
                       && (Leaf.bracket_depth (h leaf) <=? depth_limit))
          (leaves l).

(** One comment's share of [trailing_pragma_comment_length]. *)
Definition pragma_part_length (comment_str : string) : Z :=
  match Re.split1 _PRAGMA_REGEX comment_str with
  | [_; p1; p2] => Py.len p1 + Py.len p2
  | _ => 0
  end.

Definition trailing_pragma_comment_length (h : Heap) (l : t) : Z :=
  match Py.neg_index (leaves l) 1 with
  | None => 0
  | Some last_leaf =>
      fold_left
        (fun length comment => length + pragma_part_length (Leaf.str (h comment)))
        (Dict.get (comments l) last_leaf) 0
  end.

Definition contains_multiline_strings (h : Heap) (l : t) : bool :=
  existsb (is_multiline_string h) (leaves l).

Definition square : NodeType * NodeType := (LSQB, RSQB).
Definition round : NodeType * NodeType := (LPAR, RPAR).

(** [closing.opening_bracket and is_one_sequence_between(...)] and its
    negations share this test. *)
Definition one_sequence (h : Heap) (l : t) (closing : LeafID)
           (brackets : NodeType * NodeType) : option bool :=
  match Leaf.opening_bracket (h closing) with
  | Some opening =>
      Some (is_one_sequence_between h opening closing (leaves l) brackets)
  | None => None
  end.

Definition parent_type_is (h : Heap) (x : LeafID) (ty : NodeType) : bool :=
  match Leaf.parent (h x) with
  | Some p => type_eqb (node_type p) ty
  | None => false
  end.

Definition has_magic_trailing_comma (h : Heap) (l : t) (closing : LeafID)
           (ensure_removable : bool) : result bool :=
  match Py.neg_index (leaves l) 1 with
  | None => Return false
  | Some comma =>
      if negb (type_in (Leaf.type (h closing)) CLOSING_BRACKETS
               && type_eqb (Leaf.type (h comma)) COMMA)
      then Return false
      else if type_eqb (Leaf.type (h closing)) RBRACE then Return true
      else if type_eqb (Leaf.type (h closing)) RSQB then
        if parent_type_is h closing trailer
           && match one_sequence h l closing square with
              | Some b => b
              | None => false
              end
        then Return false
        else if negb ensure_removable then Return true
        else match Leaf.parent (h comma) with
             | None => Return false
             | Some p =>
                 Return (negb (type_eqb (node_type p) subscriptlist)
                         || match one_sequence h l closing square with
                            | None => true
                            | Some b => negb b
                            end)
             end
      else
        imp <~ is_import h l ;;
        if imp then Return true
        else match one_sequence h l closing round with
             | Some false => Return true
             | _ => Return false
             end
  end.

Definition comments_after (l : t) (leaf : LeafID) : list LeafID :=
  Dict.get (comments l) leaf.

(** [n.type] for a leaf or a node. *)
Definition ln_type (h : Heap) (n : LN) : NodeType :=
  if is_node n then node_type n else Leaf.type (h n).

Definition is_complex_subscript (h : Heap) (l : t) (leaf : LeafID) : bool :=
  match get_open_lsqb (bracket_tracker l) with
  | None => false
  | Some open_lsqb =>
      let subscript_start := Leaf.next_sibling (h open_lsqb) in
      let test (start : option LN) : bool :=
        match start with
        | None => false
        | Some n => existsb (fun n' => type_in (ln_type h n') TEST_DESCENDANTS)
                            (pre_order n)
        end in
      match subscript_start with
      | Some n =>
          if is_node n then
            if type_eqb (node_type n) listmaker then false
            else if type_eqb (node_type n) subscriptlist
                 then test (child_towards n leaf)
                 else test subscript_start
          else test subscript_start
      | None => test subscript_start
      end
  end.

(** The triples [enumerate_with_length] yields before it stops. *)
Fixpoint enumerate_from (h : Heap) (l : t) (index : Z) (ls : list LeafID)
  : list (Z * LeafID * Z) :=
  match ls with
  | [] => []
  | leaf :: ls' =>
      if Py.has_newline (Leaf.value (h leaf)) then []
      else
        let length :=
          fold_left (fun n comment => n + Py.len (Leaf.value (h comment)))
                    (comments_after l leaf)
                    (Py.len (Leaf.prefix (h leaf)) + Py.len (Leaf.value (h leaf))) in
        (index, leaf, length) :: enumerate_from h l (index + 1) ls'
  end.

Definition enumerate_with_length (h : Heap) (l : t) : list (Z * LeafID * Z) :=
  enumerate_from h l 0 (leaves l).

Definition _str_inner (h : Heap) (l : t) (for_width_calculation : bool)
  : result string :=
  if negb (__bool__ l) then Return Py.nl
  else
    let indent := render_indent_chars l for_width_calculation in
    match leaves l with
    | [] => Throw StopIteration
    | first :: rest =>
        let res := (Leaf.prefix (h first) ++ indent ++ Leaf.value (h first))%string in
        let res := fold_left (fun r leaf => (r ++ Leaf.str (h leaf))%string) rest res in
        let res := fold_left (fun r comment => (r ++ Leaf.str (h comment))%string)
                             (Dict.chain_values (comments l)) res in
        Return (res ++ Py.nl)%string
    end.

Definition render_as_str_for_width_calculation (h : Heap) (l : t) : result string :=
  _str_inner h l true.

Definition __str__ (h : Heap) (l : t) : result string :=
  _str_inner h l false.


(** [comment.type = STANDALONE_COMMENT; comment.prefix = ""] *)
Definition make_standalone (comment : LeafID) : M St unit :=
  on_leaf comment (Leaf.set_type STANDALONE_COMMENT) ;;;
  on_leaf comment (Leaf.set_prefix "").

(** [self.comments.setdefault(id(leaf), []).append(comment)] *)
Definition file_comment (leaf comment : LeafID) : M St unit :=
  on_self (fun l => set_comments (Dict.setdefault_extend (comments l) leaf [comment]) l).

Definition append_comment (comment : LeafID) : M St bool :=
  s <- get ;;
  if type_eqb (Leaf.type (heap s comment)) STANDALONE_COMMENT
     && any_open_brackets (bracket_tracker (self s))
  then on_leaf comment (Leaf.set_prefix "") ;;; ret false
  else if negb (type_eqb (Leaf.type (heap s comment)) COMMENT) then ret false
  else
    match Py.neg_index (leaves (self s)) 1 with
    | None => make_standalone comment ;;; ret false
    | Some last_leaf =>
        if type_eqb (Leaf.type (heap s last_leaf)) RPAR
           && negb (Py.truthy (Leaf.value (heap s last_leaf)))
           && match Leaf.parent (heap s last_leaf) with
              | Some p => (List.length (node_leaves p) <=? 3)%nat
              | None => false
              end
           && negb (is_type_comment (heap s) comment "")
        then
          if (List.length (leaves (self s)) <? 2)%nat
          then make_standalone comment ;;; ret false
          else
            last_leaf <- index (Py.neg_index (leaves (self s)) 2) ;;
            file_comment last_leaf comment ;;; ret true
        else file_comment last_leaf comment ;;; ret true
    end.

Definition remove_trailing_comma : M St unit :=
  s <- get ;;
  trailing_comma <- index (Py.neg_index (leaves (self s)) 1) ;;
  on_self (fun l => set_leaves (Py.del_last 1 (leaves l)) l) ;;;
  let trailing_comma_comments := Dict.get (comments (self s)) trailing_comma in
  on_self (fun l => set_comments (Dict.remove (comments l) trailing_comma) l) ;;;
  s <- get ;;
  new_last <- index (Py.neg_index (leaves (self s)) 1) ;;
  on_self (fun l => set_comments
                      (Dict.setdefault_extend (comments l) new_last
                                              trailing_comma_comments) l).

(** [leaf.type in BRACKETS or bool(leaf.value.strip())] *)
Definition has_value (leaf : Leaf.t) : bool :=
  type_in (Leaf.type leaf) BRACKETS || Py.truthy (Py.strip (Leaf.value leaf)).

(** [self.bracket_tracker.mark(leaf)] *)
Definition mark_leaf (leaf : LeafID) : M St unit :=
  s <- get ;;
  let '(bt, (d, ob)) := mark (heap s) (bracket_tracker (self s)) leaf in
  on_leaf leaf (Leaf.set_bracket_info d ob) ;;;
  on_self (set_bracket_tracker bt).

Definition append (leaf : LeafID) (preformatted track_bracket : bool) : M St unit :=
  s <- get ;;
  if negb (has_value (heap s leaf)) then ret tt
  else
    cpe <- (if type_eqb COLON (Leaf.type (heap s leaf))
            then lift (is_class_paren_empty (heap s) (self s))
            else ret false) ;;
    when cpe (on_self (fun l => set_leaves (Py.del_last 2 (leaves l)) l)) ;;;
    s <- get ;;
    when (match leaves (self s) with [] => false | _ => true end
          && negb preformatted)
      (on_leaf leaf
         (fun lf => Leaf.set_prefix
                      (Leaf.prefix lf
                       ++ whitespace (heap s) leaf
                            (is_complex_subscript (heap s) (self s) leaf))%string
                      lf)) ;;;
    s <- get ;;
    (if inside_brackets (self s) || negb preformatted || track_bracket then
       mark_leaf leaf ;;;
       s <- get ;;
       if Mode.magic_trailing_comma (mode (self s)) then
         m <- lift (has_magic_trailing_comma (heap s) (self s) leaf false) ;;
         when m (on_self (set_magic_trailing_comma (Some leaf)))
       else
         m <- lift (has_magic_trailing_comma (heap s) (self s) leaf true) ;;
         when m remove_trailing_comma
     else ret tt) ;;;
    attached <- append_comment leaf ;;
    when (negb attached) (on_self (fun l => set_leaves (leaves l ++ [leaf]) l)).

Definition append_safe (leaf : LeafID) (preformatted : bool) : M St unit :=
  s <- get ;;
  (if BracketTracker.depth (bracket_tracker (self s)) =? 0 then
     if is_comment (heap s) (self s)
     then raise (ValueError "cannot append to standalone comments")
     else if match leaves (self s) with [] => false | _ => true end
             && type_eqb (Leaf.type (heap s leaf)) STANDALONE_COMMENT
     then raise (ValueError "cannot append standalone comments to a populated line")
     else ret tt
   else ret tt) ;;;
  append leaf preformatted false.

(** [clone()]: the settings of the line, without its leaves and comments and
    with a tracker of its own. *)
Definition clone (l : t) : t :=
  mk (mode l) (depth l) [] [] BracketTracker.new
     (inside_brackets l) (should_split_rhs l) (magic_trailing_comma l).

(** [len(leaf.prefix) + len(leaf.value)] and the text of the comments after
    the leaf. *)
Definition length_with_comments (h : Heap) (l : t) (leaf : LeafID) : Z :=
  fold_left (fun n comment => n + Py.len (Leaf.value (h comment)))
            (comments_after l leaf)
            (Py.len (Leaf.prefix (h leaf)) + Py.len (Leaf.value (h leaf))).

(** The loop of [enumerate_with_length] over [op(self.leaves)]. *)
Fixpoint with_lengths (h : Heap) (l : t) (pairs : list (Z * LeafID))
  : list (Z * LeafID * Z) :=
  match pairs with
  | [] => []
  | (index, leaf) :: pairs' =>
      if Py.has_newline (Leaf.value (h leaf)) then []
      else (index, leaf, length_with_comments h l leaf) :: with_lengths h l pairs'
  end.

(** [enumerate_with_length(reversed)], in either direction. *)
Definition enumerate_with_length_by (h : Heap) (l : t) (reversed : bool)
  : list (Z * LeafID * Z) :=
  with_lengths h l
    (if reversed then enumerate_reversed (leaves l) else enumerate (leaves l)).

(** The ids [contains_uncollapsable_type_comments] collects before it looks
    at the comments; [None] when an index fails and the method answers
    [False]. *)
Definition ignored_ids (h : Heap) (l : t) : option (list LeafID) :=
  match Py.neg_index (leaves l) 1 with
  | None => None
  | Some last_leaf =>
      if type_eqb (Leaf.type (h last_leaf)) COMMA
         || (type_eqb (Leaf.type (h last_leaf)) RPAR
             && negb (Py.truthy (Leaf.value (h last_leaf))))
      then match Py.neg_index (leaves l) 2 with
           | None => None
           | Some before_last => Some [last_leaf; before_last]
           end
      else Some [last_leaf]
  end.

(** The inner loop, over the comments of one leaf: [None] when the method
    returns [True], else [comment_seen] as the loop leaves it. *)
Fixpoint scan_comments (h : Heap) (ignored : list LeafID) (leaf_id : LeafID)
         (comment_seen : bool) (comments : list LeafID) : option bool :=
  match comments with
  | [] => Some comment_seen
  | comment :: rest =>
      if is_type_comment h comment ""
         && (comment_seen
             || (negb (is_type_comment h comment " ignore")
                 && negb (existsb (Z.eqb leaf_id) ignored)))
      then None
      else scan_comments h ignored leaf_id true rest
  end.

(** The outer loop, over [self.comments.items()]. *)
Fixpoint scan_items (h : Heap) (ignored : list LeafID) (comment_seen : bool)
         (items : Dict.t) : bool :=
  match items with
  | [] => false
  | (leaf_id, comments) :: rest =>
      match scan_comments h ignored leaf_id comment_seen comments with
      | None => true
      | Some comment_seen => scan_items h ignored comment_seen rest
      end
  end.

Definition contains_uncollapsable_type_comments (h : Heap) (l : t) : bool :=
  if negb (Mode.wrap_pragma_comments (mode l)) then false
  else match ignored_ids h l with
       | None => false
       | Some ignored => scan_items h ignored false (comments l)
       end.

(** [next((leaf.lineno for leaf in leaves if leaf.lineno != 0), 0)] *)
Definition first_lineno (h : Heap) (ls : list LeafID) : Z :=
  match filter (fun leaf => negb (Leaf.lineno (h leaf) =? 0)) ls with
  | leaf :: _ => Leaf.lineno (h leaf)
  | [] => 0
  end.

Definition contains_unsplittable_type_ignore (h : Heap) (l : t) : bool :=
  if negb (Mode.wrap_pragma_comments (mode l)) then false
  else
    match leaves l with
    | [] => false
    | _ :: _ =>
        let first_line := first_lineno h (leaves l) in
        let last_line := first_lineno h (rev (leaves l)) in
        if first_line =? last_line then
          existsb (fun node =>
                     existsb (fun comment => is_type_comment h comment " ignore")
                             (Dict.get (comments l) node))
                  (Py.last_slice 2 (leaves l))
        else false
    end.

End Methods.
End Line.

(** ** The line-fit judge *)

Module RHSResult.
Record t : Type := mk {
  head : Line.t;
  body : Line.t;
  tail : Line.t;
  opening_bracket : LeafID;
  closing_bracket : LeafID
}.
End RHSResult.

(** [l[i]] with Python's negative indices. *)
Definition getitem {A : Type} (l : list A) (i : Z) : option A :=
  let n := Z.of_nat (List.length l) in
  if (0 <=? i) && (i <? n) then nth_error l (Z.to_nat i)
  else if (- n <=? i) && (i <? 0) then nth_error l (Z.to_nat (n + i))
  else None.

(** [l[i] = v] *)
Fixpoint set_nth {A : Type} (l : list A) (i : nat) (v : A) : list A :=
  match l, i with
  | [], _ => []
  | _ :: l', O => v :: l'
  | x :: l', S i' => x :: set_nth l' i' v
  end.

Definition setitem {A : Type} (l : list A) (i : Z) (v : A) : list A :=
  let n := Z.of_nat (List.length l) in
  if 0 <=? i then set_nth l (Z.to_nat i) v else set_nth l (Z.to_nat (n + i)) v.

Section Judge.
Context `{Collaborators}.

Definition line_to_string (h : Heap) (line : Line.t) : result string :=
  s <~ Line.__str__ h line ;;
  Return (Py.strip_newlines s).

(** [width = str_width if mode.preview else len] *)
Definition width (mode : Mode.t) (s : string) : Z :=
  if Mode.preview mode then str_width s else Py.len s.

(** The rendering [is_line_short_enough] measures. *)
Definition rendered (h : Heap) (line : Line.t) (mode : Mode.t) (line_str : string)
  : result string :=
  line_str <~ (if negb (Py.truthy line_str) then line_to_string h line
               else Return line_str) ;;
  if Mode.use_tabs mode then
    s <~ Line.render_as_str_for_width_calculation h line ;;
    Return (Py.strip_newlines s)
  else Return line_str.

Definition effective_length (h : Heap) (line : Line.t) (mode : Mode.t)
           (line_str : string) : Z :=
  if Mode.wrap_pragma_comments mode then width mode line_str
  else width mode line_str - Line.trailing_pragma_comment_length h line.

(** The part of a multiline string's context that is found in the
    rendering: the leaf, its parent, and so on upwards. *)
Fixpoint contexts_in (h : Heap) (line_str : string) (first : bool) (chain : list LN)
  : list LN :=
  match chain with
  | [] => []
  | ctx :: chain' =>
      let s := if first then Leaf.str (h ctx) else node_str h ctx in
      if Py.contains s line_str then ctx :: contexts_in h line_str false chain'
      else []
  end.

Definition context_chain (h : Heap) (leaf : LeafID) : list LN :=
  leaf :: match Leaf.parent (h leaf) with
          | Some p => p :: node_ancestors p
          | None => []
          end.

(** The variables of the loop over the leaves of a line that holds a
    multiline string. *)
Record mls_state : Type := mk_mls {
  commas : list Z;
  multiline_string : option LeafID;
  multiline_string_contexts : list LN;
  max_level_to_update : option Z          (* [None] is [math.inf] *)
}.

(** [x in [None] + contexts] *)
Definition in_ignore_ctxs (h : Heap) (x : option LN) (contexts : list LN) : bool :=
  match x with
  | None => true
  | Some a => existsb (fun c => Z.eqb a c || ln_eq h a c) contexts
  end.

(** One turn of the loop: [inl b] when it returns [b]. *)
Definition mls_step (h : Heap) (line : Line.t) (line_str : string)
           (st : mls_state) (i : Z) (leaf : LeafID) : result (bool + mls_state) :=
  let d := Leaf.bracket_depth (h leaf) in
  let len_commas := Z.of_nat (List.length (commas st)) in
  (* the bookkeeping done while the depth of the string is still unknown *)
  '(cs, had_comma) <~
    match max_level_to_update st with
    | None =>
        if d + 1 >? len_commas then Return (commas st ++ [0], None)
        else if d + 1 <? len_commas
             then match Py.neg_index (commas st) 1 with
                  | Some c => Return (Py.del_last 1 (commas st), Some c)
                  | None => Throw IndexError
                  end
             else Return (commas st, None)
    | Some _ => Return (commas st, None)
    end ;;
  let left_level :=
    match max_level_to_update st, had_comma, multiline_string st with
    | None, Some hc, Some mls =>
        if Leaf.bracket_depth (h mls) =? d + 1 then Some hc else None
    | _, _, _ => None
    end in
  let level := match left_level with
               | Some _ => Some d
               | None => max_level_to_update st
               end in
  if match left_level with Some hc => hc >? 0 | None => false end
  then Return (inl false)
  else
    cs <~ (if match level with Some m => d <=? m | None => true end
              && type_eqb (Leaf.type (h leaf)) COMMA
           then
             if negb (in_ignore_ctxs h (Leaf.prev_sibling (h leaf))
                                     (multiline_string_contexts st)
                      && (i =? Z.of_nat (List.length (Line.leaves line)) - 1))
             then match getitem cs d with
                  | Some c => Return (setitem cs d (c + 1))
                  | None => Throw IndexError
                  end
             else Return cs
           else Return cs) ;;
    let level := match level with
                 | Some m => Some (Z.min m d)
                 | None => None
                 end in
    if is_multiline_string h leaf then
      if (0 <? List.length (multiline_string_contexts st))%nat
      then Return (inl false)
      else Return (inr (mk_mls cs (Some leaf)
                               (multiline_string_contexts st
                                ++ contexts_in h line_str true (context_chain h leaf))
                               level))
    else Return (inr (mk_mls cs (multiline_string st)
                             (multiline_string_contexts st) level)).

Fixpoint mls_loop (h : Heap) (line : Line.t) (line_str : string)
         (st : mls_state) (i : Z) (ls : list LeafID) : result bool :=
  match ls with
  | [] =>
      match multiline_string_contexts st with
      | [] => Return true
      | _ => Return (forallb (fun val => val =? 0) (commas st))
      end
  | leaf :: ls' =>
      r <~ mls_step h line line_str st i leaf ;;
      match r with
      | inl b => Return b
      | inr st' => mls_loop h line line_str st' (i + 1) ls'
      end
  end.

Definition is_line_short_enough (h : Heap) (line : Line.t) (mode : Mode.t)
           (line_str : string) : result bool :=
  line_str <~ rendered h line mode line_str ;;
  let effective_length := effective_length h line mode line_str in
  if negb (mode_contains multiline_string_handling mode) then
    Return ((effective_length <=? Mode.line_length mode)
            && negb (Py.has_newline line_str)
            && negb (Line.contains_standalone_comments h line sys_maxsize))
  else if Line.contains_standalone_comments h line sys_maxsize then Return false
  else if negb (Py.has_newline line_str)
  then Return (effective_length <=? Mode.line_length mode)
  else
    match Py.split_lines line_str with
    | first :: (_ :: _) as rest =>
        let last := List.last rest first in
        if (width mode first >? Mode.line_length mode)
           || (width mode last >? Mode.line_length mode)
        then Return false
        else mls_loop h line line_str (mk_mls [] None [] None) 0 (Line.leaves line)
    | _ => Throw (ValueError "not enough values to unpack")
    end.

Fixpoint opening_paren_loop (h : Heap) (line : Line.t) (first : LeafID)
         (line_length : Z) (remainder : bool) (length _index : Z)
         (triples : list (Z * LeafID * Z)) : bool :=
  match triples with
  | [] => Z.of_nat (List.length (Line.leaves line)) =? _index + 1
  | (index, leaf, leaf_length) :: triples' =>
      let remainder :=
        if type_in (Leaf.type (h leaf)) CLOSING_BRACKETS
           && match Leaf.opening_bracket (h leaf) with
              | Some ob => Z.eqb ob first
              | None => false
              end
        then true else remainder in
      if remainder then
        let length := length + leaf_length in
        if length >? line_length then false
        else
          opening_paren_loop h line first line_length
            (negb (type_in (Leaf.type (h leaf)) OPENING_BRACKETS))
            length index triples'
      else opening_paren_loop h line first line_length remainder length index triples'
  end.

Definition _can_omit_opening_paren (h : Heap) (line : Line.t) (first : LeafID)
           (line_length : Z) : bool :=
  opening_paren_loop h line first line_length false
    (Line.calc_total_indent_width line) (-1) (Line.enumerate_with_length h line).

Fixpoint closing_paren_loop (h : Heap) (last : LeafID) (line_length : Z)
         (length : Z) (seen_other_brackets : bool)
         (triples : list (Z * LeafID * Z)) : bool :=
  match triples with
  | [] => false
  | (_, leaf, leaf_length) :: triples' =>
      let length := length + leaf_length in
      if match Leaf.opening_bracket (h last) with
         | Some ob => Z.eqb leaf ob
         | None => false
         end
      then
        if seen_other_brackets || (length <=? line_length) then true
        else closing_paren_loop h last line_length length seen_other_brackets triples'
      else
        closing_paren_loop h last line_length length
          (seen_other_brackets || type_in (Leaf.type (h leaf)) OPENING_BRACKETS)
          triples'
  end.

Definition _can_omit_closing_paren (h : Heap) (line : Line.t) (last : LeafID)
           (line_length : Z) : bool :=
  closing_paren_loop h last line_length (Line.calc_total_indent_width line) false
    (Line.enumerate_with_length h line).

Definition can_omit_invisible_parens (h : Heap) (rhs : RHSResult.t) (line_length : Z)
  : result bool :=
  let line := RHSResult.body rhs in
  let bt := Line.bracket_tracker line in
  match BracketTracker.delimiters bt with
  | [] => Return true
  | _ :: _ =>
      let max_priority := max_delimiter_priority bt in
      let delimiter_count := delimiter_count_with_priority bt max_priority in
      if delimiter_count >? 1 then Return false
      else
        stop <~ (if delimiter_count =? 1 then
                   and_then (mode_contains wrap_multiple_context_managers_in_parens
                                           (Line.mode line)
                             && (max_priority =? COMMA_PRIORITY))
                            (Line.is_with_or_async_with_stmt h (RHSResult.head rhs))
                 else Return false) ;;
        if stop then Return false
        else if max_priority =? DOT_PRIORITY then Return true
        else
          match Line.leaves line with
          | first :: second :: _ =>
              if type_in (Leaf.type (h first)) OPENING_BRACKETS
                 && negb (type_in (Leaf.type (h second)) CLOSING_BRACKETS)
                 && _can_omit_opening_paren h line first line_length
              then Return true
              else
                match Py.neg_index (Line.leaves line) 2, Py.neg_index (Line.leaves line) 1 with
                | Some penultimate, Some last =>
                    if type_eqb (Leaf.type (h last)) RPAR
                       || type_eqb (Leaf.type (h last)) RBRACE
                       || (type_eqb (Leaf.type (h last)) RSQB
                           && match Leaf.parent (h last) with
                              | Some p => negb (type_eqb (node_type p) trailer)
                              | None => false
                              end)
                    then
                      if type_in (Leaf.type (h penultimate)) OPENING_BRACKETS
                      then Return false
                      else if is_multiline_string h first then Return true
                      else Return (_can_omit_closing_paren h line last line_length)
                    else Return false
                | _, _ => Throw IndexError
                end
          | _ => Throw AssertionError
          end
  end.

End Judge.

(** The loop of [can_be_split] over [leaves[-2::-1]]; [next] is the last leaf
    of the line throughout. *)
Fixpoint can_be_split_loop (h : Heap) (next : LeafID) (call_count dot_count : Z)
         (ls : list LeafID) : bool :=
  match ls with
  | [] => true
  | leaf :: ls' =>
      let go_on (call_count dot_count : Z) : bool :=
        if (dot_count >? 1) && (call_count >? 1) then false
        else can_be_split_loop h next call_count dot_count ls' in
      if type_in (Leaf.type (h leaf)) OPENING_BRACKETS then
        if negb (type_in (Leaf.type (h next)) CLOSING_BRACKETS) then false
        else go_on (call_count + 1) dot_count
      else if type_eqb (Leaf.type (h leaf)) DOT then go_on call_count (dot_count + 1)
      else if type_eqb (Leaf.type (h leaf)) NAME then
        if negb (type_eqb (Leaf.type (h next)) DOT
                 || type_in (Leaf.type (h next)) OPENING_BRACKETS)
        then false
        else go_on call_count dot_count
      else if negb (type_in (Leaf.type (h leaf)) CLOSING_BRACKETS) then false
      else go_on call_count dot_count
  end.

Definition can_be_split (h : Heap) (line : Line.t) : bool :=
  match Line.leaves line with
  | first :: second :: _ =>
      if type_eqb (Leaf.type (h first)) STRING && type_eqb (Leaf.type (h second)) DOT
      then
        let next := List.last (Line.leaves line) first in
        can_be_split_loop h next 0 0 (rev (Py.del_last 1 (Line.leaves line)))
      else true
  | _ => false
  end.

(** ** The blank-line tracker *)

Definition BlockID : Type := Z.

Module LinesBlock.
Record t : Type := mk {
  mode : Mode.t;
  previous_block : option BlockID;
  original_line : Line.t;
  before : Z;
  content_lines : list string;
  after : Z
}.

Definition set_before (b : Z) (x : t) : t :=
  mk (mode x) (previous_block x) (original_line x) b (content_lines x) (after x).

Section Methods.
Context `{Collaborators}.

Definition all_lines (h : Heap) (x : t) : result (list string) :=
  empty_line <~ Line.__str__ h (Line.new (mode x) []) ;;
  Return ([Py.times empty_line (before x)] ++ content_lines x
          ++ [Py.times empty_line (after x)]).

End Methods.
End LinesBlock.

(** [a and b] and [a or b] when both sides may raise. *)
Definition both (a b : result bool) : result bool :=
  x <~ a ;; if x then b else Return false.
Definition either (a b : result bool) : result bool :=
  x <~ a ;; if x then Return true else b.
Definition non (a : result bool) : result bool :=
  x <~ a ;; Return (negb x).

Module EmptyLineTracker.

Record t : Type := mk {
  mode : Mode.t;
  previous_line : option Line.t;
  previous_block : option BlockID;
  previous_defs : list Line.t;
  semantic_leading_comment : option BlockID
}.

(** [EmptyLineTracker(mode=mode)] *)
Definition new (m : Mode.t) : t := mk m None None [] None.

Definition set_previous_defs (ds : list Line.t) (x : t) : t :=
  mk (mode x) (previous_line x) (previous_block x) ds (semantic_leading_comment x).

Definition set_semantic_leading_comment (c : option BlockID) (x : t) : t :=
  mk (mode x) (previous_line x) (previous_block x) (previous_defs x) c.

Definition set_previous (l : Line.t) (b : BlockID) (x : t) : t :=
  mk (mode x) (Some l) (Some b) (previous_defs x) (semantic_leading_comment x).

(** One formatting run: the leaves, the blocks handed out so far (a block
    stays reachable and writable after it was returned), and [self]. *)
Record St : Type := mkSt {
  heap : Heap;
  blocks : BlockID -> LinesBlock.t;
  next_block : BlockID;
  self : t
}.

Definition on_self (f : t -> t) : M St unit :=
  modify (fun s => mkSt (heap s) (blocks s) (next_block s) (f (self s))).

Definition on_leaf (i : LeafID) (f : Leaf.t -> Leaf.t) : M St unit :=
  modify (fun s => mkSt (upd (heap s) i (f (heap s i))) (blocks s) (next_block s) (self s)).

Definition on_block (i : BlockID) (f : LinesBlock.t -> LinesBlock.t) : M St unit :=
  modify (fun s => mkSt (heap s)
                        (fun j => if Z.eqb i j then f (blocks s i) else blocks s j)
                        (next_block s) (self s)).

(** A new [LinesBlock] object. *)
Definition new_block (b : LinesBlock.t) : M St BlockID :=
  s <- get ;;
  let i := next_block s in
  modify (fun s => mkSt (heap s)
                        (fun j => if Z.eqb i j then b else blocks s j)
                        (i + 1) (self s)) ;;;
  ret i.

Definition len_depth (l : Line.t) : Z := Z.of_nat (List.length (Line.depth l)).

Definition nonempty {A : Type} (l : list A) : bool :=
  match l with [] => false | _ => true end.

Definition block_keywords : list string :=
  ["with"; "try"; "for"; "while"; "if"; "match"].

Section Methods.
Context `{Collaborators}.

(** [self.previous_line and test(self.previous_line)] *)
Definition previous_line_and (x : t) (test : Line.t -> result bool) : result bool :=
  match previous_line x with
  | Some pl => and_then (Line.__bool__ pl) (test pl)
  | None => Return false
  end.

Definition _maybe_empty_lines_for_class_or_def (current_line : Line.t) (before : Z)
  : M St (Z * Z) :=
  s <- get ;;
  let h := heap s in
  cur_decorator <- lift (Line.is_decorator h current_line) ;;
  when (negb cur_decorator)
    (on_self (fun x => set_previous_defs (previous_defs x ++ [current_line]) x)) ;;;
  match previous_line (self s) with
  | None => ret (0, 0)
  | Some prev =>
      prev_decorator <- lift (Line.is_decorator h prev) ;;
      if prev_decorator then
        stub <- lift (and_then (Mode.is_pyi (mode (self s)))
                               (Line.is_stub_class h current_line)) ;;
        if stub then ret (0, 1) else ret (0, 0)
      else
        deeper <- lift (and_then (len_depth prev <? len_depth current_line)
                          (either (Line.is_class h prev) (Return (Line.is_def h prev)))) ;;
        if deeper then ret (0, 0)
        else
          let after_comment :=
            Line.is_comment h prev
            && (len_depth prev =? len_depth current_line)
            && (before =? 0) in
          let slc := semantic_leading_comment (self s) in
          hoist <- lift
            (if after_comment then
               match slc with
               | Some c =>
                   match LinesBlock.previous_block (blocks s c) with
                   | Some pb =>
                       let pl := LinesBlock.original_line (blocks s pb) in
                       ok <~ both (non (Line.is_class h pl))
                                  (Return (negb (Line.opens_block h pl)
                                           && (LinesBlock.before (blocks s c) <=? 1))) ;;
                       Return (ok, if ok then slc else None)
                   | None => Return (false, None)
                   end
               | None => Return (false, None)
               end
             else Return (true, None)) ;;
          let '(go_on, comment_to_add_newlines) := hoist in
          if negb go_on then ret (0, 0)
          else
            newlines <- lift
              (if Mode.is_pyi (mode (self s)) then
                 a_class <~ either (Line.is_class h current_line) (Line.is_class h prev) ;;
                 if a_class then
                   if len_depth prev <? len_depth current_line then Return 0
                   else if len_depth prev >? len_depth current_line then Return 1
                   else
                     stubs <~ both (Line.is_stub_class h current_line)
                                   (Line.is_stub_class h prev) ;;
                     if stubs then Return 0 else Return 1
                 else
                   def_after_other <~
                     both (either (Return (Line.is_def h current_line))
                                  (Line.is_decorator h current_line))
                          (Return (negb (Line.is_def h prev))) ;;
                   if def_after_other then
                     if nonempty (Line.depth current_line)
                     then Return (Z.min 1 before)
                     else Return 1
                   else if len_depth prev >? len_depth current_line then Return 1
                   else Return 0
               else Return (if nonempty (Line.depth current_line) then 1 else 2)) ;;
            match comment_to_add_newlines with
            | Some c =>
                match LinesBlock.previous_block (blocks s c) with
                | Some pb =>
                    on_block c (fun b =>
                      LinesBlock.set_before
                        (Z.max (LinesBlock.before b) newlines
                         - LinesBlock.after (blocks s pb)) b) ;;;
                    ret (0, 0)
                | None => ret (newlines, 0)
                end
            | None => ret (newlines, 0)
            end
  end.

(** One turn of the [while] loop, for the definition on top of the stack. *)
Definition unwind_step (h : Heap) (x : t) (current_line top : Line.t) (before : Z)
  : result Z :=
  let depth := Line.depth current_line in
  if Mode.is_pyi (mode x) then
    match previous_line x with
    | None => Throw AssertionError
    | Some prev =>
        if nonempty depth && negb (Line.is_def h current_line) && Line.is_def h prev
        then Return (Z.min 1 before)
        else
          nested_class <~
            and_then (mode_contains blank_line_after_nested_stub_class (mode x))
                     (both (Line.is_class h top) (non (Line.is_stub_class h top))) ;;
          if nested_class then Return 1
          else if nonempty depth then Return 0
          else Return 1
    end
  else if nonempty depth then Return 1
  else
    dependent <~
      and_then (negb (nonempty depth) && nonempty (Line.depth top))
        match Py.neg_index (Line.leaves current_line) 1, Line.leaves current_line with
        | Some last, first :: _ =>
            Return (type_eqb (Leaf.type (h last)) COLON
                    && negb (existsb (String.eqb (Leaf.value (h first))) block_keywords))
        | _, _ => Throw IndexError
        end ;;
    if dependent then Return 1 else Return 2.

(** The [while] loop; [stack] is [self.previous_defs], top first. *)
Fixpoint unwind (current_line : Line.t) (stack : list Line.t) (before : Z) : M St Z :=
  match stack with
  | [] => ret before
  | top :: stack' =>
      if len_depth top >=? len_depth current_line then
        s <- get ;;
        before <- lift (unwind_step (heap s) (self s) current_line top before) ;;
        on_self (fun x => set_previous_defs (Py.del_last 1 (previous_defs x)) x) ;;;
        unwind current_line stack' before
      else ret before
  end.

Definition _maybe_empty_lines (current_line : Line.t) : M St (Z * Z) :=
  s <- get ;;
  let max_allowed :=
    if len_depth current_line =? 0
    then (if Mode.is_pyi (mode (self s)) then 1 else 2)
    else 1 in
  before <- match Line.leaves current_line with
            | first_leaf :: _ =>
                let before := Py.count_newlines (Leaf.prefix (heap s first_leaf)) in
                on_leaf first_leaf (Leaf.set_prefix "") ;;;
                ret (Z.min before max_allowed)
            | [] => ret 0
            end ;;
  before <- unwind current_line (rev (previous_defs (self s))) before ;;
  s <- get ;;
  let h := heap s in
  class_or_def <- lift (either (Line.is_decorator h current_line)
                          (either (Return (Line.is_def h current_line))
                                  (Line.is_class h current_line))) ;;
  if class_or_def then _maybe_empty_lines_for_class_or_def current_line before
  else
    after_import <- lift
      (both (previous_line_and (self s) (Line.is_import h))
         (both (non (Line.is_import h current_line))
            (Return (negb (Line.is_fmt_pass_converted h current_line
                                                      (Some (is_import h)))
                     && match previous_line (self s) with
                        | Some prev => len_depth current_line =? len_depth prev
                        | None => false
                        end)))) ;;
    if after_import then ret (if before =? 0 then 1 else before, 0)
    else
      docstring <- lift
        (both (previous_line_and (self s) (Line.is_class h))
              (Line.is_triple_quoted_string h current_line)) ;;
      if docstring then ret (before, 1)
      else
        in_block <- lift
          (previous_line_and (self s) (fun pl => Return (Line.opens_block h pl))) ;;
        if in_block then ret (0, 0) else ret (before, 0).

Definition maybe_empty_lines (current_line : Line.t) : M St BlockID :=
  r <- _maybe_empty_lines current_line ;;
  let '(before, after) := r in
  s <- get ;;
  let previous_after :=
    match previous_block (self s) with
    | Some pb => LinesBlock.after (blocks s pb)
    | None => 0
    end in
  let before :=
    match previous_line (self s) with
    | None => 0
    | Some _ => before - previous_after
    end in
  block <- new_block (LinesBlock.mk (mode (self s)) (previous_block (self s))
                                    current_line before [] after) ;;
  let h := heap s in
  (if Line.is_comment h current_line then
     track <- lift
       match previous_line (self s) with
       | None => Return true
       | Some prev =>
           both (non (Line.is_decorator h prev))
                (Return ((negb (Line.is_comment h prev) || negb (before =? 0))
                         && (match semantic_leading_comment (self s) with
                             | None => true
                             | Some _ => false
                             end || negb (before =? 0))))
       end ;;
     when track (on_self (set_semantic_leading_comment (Some block)))
   else
     clear <- lift (either (non (Line.is_decorator h current_line))
                           (Return (negb (before =? 0)))) ;;
     when clear (on_self (set_semantic_leading_comment None))) ;;;
  on_self (set_previous current_line block) ;;;
  ret block.

End Methods.
End EmptyLineTracker.

(** ** A concrete set of collaborators and sample lines

    A small stand-in for the rest of the package, used to run the
    definitions above on concrete lines. *)

Module Sample.

Definition preview_eqb (a b : Preview) : bool :=
  match a, b with
  | multiline_string_handling, multiline_string_handling => true
  | wrap_multiple_context_managers_in_parens,
    wrap_multiple_context_managers_in_parens => true
  | blank_line_after_nested_stub_class, blank_line_after_nested_stub_class => true
  | other_preview n, other_preview m => Z.eqb n m
  | _, _ => false
  end.

(** A tracker that counts bracket depth and pairs brackets through a stack
    of the open ones. *)
Definition sample_mark (h : Heap) (bt : BracketTracker.t) (leaf : LeafID)
  : BracketTracker.t * (Z * option LeafID) :=
  let ty := Leaf.type (h leaf) in
  if type_eqb ty COMMENT
  then (bt, (Leaf.bracket_depth (h leaf), Leaf.opening_bracket (h leaf)))
  else if type_in ty CLOSING_BRACKETS then
    (BracketTracker.mk (BracketTracker.depth bt - 1) (BracketTracker.delimiters bt)
                       (tl (BracketTracker.bookkeeping bt)),
     (BracketTracker.depth bt - 1, hd_error (BracketTracker.bookkeeping bt)))
  else if type_in ty OPENING_BRACKETS then
    (BracketTracker.mk (BracketTracker.depth bt + 1) (BracketTracker.delimiters bt)
                       (leaf :: BracketTracker.bookkeeping bt),
     (BracketTracker.depth bt, None))
  else (bt, (BracketTracker.depth bt, None)).

Definition spaces (n : nat) : string := Py.of_chars (repeat " "%char n).

(** The leaves after [x]. *)
Fixpoint after_leaf (x : LeafID) (ls : list LeafID) : list LeafID :=
  match ls with
  | [] => []
  | y :: ls' => if Z.eqb x y then ls' else after_leaf x ls'
  end.

(** The leaves before [x]. *)
Fixpoint before_leaf (x : LeafID) (ls : list LeafID) : list LeafID :=
  match ls with
  | [] => []
  | y :: ls' => if Z.eqb x y then [] else y :: before_leaf x ls'
  end.

(** Fewer than two commas between the brackets, at their depth. *)
Definition sample_is_one_sequence_between (h : Heap) (opening closing : LeafID)
           (leaves : list LeafID) (brackets : NodeType * NodeType) : bool :=
  type_eqb (Leaf.type (h opening)) (fst brackets)
  && type_eqb (Leaf.type (h closing)) (snd brackets)
  && Nat.ltb
       (List.length
          (filter (fun l => type_eqb (Leaf.type (h l)) COMMA
                            && (Leaf.bracket_depth (h l)
                                =? Leaf.bracket_depth (h closing) + 1))
                  (before_leaf closing (after_leaf opening leaves))))
       2.

(** Node 100 is a subscript trailer, node 101 a subscript list, and node 200
    an atom of three leaves: an invisible paren, one token, an invisible paren. *)
Definition sample_node_type (n : LN) : NodeType :=
  if n =? 100 then trailer
  else if n =? 101 then subscriptlist
  else other_type 0.

Definition sample_node_leaves (n : LN) : list LeafID :=
  if n =? 200 then [1; 2; 3] else [].

#[export] Instance collaborators : Collaborators := {|
  mode_contains f m := existsb (preview_eqb f) (Mode.enabled_features m);
  COMMA_PRIORITY := 18;
  DOT_PRIORITY := 1;
  mark := sample_mark;
  any_open_brackets bt := negb (BracketTracker.depth bt =? 0);
  max_delimiter_priority bt :=
    fold_left Z.max (map snd (BracketTracker.delimiters bt)) 0;
  delimiter_count_with_priority bt p :=
    Z.of_nat (List.length (filter (fun kv => Z.eqb (snd kv) p)
                                  (BracketTracker.delimiters bt)));
  get_open_lsqb bt := None;
  render d m w := spaces (4 * List.length d);
  calc_total_width d m := 4 * Z.of_nat (List.length d);
  TEST_DESCENDANTS := [];
  whitespace h leaf complex_subscript := "";
  is_import h leaf := String.eqb (Leaf.value (h leaf)) "import"
                      || String.eqb (Leaf.value (h leaf)) "from";
  is_multiline_string h leaf := Py.has_newline (Leaf.value (h leaf));
  is_one_sequence_between := sample_is_one_sequence_between;
  is_type_comment h leaf suffix :=
    Py.startswith ("# type:" ++ suffix)%string (Leaf.value (h leaf));
  is_with_or_async_with_stmt h leaf := String.eqb (Leaf.value (h leaf)) "with";
  child_towards n leaf := None;
  str_width := Py.len;
  is_node n := (100 <=? n);
  node_type := sample_node_type;
  node_ancestors n := [];
  node_leaves := sample_node_leaves;
  node_str h n := "";
  ln_eq h a b := Z.eqb a b;
  pre_order n := [n]
|}.

Definition mode (budget : Z) (wrap_pragma pyi : bool) : Mode.t :=
  Mode.mk budget false false wrap_pragma pyi true [].

(** A leaf at bracket depth [d], under the node [parent] when there is one. *)
Definition leaf_at (ty : NodeType) (text pre : string) (d : Z)
           (opening : option LeafID) (parent : option LN) : Leaf.t :=
  Leaf.mk ty text pre 1 d opening parent None None None.

Definition leaf (ty : NodeType) (text pre : string) : Leaf.t :=
  leaf_at ty text pre 0 None None.

Definition blank : Leaf.t := leaf (other_type 0) "" "".

(** A store holding the given leaves at ids 1, 2, ... *)
Fixpoint store_from (i : LeafID) (ls : list Leaf.t) : Heap :=
  match ls with
  | [] => fun _ => blank
  | l :: ls' => upd (store_from (i + 1) ls') i l
  end.

Definition store (ls : list Leaf.t) : Heap := store_from 1 ls.

(** A line of the given leaves and comments, at bracket depth [d]. *)
Definition line (m : Mode.t) (indents : list Indent) (ls : list LeafID)
           (cs : Dict.t) (d : Z) : Line.t :=
  Line.mk m indents ls cs (BracketTracker.mk d [] []) false false None.

Definition plain : Mode.t := mode 88 false false.

End Sample.

(** * Specification

    The vocabulary of the statements below, then the statements. *)

(** ** Assertions on monadic code *)

Section Triples.
Context {S : Type}.

(** From a state in [P], [m] returns a value and a state in [Q], or raises an
    exception and leaves a state in [X]. *)
Definition triple {A : Type} (P : S -> Prop) (m : M S A)
           (Q : A -> S -> Prop) (X : exn -> S -> Prop) : Prop :=
  forall s, P s -> match m s with
                   | Ok a s' => Q a s'
                   | Raise e s' => X e s'
                   end.

(** [m] keeps [I] when it returns, and raises only into [X]. *)
Definition keeps (X : exn -> S -> Prop) (I : S -> Prop) {A : Type} (m : M S A) : Prop :=
  triple I m (fun _ => I) X.

(** No exception at all. *)
Definition never (e : exn) (s : S) : Prop := False.

End Triples.

Definition is_value_error (e : exn) : bool :=
  match e with
  | ValueError _ => true
  | _ => false
  end.

Definition raises_value_error {S A : Type} (r : Res S A) : bool :=
  match r with
  | Raise e _ => is_value_error e
  | Ok _ _ => false
  end.

(** A result that, when it throws, does not throw [ValueError]. *)
Definition calm {A : Type} (r : result A) : Prop :=
  forall e, r = Throw e -> is_value_error e = false.

(** ** Pragma comments *)

Definition suffix_of (rest inp : list ascii) : Prop :=
  exists taken, inp = taken ++ rest.

(** Where the first match of [r] in [inp] starts. *)
Fixpoint first_match_index (r : Re.regex) (inp : list ascii) : option nat :=
  match Re.match_here r inp with
  | Some _ => Some O
  | None =>
      match inp with
      | [] => None
      | _ :: inp' => option_map S (first_match_index r inp')
      end
  end.

(** The length of [s] from the start of its first pragma marker, the marker
    and the blanks before its [#] included; 0 when it has none. *)
Definition from_pragma_marker (s : string) : Z :=
  match first_match_index _PRAGMA_REGEX (Py.chars s) with
  | Some i => Py.len s - Z.of_nat i
  | None => 0
  end.

(** The length of what follows the first pragma marker of [s], the marker
    left out; 0 when it has none. *)
Definition after_pragma_marker (s : string) : Z :=
  match Re.split1 _PRAGMA_REGEX s with
  | [_; _; rest] => Py.len rest
  | _ => 0
  end.

Definition sum_Z (l : list Z) : Z := fold_right Z.add 0 l.

(** The reading of [trailing_pragma_comment_length] that depends on the mode
    and leaves the marker out: zero unless [protection_disabled], else the sum
    of what follows the marker in each comment of the last leaf. *)
Definition mode_dependent_pragma_length (protection_disabled : bool)
           (h : Heap) (l : Line.t) : Z :=
  if protection_disabled then
    match Py.neg_index (Line.leaves l) 1 with
    | None => 0
    | Some last_leaf =>
        sum_Z (map (fun comment => after_pragma_marker (Leaf.str (h comment)))
                   (Dict.get (Line.comments l) last_leaf))
    end
  else 0.

(** ** Lines *)

(** The longest prefix of [l] whose elements all pass [p]. *)
Fixpoint take_while {A : Type} (p : A -> bool) (l : list A) : list A :=
  match l with
  | x :: l' => if p x then x :: take_while p l' else []
  | [] => []
  end.

(** The text of the leaf holds no newline. *)
Definition on_one_line (h : Heap) (leaf : LeafID) : bool :=
  negb (Py.has_newline (Leaf.value (h leaf))).

(** The comments of a line in the order [str(line)] prints them, each with
    the id of the leaf it is filed under. *)
Definition attached (d : Dict.t) : list (LeafID * LeafID) :=
  flat_map (fun item => map (pair (fst item)) (snd item)) d.

(** A string of [n] newline characters, none when [n] is negative. *)
Definition newlines (n : Z) : string := Py.of_chars (repeat Py.newline (Z.to_nat n)).

(** Bracket depths as a tracker hands them out: never negative, and from one
    leaf to the next at most one level up or down; [previous] is the depth
    of the leaf before, [-1] ahead of the first leaf. *)
Fixpoint smooth_depths (h : Heap) (previous : Z) (ls : list LeafID) : Prop :=
  match ls with
  | [] => True
  | leaf :: ls' =>
      0 <= Leaf.bracket_depth (h leaf)
      /\ previous - 1 <= Leaf.bracket_depth (h leaf) <= previous + 1
      /\ smooth_depths h (Leaf.bracket_depth (h leaf)) ls'
  end.

Section LineVocabulary.
Context `{Collaborators}.




(** [h'] is [h] after [comment] was made a standalone comment. *)
Definition heap_after_standalone (h h' : Heap) (comment : LeafID) : Prop :=
  Leaf.type (h' comment) = STANDALONE_COMMENT
  /\ Leaf.prefix (h' comment) = ""
  /\ Leaf.value (h' comment) = Leaf.value (h comment)
  /\ forall other, other <> comment -> h' other = h other.

(** No leaf of the line is an inline comment. *)
Definition no_inline_comment_leaf (s : Line.St) : Prop :=
  forall x, In x (Line.leaves (Line.self s)) -> Leaf.type (Line.heap s x) <> COMMENT.

(** The guard of [append_safe]: no bracket is open, and the line is a
    standalone comment, or it has leaves and the token is a standalone comment. *)
Definition protocol_violation (s : Line.St) (leaf : LeafID) : bool :=
  (BracketTracker.depth (Line.bracket_tracker (Line.self s)) =? 0)
  && (Line.is_comment (Line.heap s) (Line.self s)
      || (match Line.leaves (Line.self s) with [] => false | _ => true end
          && type_eqb (Leaf.type (Line.heap s leaf)) STANDALONE_COMMENT)).

(** The guard as the specification words it: a token that is not a comment
    after a standalone comment, or a standalone comment on a line that has
    leaves while a bracket is open. *)
Definition worded_protocol_violation (s : Line.St) (leaf : LeafID) : bool :=
  (Line.is_comment (Line.heap s) (Line.self s)
   && negb (type_in (Leaf.type (Line.heap s leaf)) [COMMENT; STANDALONE_COMMENT]))
  || (type_eqb (Leaf.type (Line.heap s leaf)) STANDALONE_COMMENT
      && match Line.leaves (Line.self s) with [] => false | _ => true end
      && negb (BracketTracker.depth (Line.bracket_tracker (Line.self s)) =? 0)).

(** The outcome allowed after an exception in [append]: the assertion [I],
    and not one of the protocol violations. *)
Definition upset (I : Line.St -> Prop) (e : exn) (s : Line.St) : Prop :=
  I s /\ is_value_error e = false.

Definition sound (I : Line.St -> Prop) {A : Type} (m : M Line.St A) : Prop :=
  keeps (upset I) I m.

(** [append_comment] answers [False] only for a token that is not, or is no
    longer, an inline comment. *)
Definition not_inline_unless (I : Line.St -> Prop) (comment : LeafID)
           (attached : bool) (s : Line.St) : Prop :=
  I s /\ (attached = false -> Leaf.type (Line.heap s comment) <> COMMENT).

(** The line is as it was in [s0] and the token is still an inline comment. *)
Definition pending (s0 : Line.St) (comment : LeafID) (s : Line.St) : Prop :=
  Line.leaves (Line.self s) = Line.leaves (Line.self s0)
  /\ Line.comments (Line.self s) = Line.comments (Line.self s0)
  /\ Leaf.type (Line.heap s comment) = COMMENT.

(** What became of an inline comment appended in [s0]: a standalone comment
    that is the new last leaf, or an entry of the comment map under a leaf the
    line already had. *)
Definition disposed (s0 : Line.St) (comment : LeafID) (s' : Line.St) : Prop :=
  (Leaf.type (Line.heap s' comment) = STANDALONE_COMMENT
   /\ Line.leaves (Line.self s') = Line.leaves (Line.self s0) ++ [comment]
   /\ Line.comments (Line.self s') = Line.comments (Line.self s0))
  \/ (exists target,
         In target (Line.leaves (Line.self s0))
         /\ Leaf.type (Line.heap s' comment) = COMMENT
         /\ Line.leaves (Line.self s') = Line.leaves (Line.self s0)
         /\ Line.comments (Line.self s')
            = Dict.setdefault_extend (Line.comments (Line.self s0)) target [comment]).

(** A type comment that keeps the line from being joined: one that comes
    after another comment, or one that is not [type: ignore] and sits under a
    leaf outside [ignored]. *)
Definition uncollapsable (h : Heap) (ignored : list LeafID) (comment_seen : bool)
           (items : list (LeafID * LeafID)) : Prop :=
  exists before leaf_id comment after,
    items = before ++ (leaf_id, comment) :: after
    /\ is_type_comment h comment "" = true
    /\ (comment_seen = true \/ before <> []
        \/ (is_type_comment h comment " ignore" = false /\ ~ In leaf_id ignored)).

(** A body past the delimiter counts of [can_omit_invisible_parens]: one
    delimiter at most of the highest priority, which is not the priority of
    attribute access, and the preview layout for [with] statements off. *)
Definition single_delimiter (rhs : RHSResult.t) : Prop :=
  let line := RHSResult.body rhs in
  let bt := Line.bracket_tracker line in
  BracketTracker.delimiters bt <> []
  /\ delimiter_count_with_priority bt (max_delimiter_priority bt) <= 1
  /\ mode_contains wrap_multiple_context_managers_in_parens (Line.mode line) = false
  /\ max_delimiter_priority bt <> DOT_PRIORITY.

(** Where [append] may leave a token that is not an inline comment: behind
    the leaves of the line, behind all of them but a trailing comma (a
    closing bracket, in a mode that removes such commas), or behind all of
    them but the last two (a colon, after the empty parentheses of a class). *)
Definition appended_last (s0 : Line.St) (leaf : LeafID) (s' : Line.St) : Prop :=
  let ty := Leaf.type (Line.heap s0 leaf) in
  let before := Line.leaves (Line.self s0) in
  Leaf.type (Line.heap s' leaf) = ty
  /\ (Line.leaves (Line.self s') = before ++ [leaf]
      \/ (type_in ty CLOSING_BRACKETS = true
          /\ Mode.magic_trailing_comma (Line.mode (Line.self s0)) = false
          /\ Line.leaves (Line.self s') = Py.del_last 1 before ++ [leaf])
      \/ (ty = COLON
          /\ Line.leaves (Line.self s') = Py.del_last 2 before ++ [leaf])).

(** The one way [append] fails: the removal of a trailing comma that is the
    only leaf of the line, which is then left without leaves. *)
Definition lone_comma (s0 : Line.St) (leaf : LeafID) (e : exn) (s : Line.St) : Prop :=
  e = IndexError
  /\ Line.leaves (Line.self s) = []
  /\ List.length (Line.leaves (Line.self s0)) = 1%nat
  /\ type_in (Leaf.type (Line.heap s0 leaf)) CLOSING_BRACKETS = true
  /\ Mode.magic_trailing_comma (Line.mode (Line.self s0)) = false.

(** The states [append] goes through with a token [leaf] of [s0]: the type
    of the token and the mode of the line stay, and the leaves are those of
    [s0] less the [dropped] last ones. *)
Definition underway (s0 : Line.St) (leaf : LeafID) (dropped : nat) (s : Line.St) : Prop :=
  Leaf.type (Line.heap s leaf) = Leaf.type (Line.heap s0 leaf)
  /\ Line.mode (Line.self s) = Line.mode (Line.self s0)
  /\ Line.leaves (Line.self s) = Py.del_last dropped (Line.leaves (Line.self s0)).

End LineVocabulary.

(** ** The tracker *)

Section TrackerVocabulary.
Context `{Collaborators}.
Import EmptyLineTracker.

(** What [_maybe_empty_lines] leaves alone: the mode, the previous line and
    block, the next block id, and the [after] of every block. *)
Definition framed (s0 s : St) : Prop :=
  mode (self s) = mode (self s0)
  /\ previous_line (self s) = previous_line (self s0)
  /\ previous_block (self s) = previous_block (self s0)
  /\ next_block s = next_block s0
  /\ forall i, LinesBlock.after (blocks s i) = LinesBlock.after (blocks s0 i).

Definition frames (s0 : St) {A : Type} (m : M St A) : Prop :=
  keeps (fun _ => framed s0) (framed s0) m.

(** [self.previous_block.after if self.previous_block else 0] *)
Definition previous_after (s : St) : Z :=
  match previous_block (self s) with
  | Some pb => LinesBlock.after (blocks s pb)
  | None => 0
  end.

(** The [before] a block gets from the count [_maybe_empty_lines] computed. *)
Definition block_before (s : St) (before : Z) : Z :=
  match previous_line (self s) with
  | None => 0
  | Some _ => before - previous_after s
  end.

(** No line was seen yet. *)
Definition fresh (s : St) : Prop :=
  previous_line (self s) = None /\ previous_defs (self s) = [].

Definition first (s : St) : Prop := previous_line (self s) = None.

Definition runs {A : Type} (m : M St A) : Prop := keeps never first m.

(** The tracker after the line [prev], with the stack of definitions [ds]. *)
Definition at_stack (h : Heap) (bl : BlockID -> LinesBlock.t) (nb : BlockID)
           (m : Mode.t) (prev : Line.t) (pb slc : option BlockID)
           (ds : list Line.t) : St :=
  mkSt h bl nb (mk m (Some prev) pb ds slc).

(** The count for a definition that follows a definition of its depth. *)
Definition def_newlines (m : Mode.t) (current_line : Line.t) : Z :=
  if Mode.is_pyi m then 0
  else if nonempty (Line.depth current_line) then 1 else 2.

(** A run from a new tracker over a new store of blocks. *)
Definition start (h : Heap) (m : Mode.t) : St :=
  mkSt h (fun _ => LinesBlock.mk m None (Line.new m []) 0 [] 0) 0 (new m).

(** The leaf store once the tracker has consumed the newlines in front of
    the line. *)
Definition consumed (h : Heap) (current_line : Line.t) : Heap :=
  match Line.leaves current_line with
  | first_leaf :: _ => upd h first_leaf (Leaf.set_prefix "" (h first_leaf))
  | [] => h
  end.

(** The most blank lines a line may get: two at module level outside stubs,
    one otherwise. *)
Definition max_allowed (m : Mode.t) (current_line : Line.t) : Z :=
  if len_depth current_line =? 0 then (if Mode.is_pyi m then 1 else 2) else 1.

Definition bounded (m : Mode.t) (current_line : Line.t) (counts : Z * Z) : Prop :=
  0 <= fst counts <= max_allowed m current_line /\ 0 <= snd counts <= 1.

(** What [_maybe_empty_lines] leaves of the run [s0] it starts in: all but
    the prefix it consumes, the stack of definitions, and [before] in the
    block of the semantic leading comment. *)
Definition counted (s0 : St) (current_line : Line.t) (s : St) : Prop :=
  heap s = consumed (heap s0) current_line
  /\ mode (self s) = mode (self s0)
  /\ previous_line (self s) = previous_line (self s0)
  /\ previous_block (self s) = previous_block (self s0)
  /\ semantic_leading_comment (self s) = semantic_leading_comment (self s0)
  /\ next_block s = next_block s0
  /\ (forall i, semantic_leading_comment (self s0) <> Some i -> blocks s i = blocks s0 i)
  /\ (forall i, LinesBlock.set_before 0 (blocks s i) = LinesBlock.set_before 0 (blocks s0 i)).

(** The run [s] with another stack of definitions. *)
Definition with_defs (ds : list Line.t) (s : St) : St :=
  mkSt (heap s) (blocks s) (next_block s) (set_previous_defs ds (self s)).

(** The run [s] once the newlines in front of [current_line] are consumed. *)
Definition after_prefix (current_line : Line.t) (s : St) : St :=
  mkSt (consumed (heap s) current_line) (blocks s) (next_block s) (self s).

(** The lines a tracker is fed have leaves; in a stub file the rules also ask
    the lines on the stack of definitions what they are. *)
Definition well_fed (s : St) (current_line : Line.t) : Prop :=
  Line.leaves current_line <> []
  /\ (Mode.is_pyi (mode (self s)) = true ->
      previous_line (self s) <> None
      /\ Forall (fun d => Line.leaves d <> []) (previous_defs (self s))).

(** A line that is none of a decorator, a [def] and a [class]. *)
Definition plain_statement (h : Heap) (l : Line.t) : Prop :=
  Line.is_decorator h l = Return false
  /\ Line.is_def h l = false
  /\ Line.is_class h l = Return false.

End TrackerVocabulary.

(** ** Sample lines *)

Module Demo.
Import Sample.

(** [x  # noqa: E501]: one name and a pragma comment filed under it. *)
Definition pragma_heap : Heap :=
  store [leaf NAME "x" ""; leaf COMMENT "# noqa: E501" "  "].
Definition pragma_line (m : Mode.t) : Line.t := line m [] [1] [(1, [2])] 0.

(** [{a,] about to be closed by [}]. *)
Definition brace_heap : Heap :=
  store [leaf_at LBRACE "{" "" 0 None None; leaf_at NAME "a" "" 1 None None;
         leaf_at COMMA "," "" 1 None None; leaf_at RBRACE "}" "" 0 (Some 1) None].
Definition brace_line : Line.t := line plain [] [1; 2; 3] [] 1.

(** [x[a,] about to be closed by the [\]] of a subscript. *)
Definition subscript_heap : Heap :=
  store [leaf NAME "x" ""; leaf_at LSQB "[" "" 0 None (Some 100);
         leaf_at NAME "a" "" 1 None None; leaf_at COMMA "," "" 1 None None;
         leaf_at RSQB "]" "" 0 (Some 2) (Some 100)].
Definition subscript_line : Line.t := line plain [] [1; 2; 3; 4] [] 1.

(** [x[a, b,] about to be closed by the [\]] of a subscript. *)
Definition subscript2_heap : Heap :=
  store [leaf NAME "x" ""; leaf_at LSQB "[" "" 0 None (Some 100);
         leaf_at NAME "a" "" 1 None None; leaf_at COMMA "," "" 1 None None;
         leaf_at NAME "b" " " 1 None None; leaf_at COMMA "," "" 1 None None;
         leaf_at RSQB "]" "" 0 (Some 2) (Some 100)].
Definition subscript2_line : Line.t := line plain [] [1; 2; 3; 4; 5; 6] [] 1.

(** [from a import (b,] about to be closed by [)]. *)
Definition import_heap : Heap :=
  store [leaf NAME "from" ""; leaf NAME "a" " "; leaf NAME "import" " ";
         leaf_at LPAR "(" " " 0 None None; leaf_at NAME "b" "" 1 None None;
         leaf_at COMMA "," "" 1 None None; leaf_at RPAR ")" "" 0 (Some 4) None].
Definition import_line : Line.t := line plain [] [1; 2; 3; 4; 5; 6] [] 1.

(** Bodies of a right-hand split with no delimiter, with two delimiters of
    one priority, and with a single attribute access. *)
Definition body_with (delimiters : list (LeafID * Priority)) : RHSResult.t :=
  let body := Line.mk plain [] [1; 2; 3] [] (BracketTracker.mk 0 delimiters [])
                      false false None in
  RHSResult.mk (Line.new plain []) body (Line.new plain []) 4 5.
Definition names_heap : Heap :=
  store [leaf NAME "a" ""; leaf NAME "b" ""; leaf NAME "c" ""].

(** [x], then a standalone comment to append. *)
Definition populated_heap : Heap :=
  store [leaf NAME "x" ""; leaf STANDALONE_COMMENT "# c" ""].
Definition populated (d : Z) : Line.St :=
  Line.mkSt populated_heap (line plain [] [1] [] d).

(** An atom [(x)] in invisible parens, and an inline comment. *)
Definition atom_heap : Heap :=
  store [leaf_at LPAR "" "" 0 None (Some 200); leaf_at NAME "x" "" 1 None (Some 200);
         leaf_at RPAR "" "" 0 (Some 1) (Some 200); leaf COMMENT "# c" "  "].
Definition atom : Line.St := Line.mkSt atom_heap (line plain [] [1; 2; 3] [] 0).
Definition lone_paren : Line.St := Line.mkSt atom_heap (line plain [] [3] [] 0).

(** [x], then an inline comment and a token of blanks to append. *)
Definition name_heap : Heap :=
  store [leaf NAME "x" ""; leaf COMMENT "# c" "  "; leaf NAME "  " ""].
Definition name_line : Line.St := Line.mkSt name_heap (line plain [] [1] [] 0).

(** Two [def] lines, the second after three newlines. *)
Definition defs_heap : Heap :=
  store [leaf NAME "def" ""; leaf NAME "f" " ";
         leaf NAME "def" (Py.nl ++ Py.nl ++ Py.nl)%string; leaf NAME "g" " "].
Definition def_f (m : Mode.t) : Line.t := line m [] [1; 2] [] 0.
Definition def_g (m : Mode.t) : Line.t := line m [] [3; 4] [] 0.

(** The tracker after it was fed [def f]. *)
Definition after_def_f (m : Mode.t) : EmptyLineTracker.St :=
  final_state (EmptyLineTracker.maybe_empty_lines (def_f m) (start defs_heap m)).

(** A standalone comment on its own line, then an inline comment to append. *)
Definition comment_heap : Heap :=
  store [leaf STANDALONE_COMMENT "# c" ""; leaf COMMENT "# d" "  "].
Definition comment_line : Line.St :=
  Line.mkSt comment_heap (line plain [] [1] [] 0).

Definition stub : Mode.t := mode 88 false true.

(** A mode that removes trailing commas, and modes with one preview layout on. *)
Definition bare : Mode.t := Mode.mk 88 false false false false false [].
Definition layout : Mode.t :=
  Mode.mk 88 false false true false true [multiline_string_handling].
Definition managers : Mode.t :=
  Mode.mk 88 false false false false true [wrap_multiple_context_managers_in_parens].

(** [a,] with a comment under each leaf. *)
Definition comma_heap : Heap :=
  store [leaf NAME "a" ""; leaf COMMA "," ""; leaf COMMENT "# x" "  ";
         leaf COMMENT "# y" "  "].
Definition comma_line : Line.St :=
  Line.mkSt comma_heap (line plain [] [1; 2] [(1, [3]); (2, [4])] 1).

(** A comma alone on its line, about to be closed by [}]. *)
Definition lone_heap : Heap := store [leaf COMMA "," ""; leaf RBRACE "}" ""].
Definition lone : Line.St := Line.mkSt lone_heap (line bare [] [1] [] 1).

(** [class A()] about to get its colon. *)
Definition class_heap : Heap :=
  store [leaf NAME "class" ""; leaf NAME "A" " "; leaf LPAR "(" ""; leaf RPAR ")" "";
         leaf COLON ":" ""].
Definition class_line : Line.St := Line.mkSt class_heap (line plain [] [1; 2; 3; 4] [] 0).

(** [a b], then [c] to append. *)
Definition names_line : Line.St := Line.mkSt names_heap (line plain [] [1; 2] [] 0).

(** The body [f(a)] with one delimiter, of a priority of its own. *)
Definition call_heap : Heap :=
  store [leaf NAME "f" ""; leaf_at LPAR "(" "" 0 None None; leaf_at NAME "a" "" 1 None None;
         leaf_at RPAR ")" "" 0 (Some 2) None].
Definition call_body : RHSResult.t :=
  let body := Line.mk plain [] [1; 2; 3; 4] [] (BracketTracker.mk 0 [(3, 5)] [])
                      false false None in
  RHSResult.mk (Line.new plain []) body (Line.new plain []) 5 6.

(** [with a, b] split after [with]: the head and the body. *)
Definition with_heap : Heap :=
  store [leaf NAME "a" ""; leaf COMMA "," ""; leaf NAME "b" " "; leaf NAME "with" ""].
Definition with_rhs : RHSResult.t :=
  let body := Line.mk managers [] [1; 2; 3] [] (BracketTracker.mk 0 [(2, 18)] [])
                      false false None in
  RHSResult.mk (line managers [] [4] [] 0) body (Line.new managers []) 5 6.

(** A decorator and the [def] under it. *)
Definition decorated_heap : Heap :=
  store [leaf AT "@" ""; leaf NAME "d" ""; leaf NAME "def" Py.nl; leaf NAME "f" " "].
Definition decorator_line : Line.t := line plain [] [1; 2] [] 0.
Definition decorated_def : Line.t := line plain [] [3; 4] [] 0.
Definition after_decorator : EmptyLineTracker.St :=
  final_state (EmptyLineTracker.maybe_empty_lines decorator_line
                                                  (start decorated_heap plain)).

(** [import os], then [x]. *)
Definition import_os_heap : Heap :=
  store [leaf NAME "import" ""; leaf NAME "os" " "; leaf NAME "x" ""].
Definition import_os : Line.t := line plain [] [1; 2] [] 0.
Definition after_import_os : EmptyLineTracker.St :=
  final_state (EmptyLineTracker.maybe_empty_lines import_os (start import_os_heap plain)).

(** [if x:], then [y] two newlines further. *)
Definition if_heap : Heap :=
  store [leaf NAME "if" ""; leaf NAME "x" " "; leaf COLON ":" "";
         leaf NAME "y" (Py.nl ++ Py.nl)%string].
Definition if_line : Line.t := line plain [] [1; 2; 3] [] 0.
Definition after_if : EmptyLineTracker.St :=
  final_state (EmptyLineTracker.maybe_empty_lines if_line (start if_heap plain)).

(** [class A:], then its docstring two newlines further. *)
Definition docstring_heap : Heap :=
  store [leaf NAME "class" ""; leaf NAME "A" " "; leaf COLON ":" "";
         leaf STRING (Line.triple_double ++ "doc" ++ Line.triple_double)%string
              (Py.nl ++ Py.nl)%string].
Definition class_A : Line.t := line plain [] [1; 2; 3] [] 0.
Definition docstring : Line.t := line plain [0] [4] [] 0.
Definition after_class_A : EmptyLineTracker.St :=
  final_state (EmptyLineTracker.maybe_empty_lines class_A (start docstring_heap plain)).

(** [x], a comment, and a [def] right under the comment. *)
Definition commented_heap : Heap :=
  store [leaf NAME "x" ""; leaf STANDALONE_COMMENT "# c" ""; leaf NAME "def" "";
         leaf NAME "f" " "].
Definition after_comment : EmptyLineTracker.St :=
  final_state
    (EmptyLineTracker.maybe_empty_lines
       (line plain [] [2] [] 0)
       (final_state (EmptyLineTracker.maybe_empty_lines (line plain [] [1] [] 0)
                                                        (start commented_heap plain)))).

End Demo.

(** * Proofs *)

(** ** The monad *)

Lemma bind_ret {S A B : Type} (a : A) (f : A -> M S B) : bind (ret a) f = f a.
Proof. reflexivity. Qed.

Section TripleRules.
Context {S : Type}.
Variable X : exn -> S -> Prop.

Lemma triple_ret {A : Type} (P : S -> Prop) (a : A) (Q : A -> S -> Prop) :
  (forall s, P s -> Q a s) -> triple P (ret a) Q X.
Proof. intros HQ s Hs. simpl. auto. Qed.

Lemma triple_bind {A B : Type} (P : S -> Prop) (m : M S A) (f : A -> M S B)
      (R : A -> S -> Prop) (Q : B -> S -> Prop) :
  triple P m R X -> (forall a, triple (R a) (f a) Q X) -> triple P (bind m f) Q X.
Proof.
  intros Hm Hf s Hs. unfold bind. specialize (Hm s Hs).
  destruct (m s) as [a s'|e s']; [apply Hf|]; assumption.
Qed.

Lemma triple_get (P : S -> Prop) : triple P get (fun a s => P s /\ a = s) X.
Proof. intros s Hs. simpl. auto. Qed.

Lemma triple_modify (P : S -> Prop) (f : S -> S) (Q : unit -> S -> Prop) :
  (forall s, P s -> Q tt (f s)) -> triple P (modify f) Q X.
Proof. intros HQ s Hs. simpl. auto. Qed.

Lemma triple_raise {A : Type} (P : S -> Prop) (e : exn) (Q : A -> S -> Prop) :
  (forall s, P s -> X e s) -> triple P (raise e) Q X.
Proof. intros HX s Hs. simpl. auto. Qed.

(** The rules for code that keeps an assertion. *)

Variable I : S -> Prop.

Lemma keeps_ret {A : Type} (a : A) : keeps X I (ret a).
Proof. apply triple_ret. auto. Qed.

Lemma keeps_bind {A B : Type} (m : M S A) (f : A -> M S B) :
  keeps X I m -> (forall a, keeps X I (f a)) -> keeps X I (bind m f).
Proof. intros Hm Hf. eapply triple_bind; [exact Hm|exact Hf]. Qed.

Lemma keeps_get {A : Type} (f : S -> M S A) :
  (forall s, I s -> keeps X I (f s)) -> keeps X I (bind get f).
Proof.
  intros Hf. eapply triple_bind; [apply triple_get|].
  intros s s' [Hs' ->]. apply Hf; assumption.
Qed.

Lemma keeps_when (b : bool) (m : M S unit) : keeps X I m -> keeps X I (when b m).
Proof. destruct b; [auto|intros _; apply keeps_ret]. Qed.

Lemma keeps_modify (f : S -> S) : (forall s, I s -> I (f s)) -> keeps X I (modify f).
Proof. intros Hf. apply triple_modify. exact Hf. Qed.

End TripleRules.

(** ** Lists, strings and types *)

Lemma type_eqb_eq (a b : NodeType) : type_eqb a b = true <-> a = b.
Proof. unfold type_eqb. destruct (NodeType_eq_dec a b); split; congruence. Qed.

Lemma type_eqb_neq (a b : NodeType) : a <> b -> type_eqb a b = false.
Proof. unfold type_eqb. destruct (NodeType_eq_dec a b); congruence. Qed.

Lemma upd_same (h : Heap) (i : LeafID) (l : Leaf.t) : upd h i l i = l.
Proof. unfold upd. rewrite Z.eqb_refl. reflexivity. Qed.

Lemma upd_other (h : Heap) (i j : LeafID) (l : Leaf.t) : j <> i -> upd h i l j = h j.
Proof. unfold upd. intros Hne. destruct (Z.eqb_spec i j); congruence. Qed.

Lemma incl_del_last {A : Type} (k : nat) (l : list A) : incl (Py.del_last k l) l.
Proof.
  unfold Py.del_last. intros x Hx.
  rewrite <- (firstn_skipn (List.length l - k) l). apply in_or_app. now left.
Qed.

Lemma in_single_app {A : Type} (l : list A) (x y : A) :
  In x (l ++ [y]) -> In x l \/ x = y.
Proof. intros Hin. apply in_app_or in Hin as [|[->|[]]]; auto. Qed.

Lemma neg_index_In {A : Type} (l : list A) (k : nat) (x : A) :
  Py.neg_index l k = Some x -> In x l.
Proof.
  unfold Py.neg_index. destruct (List.length l <? k)%nat; [discriminate|].
  apply nth_error_In.
Qed.

Lemma neg_index_last_exists {A : Type} (x : A) (l : list A) :
  exists y, Py.neg_index (x :: l) 1 = Some y.
Proof.
  unfold Py.neg_index. simpl List.length.
  destruct (S (List.length l) <? 1)%nat eqn:Hlt; [apply Nat.ltb_lt in Hlt; lia|].
  destruct (nth_error (x :: l) (S (List.length l) - 1)) as [y|] eqn:Hnth; [eauto|].
  apply nth_error_None in Hnth. simpl in Hnth. lia.
Qed.

Lemma lstrip_by_all (p : ascii -> bool) (l : list ascii) :
  forallb p l = true -> Py.lstrip_by p l = [].
Proof.
  induction l as [|c l IH]; simpl; [reflexivity|].
  intros Hall. apply andb_prop in Hall as [Hc Hl]. rewrite Hc. auto.
Qed.

Lemma strip_blank (v : string) :
  forallb Py.isspace (Py.chars v) = true -> Py.strip v = "".
Proof.
  intros Hall. unfold Py.strip, Py.strip_by.
  rewrite (lstrip_by_all _ _ Hall). reflexivity.
Qed.

Lemma len_of_chars (l : list ascii) : Py.len (Py.of_chars l) = Z.of_nat (List.length l).
Proof.
  unfold Py.len, Py.of_chars. f_equal.
  induction l as [|c l IH]; simpl; congruence.
Qed.

Lemma len_chars (s : string) : Z.of_nat (List.length (Py.chars s)) = Py.len s.
Proof.
  unfold Py.len, Py.chars. f_equal.
  induction s as [|c s IH]; simpl; congruence.
Qed.

Lemma fold_left_sum (f : LeafID -> Z) (l : list LeafID) (acc : Z) :
  fold_left (fun n c => n + f c) l acc = acc + sum_Z (map f l).
Proof.
  revert acc. induction l as [|c l IH]; intros acc; simpl; [lia|].
  rewrite IH. lia.
Qed.

(** ** The pragma pattern: a match is a piece of the text *)

Lemma suffix_of_refl (l : list ascii) : suffix_of l l.
Proof. exists []. reflexivity. Qed.

Lemma suffix_of_cons (c : ascii) (rest inp : list ascii) :
  suffix_of rest inp -> suffix_of rest (c :: inp).
Proof. intros [taken ->]. exists (c :: taken). reflexivity. Qed.

Lemma suffix_of_trans (a b c : list ascii) :
  suffix_of a b -> suffix_of b c -> suffix_of a c.
Proof. intros [t1 ->] [t2 ->]. exists (t2 ++ t1). now rewrite app_assoc. Qed.

Lemma lit_suffix (p inp rest : list ascii) :
  Re.lit p inp = Some rest -> suffix_of rest inp.
Proof.
  revert inp. induction p as [|c p IH]; intros inp; simpl.
  - intros [= ->]. apply suffix_of_refl.
  - destruct inp as [|d inp]; [discriminate|].
    destruct (Ascii.eqb c d); [|discriminate].
    intros Hlit. apply suffix_of_cons. eauto.
Qed.

Lemma many_suffix {R : Type} (c : ascii) (inp : list ascii)
      (k : list ascii -> option R) (x : R) :
  Re.many c inp k = Some x -> exists rest, suffix_of rest inp /\ k rest = Some x.
Proof.
  induction inp as [|d inp IH]; simpl.
  - intros Hk. exists []. split; [apply suffix_of_refl|assumption].
  - destruct (Ascii.eqb c d).
    + destruct (Re.many c inp k) as [y|] eqn:Hmany.
      * intros [= ->]. destruct (IH eq_refl) as (rest & Hsuf & Hk).
        exists rest. split; [apply suffix_of_cons|]; assumption.
      * intros Hk. exists (d :: inp). split; [apply suffix_of_refl|assumption].
    + intros Hk. exists (d :: inp). split; [apply suffix_of_refl|assumption].
Qed.

Lemma run_suffix {R : Type} (r : Re.regex) :
  forall (inp : list ascii) (k : list ascii -> option R) (x : R),
    Re.run r inp k = Some x -> exists rest, suffix_of rest inp /\ k rest = Some x.
Proof.
  induction r as [s|c|r1 IH1 r2 IH2|r1 IH1 r2 IH2|r IH]; intros inp k x; simpl.
  - destruct (Re.lit (Py.chars s) inp) as [rest|] eqn:Hlit; [|discriminate].
    intros Hk. exists rest. split; [eapply lit_suffix; eassumption|assumption].
  - apply many_suffix.
  - intros Hrun. apply IH1 in Hrun as (mid & Hmid & Hrun).
    apply IH2 in Hrun as (rest & Hrest & Hk).
    exists rest. split; [eapply suffix_of_trans; eassumption|assumption].
  - destruct (Re.run r1 inp k) as [y|] eqn:Hleft.
    + intros [= ->]. eauto.
    + eauto.
  - destruct (Re.run r inp (fun _ => Some tt)); [|discriminate].
    intros Hk. exists inp. split; [apply suffix_of_refl|assumption].
Qed.

Lemma match_here_suffix (r : Re.regex) (inp rest : list ascii) :
  Re.match_here r inp = Some rest -> suffix_of rest inp.
Proof.
  unfold Re.match_here. intros Hrun.
  apply run_suffix in Hrun as (rest' & Hsuf & [= ->]). assumption.
Qed.

Lemma firstn_taken (taken rest : list ascii) :
  firstn (List.length (taken ++ rest) - List.length rest) (taken ++ rest) = taken.
Proof.
  rewrite length_app, Nat.add_sub.
  rewrite <- (Nat.add_0_r (List.length taken)), firstn_app_2. simpl. apply app_nil_r.
Qed.

Lemma search_here (r : Re.regex) (seen inp rest : list ascii) :
  Re.match_here r inp = Some rest ->
  exists taken, inp = taken ++ rest
                /\ Re.search r seen inp = Some (rev seen, taken, rest).
Proof.
  intros Hhere. pose proof (match_here_suffix _ _ _ Hhere) as [taken Htaken].
  exists taken. split; [assumption|].
  assert (Re.search r seen inp
          = Some (rev seen, firstn (List.length inp - List.length rest) inp, rest))
    as ->.
  { destruct inp; simpl; rewrite Hhere; reflexivity. }
  rewrite Htaken, firstn_taken. reflexivity.
Qed.

Lemma search_parts (r : Re.regex) (inp seen a m b : list ascii) :
  Re.search r seen inp = Some (a, m, b) ->
  a ++ m ++ b = rev seen ++ inp
  /\ first_match_index r inp = Some (List.length a - List.length seen)%nat
  /\ (List.length seen <= List.length a)%nat.
Proof.
  revert seen a m b. induction inp as [|c inp IH]; intros seen a m b.
  - simpl. destruct (Re.match_here r []) as [rest|] eqn:Hhere; [|discriminate].
    intros [= <- <- <-]. apply match_here_suffix in Hhere as [taken Htaken].
    symmetry in Htaken. apply app_eq_nil in Htaken as [-> ->]. simpl.
    rewrite length_rev, Nat.sub_diag. auto.
  - destruct (Re.match_here r (c :: inp)) as [rest|] eqn:Hhere.
    + destruct (search_here r seen _ _ Hhere) as (taken & Htaken & ->).
      intros [= <- <- <-].
      cbn [first_match_index]. rewrite Hhere.
      rewrite length_rev, Nat.sub_diag. repeat split; [|lia].
      f_equal. symmetry. assumption.
    + cbn [Re.search first_match_index]. rewrite Hhere. intros Hsearch.
      apply IH in Hsearch as (Hparts & Hindex & Hlen).
      cbn [rev List.length] in *. rewrite <- app_assoc in Hparts.
      repeat split; [assumption| |lia].
      rewrite Hindex. cbn [option_map]. f_equal. lia.
Qed.

Lemma search_none (r : Re.regex) (inp seen : list ascii) :
  Re.search r seen inp = None -> first_match_index r inp = None.
Proof.
  revert seen. induction inp as [|c inp IH]; intros seen; simpl.
  - destruct (Re.match_here r []); [discriminate|reflexivity].
  - destruct (Re.match_here r (c :: inp)); [discriminate|].
    intros Hsearch. now rewrite (IH _ Hsearch).
Qed.

(** ** Lines *)

Section LineProofs.
Context `{Collaborators}.

Lemma pragma_part_length_from_marker (s : string) :
  Line.pragma_part_length s = from_pragma_marker s.
Proof.
  unfold Line.pragma_part_length, from_pragma_marker, Re.split1.
  destruct (Re.search _PRAGMA_REGEX [] (Py.chars s)) as [[[a m] b]|] eqn:Hsearch.
  - apply search_parts in Hsearch as (Hparts & -> & _).
    simpl in Hparts. rewrite !len_of_chars, <- len_chars, <- Hparts, !length_app.
    simpl. lia.
  - rewrite (search_none _ _ _ Hsearch).
    destruct s; reflexivity.
Qed.

(** C5, as the code has it: [trailing_pragma_comment_length] is zero on a line
    without leaves; otherwise, whatever the mode, it is the sum over the
    comments filed under the last leaf of the length of each comment's text
    from the start of its first pragma marker, the marker included, to its
    end (zero for a comment without a marker). *)
Theorem trailing_pragma_comment_length_from_marker (h : Heap) (l : Line.t) :
  (Line.leaves l = [] -> Line.trailing_pragma_comment_length h l = 0)
  /\ (forall last_leaf,
        Py.neg_index (Line.leaves l) 1 = Some last_leaf ->
        Line.trailing_pragma_comment_length h l
        = sum_Z (map (fun comment => from_pragma_marker (Leaf.str (h comment)))
                     (Dict.get (Line.comments l) last_leaf)))
  /\ (forall m : Mode.t,
        Line.trailing_pragma_comment_length h
          (Line.mk m (Line.depth l) (Line.leaves l) (Line.comments l)
                   (Line.bracket_tracker l) (Line.inside_brackets l)
                   (Line.should_split_rhs l) (Line.magic_trailing_comma l))
        = Line.trailing_pragma_comment_length h l).
Proof.
  unfold Line.trailing_pragma_comment_length. repeat split.
  - intros ->. reflexivity.
  - intros last_leaf ->. rewrite fold_left_sum. simpl.
    f_equal. apply map_ext. intros c. apply pragma_part_length_from_marker.
Qed.





Lemma has_magic_trailing_comma_not_closing
      (h : Heap) (l : Line.t) (closing : LeafID) (ensure_removable : bool) :
  type_in (Leaf.type (h closing)) CLOSING_BRACKETS = false ->
  Line.has_magic_trailing_comma h l closing ensure_removable = Return false.
Proof.
  intros Hty. unfold Line.has_magic_trailing_comma.
  destruct (Py.neg_index (Line.leaves l) 1); [|reflexivity].
  rewrite Hty. reflexivity.
Qed.

(** C2: [has_magic_trailing_comma(closing)] is [False] unless [closing] is a
    closing bracket and the last leaf of the line is a comma.  When both hold:
    a closing brace gives [True]; a closing square bracket gives [False] when
    it belongs to a subscript trailer holding one sequence, and [True] when
    the brackets hold more than one; a closing paren on an import line gives
    [True] whatever it holds. *)
Theorem has_magic_trailing_comma_cases (h : Heap) (l : Line.t) (closing : LeafID) :
  let answer := Line.has_magic_trailing_comma h l closing false in
  (type_in (Leaf.type (h closing)) CLOSING_BRACKETS = false -> answer = Return false)
  /\ (Py.neg_index (Line.leaves l) 1 = None -> answer = Return false)
  /\ (forall last, Py.neg_index (Line.leaves l) 1 = Some last ->
        Leaf.type (h last) <> COMMA -> answer = Return false)
  /\ (forall comma, Py.neg_index (Line.leaves l) 1 = Some comma ->
        Leaf.type (h comma) = COMMA ->
        (Leaf.type (h closing) = RBRACE -> answer = Return true)
        /\ (Leaf.type (h closing) = RSQB ->
            (forall p opening,
                Leaf.parent (h closing) = Some p -> node_type p = trailer ->
                Leaf.opening_bracket (h closing) = Some opening ->
                is_one_sequence_between h opening closing (Line.leaves l) (LSQB, RSQB)
                = true ->
                answer = Return false)
            /\ (forall opening,
                Leaf.opening_bracket (h closing) = Some opening ->
                is_one_sequence_between h opening closing (Line.leaves l) (LSQB, RSQB)
                = false ->
                answer = Return true))
        /\ (Leaf.type (h closing) = RPAR ->
            Line.is_import h l = Return true -> answer = Return true)).
Proof.
  cbv zeta. split; [apply has_magic_trailing_comma_not_closing|].
  unfold Line.has_magic_trailing_comma. split; [|split].
  - intros ->. reflexivity.
  - intros last -> Hty. rewrite (type_eqb_neq _ _ Hty), andb_false_r. reflexivity.
  - intros comma -> Hcomma. rewrite Hcomma. split; [|split].
    + intros ->. reflexivity.
    + intros Hsq. rewrite Hsq. split.
      * intros p opening Hp Hpt Ho Hone.
        unfold Line.parent_type_is, Line.one_sequence, Line.square.
        rewrite Hp, Hpt, Ho, Hone. reflexivity.
      * intros opening Ho Hone.
        unfold Line.one_sequence, Line.square. rewrite Ho, Hone.
        rewrite andb_false_r. reflexivity.
    + intros Hpar Himp. rewrite Hpar, Himp. reflexivity.
Qed.

(** C3: [can_omit_invisible_parens] answers [True] when the body's tracker
    has no delimiter, [False] when it counts more than one delimiter of the
    highest priority, and [True] when it counts exactly one and that priority
    is the priority of attribute access (which is not the priority of the
    comma). *)
Theorem can_omit_invisible_parens_by_delimiters
        (h : Heap) (rhs : RHSResult.t) (line_length : Z) :
  DOT_PRIORITY <> COMMA_PRIORITY ->
  let bt := Line.bracket_tracker (RHSResult.body rhs) in
  let top := max_delimiter_priority bt in
  (BracketTracker.delimiters bt = [] ->
   can_omit_invisible_parens h rhs line_length = Return true)
  /\ (BracketTracker.delimiters bt <> [] ->
      delimiter_count_with_priority bt top > 1 ->
      can_omit_invisible_parens h rhs line_length = Return false)
  /\ (BracketTracker.delimiters bt <> [] ->
      delimiter_count_with_priority bt top = 1 ->
      top = DOT_PRIORITY ->
      can_omit_invisible_parens h rhs line_length = Return true).
Proof.
  intros Hdistinct bt top. unfold can_omit_invisible_parens.
  fold bt. fold top. repeat split.
  - intros ->. reflexivity.
  - intros Hne Hcount. destruct (BracketTracker.delimiters bt); [congruence|].
    destruct (Z.gtb_spec (delimiter_count_with_priority bt top) 1); [reflexivity|lia].
  - intros Hne Hcount Hdot. destruct (BracketTracker.delimiters bt); [congruence|].
    rewrite Hcount. simpl.
    assert ((top =? COMMA_PRIORITY) = false) as ->.
    { apply Z.eqb_neq. congruence. }
    rewrite andb_false_r. simpl.
    rewrite Hdot, Z.eqb_refl. reflexivity.
Qed.

(** C6: an inline comment that is not a type comment, arriving when the last
    leaf is an invisible closing paren whose node has at most three leaves, is
    filed under the leaf before that paren; when the line has fewer than two
    leaves it is made a standalone comment (its type changed, its prefix
    cleared) and refused, the line left as it was. *)
Theorem append_comment_after_invisible_paren
        (s : Line.St) (comment last_leaf : LeafID) (wrapped : LN) :
  let h := Line.heap s in
  let line := Line.self s in
  Leaf.type (h comment) = COMMENT ->
  Py.neg_index (Line.leaves line) 1 = Some last_leaf ->
  Leaf.type (h last_leaf) = RPAR ->
  Leaf.value (h last_leaf) = "" ->
  Leaf.parent (h last_leaf) = Some wrapped ->
  (List.length (node_leaves wrapped) <= 3)%nat ->
  is_type_comment h comment "" = false ->
  (forall before_paren,
      Py.neg_index (Line.leaves line) 2 = Some before_paren ->
      Line.append_comment comment s
      = Ok true (Line.mkSt h (Line.set_comments
                                (Dict.setdefault_extend (Line.comments line)
                                                        before_paren [comment])
                                line)))
  /\ ((List.length (Line.leaves line) < 2)%nat ->
      exists h', Line.append_comment comment s = Ok false (Line.mkSt h' line)
                 /\ heap_after_standalone h h' comment).
Proof.
  intros h line Hcomment Hlast Hrpar Hvalue Hparent Hone Hnot_type.
  unfold Line.append_comment, bind, get. fold h. fold line.
  rewrite Hcomment, Hlast, Hrpar, Hvalue, Hparent, Hnot_type. simpl.
  apply Nat.leb_le in Hone. rewrite Hone. simpl.
  split.
  - intros before_paren Hbefore.
    assert ((List.length (Line.leaves line) <? 2)%nat = false) as ->.
    { unfold Py.neg_index in Hbefore.
      destruct (List.length (Line.leaves line) <? 2)%nat; congruence. }
    rewrite Hbefore. reflexivity.
  - intros Hshort. apply Nat.ltb_lt in Hshort. rewrite Hshort.
    eexists. split; [reflexivity|].
    unfold heap_after_standalone. rewrite !upd_same. simpl.
    repeat split. intros other Hne. rewrite !upd_other by assumption. reflexivity.
Qed.

(** C9: a token that is not a bracket and whose text is empty or all
    whitespace is not appended: [append] returns at once and the leaves, the
    comments, the tracker, the magic trailing comma and the leaf store are
    what they were. *)
Theorem append_without_value_is_noop
        (s : Line.St) (leaf : LeafID) (preformatted track_bracket : bool) :
  type_in (Leaf.type (Line.heap s leaf)) BRACKETS = false ->
  forallb Py.isspace (Py.chars (Leaf.value (Line.heap s leaf))) = true ->
  Line.append leaf preformatted track_bracket s = Ok tt s.
Proof.
  intros Hty Hblank.
  unfold Line.append, bind, get.
  unfold Line.has_value. rewrite Hty, (strip_blank _ Hblank). reflexivity.
Qed.

End LineProofs.

(** ** What [append] keeps *)

Section AppendProofs.
Context `{Collaborators}.

Lemma first_leaf_is_throws (test : LeafID -> bool) (l : Line.t) (e : exn) :
  Line.first_leaf_is test l = Throw e -> e = IndexError.
Proof.
  unfold Line.first_leaf_is, and_then.
  destruct (Line.__bool__ l); [|discriminate].
  destruct (Line.leaves l); [|discriminate]. congruence.
Qed.

Lemma first_leaf_is_with_leaves (test : LeafID -> bool) (l : Line.t)
      (x : LeafID) (rest : list LeafID) :
  Line.leaves l = x :: rest -> Line.first_leaf_is test l = Return (test x).
Proof.
  intros Hl. unfold Line.first_leaf_is, Line.__bool__. rewrite Hl. reflexivity.
Qed.

Lemma first_leaf_is_total (test : LeafID -> bool) (l : Line.t) :
  (Line.leaves l = [] -> Line.comments l = []) ->
  exists b, Line.first_leaf_is test l = Return b.
Proof.
  intros Hl. unfold Line.first_leaf_is, Line.__bool__.
  destruct (Line.leaves l) as [|x rest].
  - rewrite (Hl eq_refl). eexists; reflexivity.
  - eexists; reflexivity.
Qed.

Lemma calm_first_leaf_is (test : LeafID -> bool) (l : Line.t) :
  calm (Line.first_leaf_is test l).
Proof. intros e He. apply first_leaf_is_throws in He as ->. reflexivity. Qed.

Lemma calm_return {A : Type} (a : A) : calm (Return a).
Proof. intros e. discriminate. Qed.

Lemma calm_rbind {A B : Type} (r : result A) (f : A -> result B) :
  calm r -> (forall a, calm (f a)) -> calm (rbind r f).
Proof.
  intros Hr Hf. destruct r as [a|e]; simpl; [apply Hf|].
  intros e' [= <-]. apply Hr. reflexivity.
Qed.

Lemma calm_and_then (a : bool) (r : result bool) : calm r -> calm (and_then a r).
Proof. destruct a; [auto|intros _; apply calm_return]. Qed.

Lemma calm_is_class_paren_empty (h : Heap) (l : Line.t) :
  calm (Line.is_class_paren_empty h l).
Proof.
  unfold Line.is_class_paren_empty. apply calm_and_then.
  apply calm_rbind; [apply calm_first_leaf_is|intros; apply calm_return].
Qed.

Lemma calm_has_magic_trailing_comma
      (h : Heap) (l : Line.t) (closing : LeafID) (b : bool) :
  calm (Line.has_magic_trailing_comma h l closing b).
Proof.
  unfold Line.has_magic_trailing_comma.
  repeat match goal with
         | |- calm (Return _) => apply calm_return
         | |- calm (rbind _ _) => apply calm_rbind; [apply calm_first_leaf_is|intros]
         | |- calm (match ?x with _ => _ end) => destruct x
         end.
Qed.

Section Sound.

(** An assertion on lines that survives dropping leaves, rewriting a leaf
    without making it an inline comment, and pushing a leaf that is not an
    inline comment. *)
Variable I : Line.St -> Prop.
Hypothesis I_on_self :
  forall f s, incl (Line.leaves (f (Line.self s))) (Line.leaves (Line.self s)) ->
              I s -> I (Line.mkSt (Line.heap s) (f (Line.self s))).
Hypothesis I_on_leaf :
  forall i l s, Leaf.type l = Leaf.type (Line.heap s i) \/ Leaf.type l <> COMMENT ->
                I s -> I (Line.mkSt (upd (Line.heap s) i l) (Line.self s)).
Hypothesis I_push :
  forall leaf s, Leaf.type (Line.heap s leaf) <> COMMENT -> I s ->
                 I (Line.mkSt (Line.heap s)
                              (Line.set_leaves (Line.leaves (Line.self s) ++ [leaf])
                                               (Line.self s))).

Lemma sound_ret {A : Type} (a : A) : sound I (ret a).
Proof. apply keeps_ret. Qed.

Lemma sound_bind {A B : Type} (m : M Line.St A) (f : A -> M Line.St B) :
  sound I m -> (forall a, sound I (f a)) -> sound I (bind m f).
Proof. apply keeps_bind. Qed.

Lemma sound_get {A : Type} (f : Line.St -> M Line.St A) :
  (forall s, sound I (f s)) -> sound I (bind get f).
Proof. intros Hf. apply keeps_get. intros s _. apply Hf. Qed.

Lemma sound_when (b : bool) (m : M Line.St unit) : sound I m -> sound I (when b m).
Proof. apply keeps_when. Qed.

Lemma sound_on_self (f : Line.t -> Line.t) :
  (forall l, incl (Line.leaves (f l)) (Line.leaves l)) -> sound I (Line.on_self f).
Proof. intros Hf. apply keeps_modify. intros s Hs. apply I_on_self; auto. Qed.

Lemma sound_on_leaf (i : LeafID) (f : Leaf.t -> Leaf.t) :
  (forall l, Leaf.type (f l) = Leaf.type l \/ Leaf.type (f l) <> COMMENT) ->
  sound I (Line.on_leaf i f).
Proof. intros Hf. apply keeps_modify. intros s Hs. apply I_on_leaf; auto. Qed.

Lemma sound_lift {A : Type} (r : result A) : calm r -> sound I (lift r).
Proof.
  intros Hr. destruct r as [a|e]; simpl.
  - apply sound_ret.
  - apply triple_raise. intros s Hs. split; [assumption|]. apply Hr. reflexivity.
Qed.

Lemma sound_index {A : Type} (o : option A) : sound I (index o).
Proof.
  destruct o; simpl; [apply sound_ret|].
  apply triple_raise. intros s Hs. split; [assumption|reflexivity].
Qed.

Lemma sound_make_standalone (c : LeafID) : sound I (Line.make_standalone c).
Proof.
  unfold Line.make_standalone.
  apply sound_bind; [|intros _]; apply sound_on_leaf; intros l; simpl.
  - right. discriminate.
  - left. reflexivity.
Qed.

Lemma sound_file_comment (a b : LeafID) : sound I (Line.file_comment a b).
Proof. apply sound_on_self. intros l. simpl. apply incl_refl. Qed.

Lemma sound_remove_trailing_comma : sound I Line.remove_trailing_comma.
Proof.
  unfold Line.remove_trailing_comma.
  apply sound_get; intros s.
  apply sound_bind; [apply sound_index|intros trailing_comma].
  apply sound_bind; [apply sound_on_self; intros l; simpl; apply incl_del_last|intros _].
  apply sound_bind; [apply sound_on_self; intros l; simpl; apply incl_refl|intros _].
  apply sound_get; intros s'.
  apply sound_bind; [apply sound_index|intros new_last].
  apply sound_on_self; intros l; simpl; apply incl_refl.
Qed.

Lemma sound_mark_leaf (leaf : LeafID) : sound I (Line.mark_leaf leaf).
Proof.
  unfold Line.mark_leaf. apply sound_get; intros s.
  destruct (mark _ _ _) as [bt [d ob]].
  apply sound_bind; [|intros _].
  - apply sound_on_leaf. intros l. left. reflexivity.
  - apply sound_on_self. intros l. simpl. apply incl_refl.
Qed.

Lemma append_comment_triple (comment : LeafID) :
  triple I (Line.append_comment comment) (not_inline_unless I comment) (upset I).
Proof.
  intros s Hs. unfold Line.append_comment, bind, get.
  destruct (type_eqb (Leaf.type (Line.heap s comment)) STANDALONE_COMMENT
            && any_open_brackets (Line.bracket_tracker (Line.self s))) eqn:Hstandalone.
  { apply andb_prop in Hstandalone as [Hty _]. apply type_eqb_eq in Hty.
    simpl. split.
    - apply (I_on_leaf comment _ s); [left; reflexivity|assumption].
    - intros _. simpl. rewrite upd_same. simpl. congruence. }
  destruct (type_eqb (Leaf.type (Line.heap s comment)) COMMENT) eqn:Hcomment; simpl.
  2:{ split; [assumption|]. intros _ Hty. apply type_eqb_eq in Hty. congruence. }
  assert (match (Line.make_standalone comment ;;; ret false) s with
          | Ok attached s' => not_inline_unless I comment attached s'
          | Raise e s' => upset I e s'
          end) as Hmake.
  { pose proof (sound_make_standalone comment s Hs) as Hk.
    simpl in *. split; [exact Hk|].
    intros _. simpl. rewrite !upd_same. simpl. discriminate. }
  assert (forall target,
            match (Line.file_comment target comment ;;; ret true) s with
            | Ok attached s' => not_inline_unless I comment attached s'
            | Raise e s' => upset I e s'
            end) as Hfile.
  { intros target. pose proof (sound_file_comment target comment s Hs) as Hk.
    simpl in *. split; [exact Hk|discriminate]. }
  destruct (Py.neg_index (Line.leaves (Line.self s)) 1) as [last_leaf|];
    [|exact Hmake].
  match goal with
  | |- context [if ?c then _ else _] => destruct c
  end; [|apply Hfile].
  destruct (List.length (Line.leaves (Line.self s)) <? 2)%nat; [exact Hmake|].
  destruct (Py.neg_index (Line.leaves (Line.self s)) 2) as [target|].
  - apply Hfile.
  - simpl. split; [assumption|reflexivity].
Qed.

Lemma append_sound (leaf : LeafID) (preformatted track_bracket : bool) :
  sound I (Line.append leaf preformatted track_bracket).
Proof.
  unfold Line.append.
  apply sound_get; intros s.
  destruct (negb (Line.has_value (Line.heap s leaf))); [apply sound_ret|].
  apply sound_bind.
  { destruct (type_eqb COLON _); [|apply sound_ret].
    apply sound_lift, calm_is_class_paren_empty. }
  intros cpe.
  apply sound_bind.
  { apply sound_when, sound_on_self. intros l. simpl. apply incl_del_last. }
  intros _. apply sound_get; intros s1.
  apply sound_bind.
  { apply sound_when, sound_on_leaf. intros l. left. reflexivity. }
  intros _. apply sound_get; intros s2.
  apply sound_bind.
  { destruct (_ || _); [|apply sound_ret].
    apply sound_bind; [apply sound_mark_leaf|intros _].
    apply sound_get; intros s3.
    destruct (Mode.magic_trailing_comma _).
    - apply sound_bind; [apply sound_lift, calm_has_magic_trailing_comma|intros m].
      apply sound_when, sound_on_self. intros l. simpl. apply incl_refl.
    - apply sound_bind; [apply sound_lift, calm_has_magic_trailing_comma|intros m].
      apply sound_when, sound_remove_trailing_comma. }
  intros _.
  eapply triple_bind; [apply append_comment_triple|].
  intros attached. destruct attached; simpl.
  - apply triple_ret. intros s' [Hs' _]. exact Hs'.
  - apply triple_modify. intros s' [Hs' Hty]. apply I_push; auto.
Qed.

End Sound.

Lemma append_keeps_no_inline_comment_leaf
      (leaf : LeafID) (preformatted track_bracket : bool) (s : Line.St) :
  no_inline_comment_leaf s ->
  no_inline_comment_leaf (final_state (Line.append leaf preformatted track_bracket s)).
Proof.
  intros Hs.
  assert (sound no_inline_comment_leaf (Line.append leaf preformatted track_bracket))
    as Hsound.
  { apply append_sound.
    - intros f s0 Hincl Hs0 x Hx. simpl in *. apply Hs0. auto.
    - intros i l s0 Hty Hs0 x Hx. simpl in *. unfold upd.
      destruct (Z.eqb_spec i x) as [->|]; [|auto].
      destruct Hty as [-> | Hty]; auto.
    - intros lf s0 Hty Hs0 x Hx. simpl in *.
      apply in_single_app in Hx as [Hx| ->]; auto. }
  specialize (Hsound s Hs).
  destruct (Line.append leaf preformatted track_bracket s); simpl; [assumption|].
  apply Hsound.
Qed.

Lemma append_never_value_error
      (leaf : LeafID) (preformatted track_bracket : bool) (s s' : Line.St) (e : exn) :
  Line.append leaf preformatted track_bracket s = Raise e s' ->
  is_value_error e = false.
Proof.
  intros Hraise.
  assert (sound (fun _ => True) (Line.append leaf preformatted track_bracket))
    as Hsound by (apply append_sound; auto).
  specialize (Hsound s Logic.I). rewrite Hraise in Hsound. apply Hsound.
Qed.

Lemma append_safe_raises (s : Line.St) (leaf : LeafID) (preformatted : bool) :
  protocol_violation s leaf = true ->
  exists msg, Line.append_safe leaf preformatted s = Raise (ValueError msg) s.
Proof.
  unfold protocol_violation, Line.append_safe, bind, get. intros Hguard.
  apply andb_prop in Hguard as [-> Hguard].
  destruct (Line.is_comment (Line.heap s) (Line.self s)); [eexists; reflexivity|].
  simpl in Hguard. rewrite Hguard. eexists; reflexivity.
Qed.

Lemma append_safe_passes (s : Line.St) (leaf : LeafID) (preformatted : bool) :
  protocol_violation s leaf = false ->
  Line.append_safe leaf preformatted s = Line.append leaf preformatted false s.
Proof.
  unfold protocol_violation, Line.append_safe, bind, get. intros Hguard.
  destruct (BracketTracker.depth (Line.bracket_tracker (Line.self s)) =? 0);
    [|reflexivity].
  simpl in Hguard. apply orb_false_elim in Hguard as [-> ->]. reflexivity.
Qed.

(** C4, as the code has it: [append_safe] raises [ValueError], the line and
    the store untouched, exactly when no bracket is open and either the line
    is a standalone comment (whatever the token) or the line has leaves and
    the token is a standalone comment; in every other case it is [append]. *)
Theorem append_safe_protocol (s : Line.St) (leaf : LeafID) (preformatted : bool) :
  (protocol_violation s leaf = true ->
   exists msg, Line.append_safe leaf preformatted s = Raise (ValueError msg) s)
  /\ (protocol_violation s leaf = false ->
      Line.append_safe leaf preformatted s = Line.append leaf preformatted false s)
  /\ ((exists msg s', Line.append_safe leaf preformatted s = Raise (ValueError msg) s')
      <-> protocol_violation s leaf = true).
Proof.
  split; [apply append_safe_raises|]. split; [apply append_safe_passes|]. split.
  - intros (msg & s' & Hraise).
    destruct (protocol_violation s leaf) eqn:Hguard; [reflexivity|].
    rewrite (append_safe_passes _ _ _ Hguard) in Hraise.
    apply append_never_value_error in Hraise. discriminate.
  - intros Hguard. destruct (append_safe_raises s leaf preformatted Hguard) as [msg Hmsg].
    eauto.
Qed.

(** *** The fate of an inline comment *)

Section InlineComment.
Variables (s0 : Line.St) (comment : LeafID).

Lemma pending_bind {A B : Type} (m : M Line.St A) (f : A -> M Line.St B)
      (Q : B -> Line.St -> Prop) :
  keeps never (pending s0 comment) m ->
  (forall a, triple (pending s0 comment) (f a) Q never) ->
  triple (pending s0 comment) (bind m f) Q never.
Proof. intros Hm Hf. eapply triple_bind; [exact Hm|exact Hf]. Qed.

Lemma pending_get {B : Type} (f : Line.St -> M Line.St B) (Q : B -> Line.St -> Prop) :
  (forall s, triple (pending s0 comment) (f s) Q never) ->
  triple (pending s0 comment) (bind get f) Q never.
Proof.
  intros Hf. eapply triple_bind; [apply triple_get|].
  intros s s' [Hs' _]. apply Hf. assumption.
Qed.

Lemma pending_mark_leaf : keeps never (pending s0 comment) (Line.mark_leaf comment).
Proof.
  intros s (Hleaves & Hcomments & Hty). unfold Line.mark_leaf, bind, get.
  destruct (mark _ _ _) as [bt [d ob]]. simpl.
  unfold pending. simpl. rewrite upd_same. simpl. auto.
Qed.

Lemma pending_magic_trailing_comma :
  keeps never (pending s0 comment)
    (s <- get ;;
     if Mode.magic_trailing_comma (Line.mode (Line.self s)) then
       m <- lift (Line.has_magic_trailing_comma (Line.heap s) (Line.self s) comment false) ;;
       when m (Line.on_self (Line.set_magic_trailing_comma (Some comment)))
     else
       m <- lift (Line.has_magic_trailing_comma (Line.heap s) (Line.self s) comment true) ;;
       when m Line.remove_trailing_comma).
Proof.
  intros s Hs. unfold bind, get.
  assert (type_in (Leaf.type (Line.heap s comment)) CLOSING_BRACKETS = false) as Hty.
  { destruct Hs as (_ & _ & ->). reflexivity. }
  rewrite !(has_magic_trailing_comma_not_closing _ _ _ _ Hty).
  destruct (Mode.magic_trailing_comma _); simpl; exact Hs.
Qed.

Lemma pending_set_prefix (b : bool) (f : Leaf.t -> string) :
  keeps never (pending s0 comment)
        (when b (Line.on_leaf comment (fun lf => Leaf.set_prefix (f lf) lf))).
Proof.
  apply keeps_when, keeps_modify. intros s (Hleaves & Hcomments & Hty).
  unfold pending. simpl. rewrite upd_same. simpl. auto.
Qed.

Lemma pending_append_comment :
  triple (pending s0 comment)
    (attached <- Line.append_comment comment ;;
     when (negb attached)
          (Line.on_self (fun l => Line.set_leaves (Line.leaves l ++ [comment]) l)))
    (fun _ => disposed s0 comment) never.
Proof.
  intros s (Hleaves & Hcomments & Hty).
  unfold bind at 1. unfold Line.append_comment, bind, get.
  rewrite Hty. simpl.
  assert (disposed s0 comment
            (Line.mkSt
               (upd (upd (Line.heap s) comment
                         (Leaf.set_type STANDALONE_COMMENT (Line.heap s comment)))
                    comment
                    (Leaf.set_prefix
                       "" (upd (Line.heap s) comment
                               (Leaf.set_type STANDALONE_COMMENT (Line.heap s comment))
                               comment)))
               (Line.set_leaves (Line.leaves (Line.self s) ++ [comment]) (Line.self s))))
    as Hown.
  { left. simpl. rewrite !upd_same. simpl. rewrite Hleaves, Hcomments. auto. }
  assert (forall target,
             In target (Line.leaves (Line.self s)) ->
             disposed s0 comment
               (Line.mkSt (Line.heap s)
                          (Line.set_comments
                             (Dict.setdefault_extend (Line.comments (Line.self s))
                                                     target [comment])
                             (Line.self s))))
    as Hfiled.
  { intros target Hin. right. exists target. simpl.
    rewrite <- Hleaves, <- Hcomments. auto. }
  destruct (Py.neg_index (Line.leaves (Line.self s)) 1) as [last_leaf|] eqn:Hlast;
    [|exact Hown].
  match goal with
  | |- context [if ?c then _ else _] => destruct c
  end.
  - destruct (List.length (Line.leaves (Line.self s)) <? 2)%nat eqn:Hlen;
      [exact Hown|].
    destruct (Py.neg_index (Line.leaves (Line.self s)) 2) as [target|] eqn:Htarget.
    + apply Hfiled. eapply neg_index_In. eassumption.
    + unfold Py.neg_index in Htarget. rewrite Hlen in Htarget.
      apply nth_error_None in Htarget. apply Nat.ltb_ge in Hlen. lia.
  - apply Hfiled. eapply neg_index_In. eassumption.
Qed.

Lemma append_disposes_inline_comment (preformatted track_bracket : bool) :
  Leaf.type (Line.heap s0 comment) = COMMENT ->
  Line.has_value (Line.heap s0 comment) = true ->
  exists s', Line.append comment preformatted track_bracket s0 = Ok tt s'
             /\ disposed s0 comment s'.
Proof.
  intros Hty Hvalue.
  unfold Line.append. unfold bind at 1. unfold get at 1.
  rewrite Hvalue, Hty. cbn [negb]. cbv iota.
  replace (type_eqb COLON COMMENT) with false by reflexivity. cbv iota.
  rewrite bind_ret. change (when false ?m) with (@ret Line.St unit tt).
  rewrite bind_ret.
  match goal with
  | |- exists s', ?m s0 = _ /\ _ =>
      assert (triple (pending s0 comment) m (fun _ => disposed s0 comment) never)
      as Hrun
  end.
  { apply pending_get; intros s1.
    apply pending_bind; [apply pending_set_prefix|intros _].
    apply pending_get; intros s2.
    apply pending_bind; [|intros _; apply pending_append_comment].
    destruct (_ || _); [|apply keeps_ret].
    apply keeps_bind; [apply pending_mark_leaf|intros _].
    apply pending_magic_trailing_comma. }
  specialize (Hrun s0 (conj eq_refl (conj eq_refl Hty))).
  match goal with
  | |- exists s', ?m s0 = _ /\ _ => destruct (m s0) as [[] s'|e s']
  end; [|destruct Hrun].
  exists s'. auto.
Qed.

End InlineComment.

(** C8: [append] and [append_safe] keep the line free of inline-comment
    leaves, whether they return or raise; and an inline comment with visible
    text that is appended ends either as a standalone comment that is the new
    last leaf, or in the comment map under a leaf the line already had, the
    leaves unchanged. *)
Theorem append_never_stores_inline_comment
        (s : Line.St) (leaf : LeafID) (preformatted track_bracket : bool) :
  no_inline_comment_leaf s ->
  no_inline_comment_leaf (final_state (Line.append leaf preformatted track_bracket s))
  /\ no_inline_comment_leaf (final_state (Line.append_safe leaf preformatted s))
  /\ (Leaf.type (Line.heap s leaf) = COMMENT ->
      Line.has_value (Line.heap s leaf) = true ->
      exists s', Line.append leaf preformatted track_bracket s = Ok tt s'
                 /\ disposed s leaf s'
                 /\ no_inline_comment_leaf s').
Proof.
  intros Hs. split; [now apply append_keeps_no_inline_comment_leaf|]. split.
  - destruct (protocol_violation s leaf) eqn:Hguard.
    + destruct (append_safe_raises s leaf preformatted Hguard) as [msg ->]. exact Hs.
    + rewrite (append_safe_passes _ _ _ Hguard).
      now apply append_keeps_no_inline_comment_leaf.
  - intros Hty Hvalue.
    destruct (append_disposes_inline_comment s leaf preformatted track_bracket
                                             Hty Hvalue) as (s' & Hrun & Hdisposed).
    exists s'. repeat split; try assumption.
    pose proof (append_keeps_no_inline_comment_leaf leaf preformatted track_bracket
                                                    s Hs) as Hkept.
    rewrite Hrun in Hkept. exact Hkept.
Qed.

End AppendProofs.

(** ** The blank-line tracker *)

Section TrackerProofs.
Context `{Collaborators}.
Import EmptyLineTracker.

(** *** What [_maybe_empty_lines] leaves alone *)

Section Frame.
Variable s0 : St.

Lemma frames_ret {A : Type} (a : A) : frames s0 (ret a).
Proof. apply keeps_ret. Qed.

Lemma frames_bind {A B : Type} (m : M St A) (f : A -> M St B) :
  frames s0 m -> (forall a, frames s0 (f a)) -> frames s0 (bind m f).
Proof. apply keeps_bind. Qed.

Lemma frames_get {A : Type} (f : St -> M St A) :
  (forall s, frames s0 (f s)) -> frames s0 (bind get f).
Proof. intros Hf. apply keeps_get. intros s _. apply Hf. Qed.

Lemma frames_lift {A : Type} (r : result A) : frames s0 (lift r).
Proof.
  destruct r; simpl; [apply frames_ret|].
  apply triple_raise. auto.
Qed.

Lemma frames_when (b : bool) (m : M St unit) : frames s0 m -> frames s0 (when b m).
Proof. apply keeps_when. Qed.

Lemma frames_set_previous_defs (f : t -> list Line.t) :
  frames s0 (on_self (fun x => set_previous_defs (f x) x)).
Proof. apply keeps_modify. intros s Hs. exact Hs. Qed.

Lemma frames_on_leaf (i : LeafID) (f : Leaf.t -> Leaf.t) : frames s0 (on_leaf i f).
Proof. apply keeps_modify. intros s Hs. exact Hs. Qed.

Lemma frames_set_before (i : BlockID) (f : LinesBlock.t -> Z) :
  frames s0 (on_block i (fun b => LinesBlock.set_before (f b) b)).
Proof.
  apply keeps_modify. intros s (Hm & Hl & Hb & Hn & Hafter).
  unfold framed. simpl. repeat split; try assumption.
  intros j. destruct (Z.eqb_spec i j) as [->|]; simpl; apply Hafter.
Qed.

Lemma frames_class_or_def (current_line : Line.t) (before : Z) :
  frames s0 (_maybe_empty_lines_for_class_or_def current_line before).
Proof.
  unfold _maybe_empty_lines_for_class_or_def.
  apply frames_get; intros s.
  apply frames_bind; [apply frames_lift|intros cur_decorator].
  apply frames_bind; [apply frames_when, frames_set_previous_defs|intros _].
  destruct (previous_line (self s)) as [prev|]; [|apply frames_ret].
  apply frames_bind; [apply frames_lift|intros prev_decorator].
  destruct prev_decorator.
  { apply frames_bind; [apply frames_lift|intros stub].
    destruct stub; apply frames_ret. }
  apply frames_bind; [apply frames_lift|intros deeper].
  destruct deeper; [apply frames_ret|].
  apply frames_bind; [apply frames_lift|intros [go_on hoist]].
  destruct (negb go_on); [apply frames_ret|].
  apply frames_bind; [apply frames_lift|intros newlines].
  destruct hoist as [c|]; [|apply frames_ret].
  destruct (LinesBlock.previous_block (blocks s c)); [|apply frames_ret].
  apply frames_bind; [|intros _; apply frames_ret].
  apply (frames_set_before c (fun b => Z.max (LinesBlock.before b) newlines - _)).
Qed.

Lemma frames_unwind (current_line : Line.t) (stack : list Line.t) :
  forall before, frames s0 (unwind current_line stack before).
Proof.
  induction stack as [|top stack IH]; intros before; simpl; [apply frames_ret|].
  destruct (_ >=? _); [|apply frames_ret].
  apply frames_get; intros s.
  apply frames_bind; [apply frames_lift|intros before'].
  apply frames_bind; [|intros _; apply IH].
  apply (frames_set_previous_defs (fun x => Py.del_last 1 (previous_defs x))).
Qed.

Lemma frames_maybe_empty_lines (current_line : Line.t) :
  frames s0 (_maybe_empty_lines current_line).
Proof.
  unfold _maybe_empty_lines.
  apply frames_get; intros s.
  apply frames_bind.
  { destruct (Line.leaves current_line); [apply frames_ret|].
    apply frames_bind; [apply frames_on_leaf|intros _; apply frames_ret]. }
  intros before.
  apply frames_bind; [apply frames_unwind|intros before'].
  apply frames_get; intros s1.
  apply frames_bind; [apply frames_lift|intros class_or_def].
  destruct class_or_def; [apply frames_class_or_def|].
  apply frames_bind; [apply frames_lift|intros after_import].
  destruct after_import; [apply frames_ret|].
  apply frames_bind; [apply frames_lift|intros docstring].
  destruct docstring; [apply frames_ret|].
  apply frames_bind; [apply frames_lift|intros in_block].
  destruct in_block; apply frames_ret.
Qed.

End Frame.

Lemma framed_refl (s : St) : framed s s.
Proof. unfold framed. auto. Qed.

Lemma maybe_empty_lines_frame (current_line : Line.t) (s s1 : St) (r : Z * Z) :
  _maybe_empty_lines current_line s = Ok r s1 -> framed s s1.
Proof.
  intros Hrun.
  pose proof (frames_maybe_empty_lines s current_line s (framed_refl s)) as Hf.
  rewrite Hrun in Hf. exact Hf.
Qed.

Lemma previous_after_framed (s s1 : St) : framed s s1 -> previous_after s1 = previous_after s.
Proof.
  intros (_ & _ & Hb & _ & Hafter). unfold previous_after. rewrite Hb.
  destruct (previous_block (self s)); auto.
Qed.

(** *** From the counts to the block *)

Lemma lift_when_on_self (r : result bool) (f : t -> t) (s : St) :
  (exists b, r = Return b) ->
  exists s', (flag <- lift r ;; when flag (on_self f)) s = Ok tt s'
             /\ blocks s' = blocks s.
Proof.
  intros [b ->]. destruct b; simpl; eexists; split; reflexivity.
Qed.

Lemma lift_when_on_self_blocks (r : result bool) (f : t -> t) (s s' : St) :
  (flag <- lift r ;; when flag (on_self f)) s = Ok tt s' -> blocks s' = blocks s.
Proof.
  destruct r as [[|]|e]; simpl; intros [= <-]; reflexivity.
Qed.

(** Once [_maybe_empty_lines] gave its counts, [maybe_empty_lines] returns,
    provided the lines it asks about can say whether they are decorators. *)
Lemma maybe_empty_lines_returns (current_line : Line.t) (s s1 : St) (before after : Z) :
  _maybe_empty_lines current_line s = Ok (before, after) s1 ->
  (exists d, Line.is_decorator (heap s1) current_line = Return d) ->
  (forall prev, previous_line (self s) = Some prev ->
                exists d, Line.is_decorator (heap s1) prev = Return d) ->
  exists s', maybe_empty_lines current_line s = Ok (next_block s1) s'
             /\ LinesBlock.before (blocks s' (next_block s1)) = block_before s before
             /\ LinesBlock.after (blocks s' (next_block s1)) = after.
Proof.
  intros Hrun [d Hd] Hprev.
  pose proof (maybe_empty_lines_frame _ _ _ _ Hrun) as Hframe.
  pose proof (previous_after_framed _ _ Hframe) as Hafter.
  destruct Hframe as (Hm & Hl & Hb & Hn & _).
  unfold maybe_empty_lines. unfold bind at 1. rewrite Hrun.
  unfold bind at 1. unfold get at 1.
  unfold bind at 1. unfold new_block at 1. unfold bind at 1, get at 1.
  unfold bind at 1. unfold modify at 1. unfold ret at 1.
  cbn [heap self blocks next_block].
  fold (previous_after s1). rewrite Hafter, Hl.
  fold (block_before s before).
  set (s2 := mkSt _ _ _ _).
  assert (blocks s2 (next_block s1)
          = LinesBlock.mk (mode (self s1)) (previous_block (self s1)) current_line
                          (block_before s before) [] after) as Hblock.
  { subst s2. simpl. rewrite Z.eqb_refl. reflexivity. }
  assert (forall (m : M St unit) (f : t -> t),
             (exists s3, m s2 = Ok tt s3 /\ blocks s3 = blocks s2) ->
             exists s', (m ;;; on_self f ;;; ret (next_block s1)) s2
                        = Ok (next_block s1) s'
                        /\ LinesBlock.before (blocks s' (next_block s1))
                           = block_before s before
                        /\ LinesBlock.after (blocks s' (next_block s1)) = after)
    as Hrest.
  { intros m f (s3 & Hm3 & Hb3). unfold bind. rewrite Hm3. simpl.
    eexists. split; [reflexivity|]. simpl. rewrite Hb3, Hblock. auto. }
  apply Hrest.
  destruct (Line.is_comment (heap s1) current_line); apply lift_when_on_self.
  - destruct (previous_line (self s)) as [prev|] eqn:Hpl; [|eexists; reflexivity].
    destruct (Hprev prev eq_refl) as [dp ->]. destruct dp; eexists; reflexivity.
  - rewrite Hd. destruct d; eexists; reflexivity.
Qed.

(** A block that [maybe_empty_lines] returned was made from the counts of
    [_maybe_empty_lines]. *)
Lemma maybe_empty_lines_returned (current_line : Line.t) (s s' : St) (b : BlockID) :
  maybe_empty_lines current_line s = Ok b s' ->
  exists before after s1,
    _maybe_empty_lines current_line s = Ok (before, after) s1
    /\ LinesBlock.before (blocks s' b) = block_before s before
    /\ LinesBlock.after (blocks s' b) = after.
Proof.
  unfold maybe_empty_lines. unfold bind at 1.
  destruct (_maybe_empty_lines current_line s) as [[before after] s1|e s1] eqn:Hrun;
    [|discriminate].
  pose proof (maybe_empty_lines_frame _ _ _ _ Hrun) as Hframe.
  pose proof (previous_after_framed _ _ Hframe) as Hafter.
  destruct Hframe as (Hm & Hl & Hb & Hn & _).
  unfold bind at 1. unfold get at 1.
  unfold bind at 1. unfold new_block at 1. unfold bind at 1, get at 1.
  unfold bind at 1. unfold modify at 1. unfold ret at 1.
  cbn [heap self blocks next_block].
  fold (previous_after s1). rewrite Hafter, Hl.
  fold (block_before s before).
  set (s2 := mkSt _ _ _ _).
  intros Htail. exists before, after, s1. split; [reflexivity|].
  unfold bind at 1 in Htail.
  match type of Htail with
  | match ?m s2 with _ => _ end = _ => destruct (m s2) as [[] s3|e s3] eqn:Hm3
  end; [|discriminate].
  simpl in Htail. injection Htail as <- <-. simpl.
  assert (blocks s3 = blocks s2) as ->.
  { destruct (Line.is_comment (heap s1) current_line);
      eapply lift_when_on_self_blocks; exact Hm3. }
  subst s2. simpl. rewrite Z.eqb_refl. auto.
Qed.

(** *** The first line *)

Section FirstLine.
Variable current_line : Line.t.
Hypothesis not_only_comments :
  Line.leaves current_line = [] -> Line.comments current_line = [].

Lemma runs_lift {A : Type} (r : result A) : (exists a, r = Return a) -> runs (lift r).
Proof. intros [a ->]. apply keeps_ret. Qed.

Lemma runs_set_previous_defs (f : t -> list Line.t) :
  runs (on_self (fun x => set_previous_defs (f x) x)).
Proof. apply keeps_modify. intros s Hs. exact Hs. Qed.

Lemma runs_on_leaf (i : LeafID) (f : Leaf.t -> Leaf.t) : runs (on_leaf i f).
Proof. apply keeps_modify. intros s Hs. exact Hs. Qed.

Lemma is_decorator_total (h : Heap) :
  exists d, Line.is_decorator h current_line = Return d.
Proof. apply first_leaf_is_total, not_only_comments. Qed.

Lemma is_class_total (h : Heap) : exists d, Line.is_class h current_line = Return d.
Proof. apply first_leaf_is_total, not_only_comments. Qed.

Lemma previous_line_and_first (s : St) (test : Line.t -> result bool) :
  first s -> previous_line_and (self s) test = Return false.
Proof. unfold first, previous_line_and. intros ->. reflexivity. Qed.

Lemma runs_class_or_def (before : Z) :
  runs (_maybe_empty_lines_for_class_or_def current_line before).
Proof.
  unfold _maybe_empty_lines_for_class_or_def.
  apply keeps_get; intros s Hs.
  apply keeps_bind; [apply runs_lift, is_decorator_total|intros d].
  apply keeps_bind; [apply keeps_when, runs_set_previous_defs|intros _].
  rewrite Hs. apply keeps_ret.
Qed.

Lemma runs_first_line (s : St) :
  fresh s -> exists r s1, _maybe_empty_lines current_line s = Ok r s1 /\ first s1.
Proof.
  intros [Hline Hdefs].
  unfold _maybe_empty_lines. unfold bind at 1. unfold get at 1.
  rewrite Hdefs. cbn [rev].
  match goal with
  | |- exists r s1, ?m s = _ /\ _ => assert (runs m) as Hrun
  end.
  { apply keeps_bind.
    { destruct (Line.leaves current_line); [apply keeps_ret|].
      apply keeps_bind; [apply runs_on_leaf|intros _; apply keeps_ret]. }
    intros before. simpl unwind. rewrite bind_ret.
    apply keeps_get; intros s1 Hs1.
    destruct (is_decorator_total (heap s1)) as [d Hd].
    destruct (is_class_total (heap s1)) as [c Hc].
    rewrite Hd, Hc.
    apply keeps_bind.
    { apply runs_lift. destruct d; [|destruct (Line.is_def _ _)]; eexists; reflexivity. }
    intros class_or_def. destruct class_or_def; [apply runs_class_or_def|].
    rewrite !(previous_line_and_first s1 _ Hs1). simpl.
    apply keeps_ret. }
  specialize (Hrun s Hline).
  match goal with
  | |- exists r s1, ?m s = _ /\ _ => destruct (m s) as [r s1|e s1]
  end; [|destruct Hrun].
  exists r, s1. auto.
Qed.

End FirstLine.

(** C10: the block returned for the first line has [before = 0], whatever
    newlines its first prefix holds (a new tracker does return one, and so
    does any tracker without a previous line that returns at all); for a later
    line the block's [before] is the count [_maybe_empty_lines] computed less
    the [after] of the previous block, and its [after] is the computed one. *)
Theorem maybe_empty_lines_before (s : St) (current_line : Line.t) :
  (previous_line (self s) = None -> previous_defs (self s) = [] ->
   (Line.leaves current_line = [] -> Line.comments current_line = []) ->
   exists b s', maybe_empty_lines current_line s = Ok b s'
                /\ LinesBlock.before (blocks s' b) = 0)
  /\ (forall b s',
         previous_line (self s) = None ->
         maybe_empty_lines current_line s = Ok b s' ->
         LinesBlock.before (blocks s' b) = 0)
  /\ (forall prev before after s1,
         previous_line (self s) = Some prev ->
         Line.leaves prev <> [] -> Line.leaves current_line <> [] ->
         _maybe_empty_lines current_line s = Ok (before, after) s1 ->
         exists b s', maybe_empty_lines current_line s = Ok b s'
                      /\ LinesBlock.before (blocks s' b) = before - previous_after s
                      /\ LinesBlock.after (blocks s' b) = after)
  /\ (forall prev b s',
         previous_line (self s) = Some prev ->
         maybe_empty_lines current_line s = Ok b s' ->
         exists before after s1,
           _maybe_empty_lines current_line s = Ok (before, after) s1
           /\ LinesBlock.before (blocks s' b) = before - previous_after s
           /\ LinesBlock.after (blocks s' b) = after).
Proof.
  split; [|split; [|split]].
  - intros Hline Hdefs Hcur.
    destruct (runs_first_line current_line Hcur s (conj Hline Hdefs))
      as ([before after] & s1 & Hrun & _).
    destruct (maybe_empty_lines_returns current_line s s1 _ _ Hrun)
      as (s' & Hret & Hbefore & _).
    + apply first_leaf_is_total, Hcur.
    + intros prev Hprev. congruence.
    + exists (next_block s1), s'. split; [assumption|].
      rewrite Hbefore. unfold block_before. now rewrite Hline.
  - intros b s' Hline Hret.
    apply maybe_empty_lines_returned in Hret as (before & after & s1 & _ & -> & _).
    unfold block_before. now rewrite Hline.
  - intros prev before after s1 Hline Hprev Hcur Hrun.
    destruct (maybe_empty_lines_returns current_line s s1 _ _ Hrun)
      as (s' & Hret & Hbefore & Hafter).
    + destruct (Line.leaves current_line) as [|x rest] eqn:Hl; [congruence|].
      unfold Line.is_decorator. rewrite (first_leaf_is_with_leaves _ _ _ _ Hl). eauto.
    + intros prev' Hprev'. rewrite Hline in Hprev'. injection Hprev' as <-.
      destruct (Line.leaves prev) as [|x rest] eqn:Hl; [congruence|].
      unfold Line.is_decorator. rewrite (first_leaf_is_with_leaves _ _ _ _ Hl). eauto.
    + exists (next_block s1), s'. split; [assumption|]. split; [|assumption].
      rewrite Hbefore. unfold block_before. now rewrite Hline.
  - intros prev b s' Hline Hret.
    apply maybe_empty_lines_returned in Hret as (before & after & s1 & Hrun & Hb & Ha).
    exists before, after, s1. split; [assumption|]. split; [|assumption].
    rewrite Hb. unfold block_before. now rewrite Hline.
Qed.

(** *** A definition right after a definition *)

(** The first leaf of a [def] line: [def], or [async]. *)
Lemma is_def_first_leaf (h : Heap) (l : Line.t) :
  Line.is_def h l = true ->
  exists x rest,
    Line.leaves l = x :: rest
    /\ ((Leaf.type (h x) = NAME /\ Leaf.value (h x) = "def")
        \/ Leaf.type (h x) = ASYNC).
Proof.
  unfold Line.is_def. destruct (Line.leaves l) as [|x rest]; [discriminate|].
  intros Hdef. exists x, rest. split; [reflexivity|].
  apply orb_prop in Hdef as [Hdef|Hdef]; apply andb_prop in Hdef as [Hty Hrest].
  - left. split; [now apply type_eqb_eq|now apply String.eqb_eq].
  - right. now apply type_eqb_eq.
Qed.

Lemma def_is_not_decorator (h : Heap) (l : Line.t) :
  Line.is_def h l = true -> Line.is_decorator h l = Return false.
Proof.
  intros Hdef. apply is_def_first_leaf in Hdef as (x & rest & Hl & Hx).
  unfold Line.is_decorator. rewrite (first_leaf_is_with_leaves _ _ _ _ Hl).
  f_equal. apply type_eqb_neq. destruct Hx as [[-> _]| ->]; discriminate.
Qed.

Lemma def_is_not_class (h : Heap) (l : Line.t) :
  Line.is_def h l = true -> Line.is_class h l = Return false.
Proof.
  intros Hdef. apply is_def_first_leaf in Hdef as (x & rest & Hl & Hx).
  unfold Line.is_class. rewrite (first_leaf_is_with_leaves _ _ _ _ Hl).
  f_equal. destruct Hx as [[-> ->]| ->]; reflexivity.
Qed.

Lemma def_is_not_comment (h : Heap) (l : Line.t) :
  Line.is_def h l = true -> Line.is_comment h l = false.
Proof.
  intros Hdef. apply is_def_first_leaf in Hdef as (x & rest & Hl & Hx).
  unfold Line.is_comment. rewrite Hl. destruct rest; [|reflexivity].
  apply type_eqb_neq. destruct Hx as [[-> _]| ->]; discriminate.
Qed.

(** Clearing a prefix does not change what kind of line a line is. *)
Lemma is_def_clear_prefix (h : Heap) (i : LeafID) (p : string) (l : Line.t) :
  Line.is_def (upd h i (Leaf.set_prefix p (h i))) l = Line.is_def h l.
Proof.
  assert (forall x, Leaf.type (upd h i (Leaf.set_prefix p (h i)) x) = Leaf.type (h x)
                    /\ Leaf.value (upd h i (Leaf.set_prefix p (h i)) x) = Leaf.value (h x))
    as Hsame.
  { intros x. unfold upd. destruct (Z.eqb_spec i x) as [->|]; auto. }
  unfold Line.is_def. destruct (Line.leaves l) as [|x [|y rest]]; [reflexivity| |].
  - destruct (Hsame x) as [-> ->]. reflexivity.
  - destruct (Hsame x) as [-> ->]. destruct (Hsame y) as [-> ->]. reflexivity.
Qed.

Section DefAfterDef.
Variables (h : Heap) (bl : BlockID -> LinesBlock.t) (nb : BlockID).
Variables (m : Mode.t) (prev : Line.t) (pb slc : option BlockID).
Variable current_line : Line.t.
Hypothesis cur_def : Line.is_def h current_line = true.
Hypothesis prev_def : Line.is_def h prev = true.
Hypothesis same_depth : len_depth prev = len_depth current_line.

Lemma unwind_step_returns (ds : list Line.t) (top : Line.t) (before : Z) :
  (Mode.is_pyi m = true -> Line.leaves top <> []) ->
  exists before', unwind_step h (self (at_stack h bl nb m prev pb slc ds))
                              current_line top before
                  = Return before'.
Proof.
  intros Htop. unfold unwind_step. simpl.
  destruct (Mode.is_pyi m).
  - rewrite cur_def. rewrite andb_false_r. simpl.
    destruct (Line.leaves top) as [|x rest] eqn:Hl; [now destruct Htop|].
    unfold Line.is_stub_class, Line.is_class.
    rewrite (first_leaf_is_with_leaves _ _ _ _ Hl).
    destruct (mode_contains _ _); simpl; [|destruct (nonempty _); eauto].
    match goal with
    | |- context [if ?c then _ else _] => destruct c
    end; simpl; [|destruct (nonempty _); eauto].
    match goal with
    | |- context [if ?c then _ else _] => destruct c
    end; [eauto|destruct (nonempty _); eauto].
  - destruct (nonempty (Line.depth current_line)); [eauto|].
    destruct (is_def_first_leaf _ _ cur_def) as (x & rest & Hl & _).
    rewrite Hl. destruct (neg_index_last_exists x rest) as [y ->].
    simpl. destruct (nonempty (Line.depth top)); simpl; [|eauto].
    match goal with
    | |- context [if ?c then _ else _] => destruct c
    end; eauto.
Qed.

Lemma unwind_returns (stack : list Line.t) :
  (Mode.is_pyi m = true -> Forall (fun d => Line.leaves d <> []) stack) ->
  forall ds before,
  exists before' ds',
    unwind current_line stack before (at_stack h bl nb m prev pb slc ds)
    = Ok before' (at_stack h bl nb m prev pb slc ds').
Proof.
  induction stack as [|top stack IH]; intros Hstack ds before; simpl.
  - eauto.
  - destruct (_ >=? _); [|eauto].
    unfold bind at 1. unfold get at 1.
    destruct (unwind_step_returns ds top before) as [before' Hstep].
    { intros Hpyi. specialize (Hstack Hpyi). now inversion Hstack. }
    unfold at_stack in *. cbn [heap self] in *.
    rewrite Hstep. cbn [lift]. rewrite bind_ret.
    unfold bind at 1. cbn [on_self modify set_previous_defs heap blocks next_block
                           self mode previous_line previous_block previous_defs
                           semantic_leading_comment].
    apply IH. intros Hpyi. specialize (Hstack Hpyi). now inversion Hstack.
Qed.

Lemma class_or_def_after_def (ds : list Line.t) (before : Z) :
  _maybe_empty_lines_for_class_or_def current_line before
                                      (at_stack h bl nb m prev pb slc ds)
  = Ok (def_newlines m current_line, 0)
       (at_stack h bl nb m prev pb slc (ds ++ [current_line])).
Proof.
  unfold _maybe_empty_lines_for_class_or_def, bind, get. simpl.
  rewrite (def_is_not_decorator _ _ cur_def). simpl.
  rewrite (def_is_not_decorator _ _ prev_def). simpl.
  rewrite same_depth, Z.ltb_irrefl. simpl.
  rewrite (def_is_not_comment _ _ prev_def). simpl.
  unfold def_newlines. destruct (Mode.is_pyi m); simpl.
  - rewrite (def_is_not_class _ _ cur_def), (def_is_not_class _ _ prev_def). simpl.
    rewrite cur_def, prev_def. simpl.
    rewrite Z.gtb_ltb, Z.ltb_irrefl. reflexivity.
  - reflexivity.
Qed.

End DefAfterDef.

Lemma def_after_def (s : St) (current_line prev : Line.t) :
  previous_line (self s) = Some prev ->
  Line.is_def (heap s) current_line = true ->
  Line.is_def (heap s) prev = true ->
  len_depth prev = len_depth current_line ->
  (Mode.is_pyi (mode (self s)) = true ->
   Forall (fun d => Line.leaves d <> []) (previous_defs (self s))) ->
  exists s1,
    _maybe_empty_lines current_line s
    = Ok (def_newlines (mode (self s)) current_line, 0) s1
    /\ Line.is_def (heap s1) current_line = true
    /\ Line.is_def (heap s1) prev = true.
Proof.
  destruct s as [h bl nb [m pl pbk ds slc]]. simpl.
  intros -> Hcur Hprev Hdepth Hstack.
  destruct (is_def_first_leaf _ _ Hcur) as (x & rest & Hl & _).
  set (h1 := upd h x (Leaf.set_prefix "" (h x))).
  assert (Line.is_def h1 current_line = true) as Hcur1
      by (subst h1; now rewrite is_def_clear_prefix).
  assert (Line.is_def h1 prev = true) as Hprev1
      by (subst h1; now rewrite is_def_clear_prefix).
  unfold _maybe_empty_lines. unfold bind at 1. unfold get at 1.
  rewrite Hl. cbn [heap self mode previous_defs].
  unfold bind at 1. unfold bind at 1.
  cbn [on_leaf modify ret heap blocks next_block self].
  fold h1.
  match goal with
  | |- context [unwind current_line (rev ds) ?b] =>
      destruct (unwind_returns h1 bl nb m prev pbk slc current_line Hcur1 (rev ds)
                               (fun Hpyi => Forall_rev (Hstack Hpyi)) ds b)
        as (before' & ds' & Hunwind)
  end.
  pose proof (class_or_def_after_def h1 bl nb m prev pbk slc current_line
                                     Hcur1 Hprev1 Hdepth ds' before') as Hclass.
  unfold at_stack in Hunwind, Hclass.
  unfold bind at 1. rewrite Hunwind.
  unfold bind at 1. unfold get at 1. cbn [heap].
  rewrite (def_is_not_decorator _ _ Hcur1), Hcur1. cbn [either rbind lift].
  rewrite bind_ret, Hclass.
  eexists. split; [reflexivity|]. simpl. auto.
Qed.

(** C7: a [def] line whose previous line is a [def] line, the previous block
    having no blank line after it.  In normal mode, both at module depth, the
    returned block has [before = 2] and [after = 0].  In stub mode, both at
    one depth (and every line on the stack of definitions having leaves), the
    returned block has [before = 0]. *)
Theorem blank_lines_between_defs (s : St) (current_line prev : Line.t) :
  previous_line (self s) = Some prev ->
  Line.is_def (heap s) prev = true ->
  Line.is_def (heap s) current_line = true ->
  previous_after s = 0 ->
  (Mode.is_pyi (mode (self s)) = false ->
   Line.depth prev = [] -> Line.depth current_line = [] ->
   exists b s', maybe_empty_lines current_line s = Ok b s'
                /\ LinesBlock.before (blocks s' b) = 2
                /\ LinesBlock.after (blocks s' b) = 0)
  /\ (Mode.is_pyi (mode (self s)) = true ->
      List.length (Line.depth prev) = List.length (Line.depth current_line) ->
      Forall (fun d => Line.leaves d <> []) (previous_defs (self s)) ->
      exists b s', maybe_empty_lines current_line s = Ok b s'
                   /\ LinesBlock.before (blocks s' b) = 0).
Proof.
  intros Hline Hprev Hcur Hafter.
  assert (forall n,
             len_depth prev = len_depth current_line ->
             (Mode.is_pyi (mode (self s)) = true ->
              Forall (fun d => Line.leaves d <> []) (previous_defs (self s))) ->
             def_newlines (mode (self s)) current_line = n ->
             exists b s', maybe_empty_lines current_line s = Ok b s'
                          /\ LinesBlock.before (blocks s' b) = n
                          /\ LinesBlock.after (blocks s' b) = 0) as Hblock.
  { intros n Hdepth Hstack Hn.
    destruct (def_after_def s current_line prev Hline Hcur Hprev Hdepth Hstack)
      as (s1 & Hrun & Hcur1 & Hprev1).
    destruct (maybe_empty_lines_returns current_line s s1 _ _ Hrun)
      as (s' & Hret & Hbefore & Hafter').
    - rewrite (def_is_not_decorator _ _ Hcur1). eauto.
    - intros prev' Hprev'. rewrite Hline in Hprev'. injection Hprev' as <-.
      rewrite (def_is_not_decorator _ _ Hprev1). eauto.
    - exists (next_block s1), s'. split; [assumption|]. split; [|assumption].
      rewrite Hbefore. unfold block_before. rewrite Hline, Hafter, Hn. lia. }
  split.
  - intros Hpyi Hdp Hdc. apply Hblock.
    + unfold len_depth. now rewrite Hdp, Hdc.
    + rewrite Hpyi. discriminate.
    + unfold def_newlines. rewrite Hpyi, Hdc. reflexivity.
  - intros Hpyi Hdepth Hstack.
    destruct (Hblock 0) as (b & s' & Hret & Hbefore & _).
    + unfold len_depth. now rewrite Hdepth.
    + auto.
    + unfold def_newlines. now rewrite Hpyi.
    + eauto.
Qed.

End TrackerProofs.

(** ** Enumerations *)

Lemma countdown_app {T : Type} (a b : list T) (index : Z) :
  countdown index (a ++ b)
  = countdown index a ++ countdown (index - Z.of_nat (List.length a)) b.
Proof.
  revert index. induction a as [|x a IH]; intros index.
  - simpl. now rewrite Z.sub_0_r.
  - cbn [app countdown List.length]. rewrite IH. do 3 f_equal. lia.
Qed.

Lemma countdown_rev {T : Type} (l : list T) (index : Z) :
  countdown (index + Z.of_nat (List.length l) - 1) (rev l) = rev (enumerate_at index l).
Proof.
  revert index. induction l as [|x l IH]; intros index; [reflexivity|].
  cbn [rev enumerate_at List.length]. rewrite countdown_app, length_rev.
  replace (index + Z.of_nat (S (List.length l)) - 1)
    with (index + 1 + Z.of_nat (List.length l) - 1) by lia.
  rewrite IH. simpl. do 3 f_equal. lia.
Qed.

Lemma enumerate_at_nth {T : Type} (l : list T) (index i : Z) (x : T) :
  In (i, x) (enumerate_at index l) ->
  index <= i < index + Z.of_nat (List.length l)
  /\ nth_error l (Z.to_nat (i - index)) = Some x.
Proof.
  revert index. induction l as [|y l IH]; intros index; simpl; [intros []|].
  intros [[= <- <-]|Hin].
  - rewrite Z.sub_diag. simpl. split; [lia|reflexivity].
  - apply IH in Hin as [Hrange Hnth]. split; [lia|].
    replace (Z.to_nat (i - index)) with (S (Z.to_nat (i - (index + 1)))) by lia.
    exact Hnth.
Qed.

Lemma enumerate_reversed_rev {T : Type} (sequence : list T) :
  enumerate_reversed sequence = rev (enumerate sequence).
Proof. unfold enumerate_reversed, enumerate. rewrite <- countdown_rev. f_equal. Qed.

Lemma map_snd_enumerate_at {T : Type} (l : list T) (index : Z) :
  map snd (enumerate_at index l) = l.
Proof. revert index. induction l as [|x l IH]; intros index; simpl; [|rewrite IH]; reflexivity. Qed.

(** X2: [enumerate_reversed] is [enumerate] read backwards: it yields the same
    pairs, last element first, and every pair it yields holds an index of the
    sequence with the element at that index. *)
Theorem enumerate_reversed_is_reversed_enumerate {T : Type} (sequence : list T) :
  enumerate_reversed sequence = rev (enumerate sequence)
  /\ (forall i x, In (i, x) (enumerate_reversed sequence) ->
                  0 <= i < Z.of_nat (List.length sequence)
                  /\ nth_error sequence (Z.to_nat i) = Some x)
  /\ map snd (enumerate_reversed sequence) = rev sequence.
Proof.
  split; [apply enumerate_reversed_rev|]. split.
  - intros i x Hin. rewrite enumerate_reversed_rev in Hin. apply in_rev in Hin.
    apply enumerate_at_nth in Hin. rewrite Z.sub_0_r in Hin. exact Hin.
  - rewrite enumerate_reversed_rev, map_rev. f_equal. apply map_snd_enumerate_at.
Qed.

(** ** [can_be_split] *)

(** The loop gives up at a string leaf, so a walk that ends at one fails. *)
Lemma can_be_split_loop_string (h : Heap) (next string_leaf : LeafID) (ls : list LeafID) :
  Leaf.type (h string_leaf) = STRING ->
  forall call_count dot_count,
    can_be_split_loop h next call_count dot_count (ls ++ [string_leaf]) = false.
Proof.
  intros Hstring. induction ls as [|leaf ls IH]; intros call_count dot_count.
  - simpl. rewrite Hstring. reflexivity.
  - cbn [app can_be_split_loop].
    repeat match goal with
           | |- (if ?c then _ else _) = false => destruct c; try reflexivity
           end; apply IH.
Qed.

Lemma del_last_cons {A : Type} (x y : A) (l : list A) :
  Py.del_last 1 (x :: y :: l) = x :: Py.del_last 1 (y :: l).
Proof.
  unfold Py.del_last. cbn [List.length].
  replace (S (S (List.length l)) - 1)%nat with (S (S (List.length l) - 1)) by lia.
  reflexivity.
Qed.

(** X1: [can_be_split] answers [True] exactly for a line of two leaves or more
    that does not start with a string followed by a dot: the walk over a line
    that does start so always reaches the string and gives up there. *)
Theorem can_be_split_cases (h : Heap) (line : Line.t) :
  can_be_split h line = true
  <-> exists first second rest,
        Line.leaves line = first :: second :: rest
        /\ ~ (Leaf.type (h first) = STRING /\ Leaf.type (h second) = DOT).
Proof.
  unfold can_be_split. destruct (Line.leaves line) as [|first [|second rest]].
  - split; [discriminate|]. intros (a & b & r & Hl & _). discriminate.
  - split; [discriminate|]. intros (a & b & r & Hl & _). discriminate.
  - destruct (type_eqb (Leaf.type (h first)) STRING) eqn:Hfirst;
      [destruct (type_eqb (Leaf.type (h second)) DOT) eqn:Hsecond|]; cbn [andb].
    + apply type_eqb_eq in Hfirst, Hsecond.
      rewrite del_last_cons. cbn [rev].
      rewrite (can_be_split_loop_string _ _ _ _ Hfirst).
      split; [discriminate|].
      intros (a & b & r & [= <- <- <-] & Hnot). tauto.
    + split; [|reflexivity]. intros _. exists first, second, rest.
      split; [reflexivity|]. intros [_ Hdot].
      apply type_eqb_eq in Hdot. congruence.
    + split; [|reflexivity]. intros _. exists first, second, rest.
      split; [reflexivity|]. intros [Hstring _].
      apply type_eqb_eq in Hstring. congruence.
Qed.

(** ** More on lines *)

(** ** Dictionaries *)

Lemma get_setdefault_extend_same (d : Dict.t) (k : LeafID) (vs : list LeafID) :
  Dict.get (Dict.setdefault_extend d k vs) k = Dict.get d k ++ vs.
Proof.
  induction d as [|[k' v] d IH]; simpl.
  - now rewrite Z.eqb_refl.
  - destruct (Z.eqb_spec k k') as [->|Hne]; simpl.
    + now rewrite Z.eqb_refl.
    + destruct (Z.eqb_spec k k'); [contradiction|assumption].
Qed.

Lemma get_setdefault_extend_other (d : Dict.t) (k k' : LeafID) (vs : list LeafID) :
  k' <> k -> Dict.get (Dict.setdefault_extend d k vs) k' = Dict.get d k'.
Proof.
  intros Hne. induction d as [|[j v] d IH]; simpl.
  - destruct (Z.eqb_spec k' k); [contradiction|reflexivity].
  - destruct (Z.eqb_spec k j) as [->|Hkj]; simpl.
    + destruct (Z.eqb_spec k' j); [contradiction|reflexivity].
    + destruct (Z.eqb_spec k' j); [reflexivity|assumption].
Qed.

Lemma get_remove_other (d : Dict.t) (k k' : LeafID) :
  k' <> k -> Dict.get (Dict.remove d k) k' = Dict.get d k'.
Proof.
  intros Hne. induction d as [|[j v] d IH]; simpl; [reflexivity|].
  destruct (Z.eqb_spec k j) as [->|Hkj]; simpl.
  - destruct (Z.eqb_spec k' j); [contradiction|reflexivity].
  - destruct (Z.eqb_spec k' j); [reflexivity|assumption].
Qed.

Lemma chain_values_setdefault_extend (d : Dict.t) (k : LeafID) (vs : list LeafID) :
  Permutation (Dict.chain_values (Dict.setdefault_extend d k vs))
              (Dict.chain_values d ++ vs).
Proof.
  unfold Dict.chain_values. induction d as [|[j v] d IH]; simpl.
  - rewrite app_nil_r. apply Permutation_refl.
  - destruct (Z.eqb k j); simpl.
    + rewrite <- !app_assoc. apply Permutation_app_head, Permutation_app_comm.
    + rewrite <- app_assoc. apply Permutation_app_head, IH.
Qed.

Lemma chain_values_remove (d : Dict.t) (k : LeafID) :
  Permutation (Dict.chain_values d) (Dict.get d k ++ Dict.chain_values (Dict.remove d k)).
Proof.
  unfold Dict.chain_values. induction d as [|[j v] d IH]; simpl.
  - apply Permutation_refl.
  - destruct (Z.eqb k j); simpl; [apply Permutation_refl|].
    eapply Permutation_trans; [apply Permutation_app_head, IH|].
    apply Permutation_app_swap_app.
Qed.

Lemma neg_index_del_last {A : Type} (l : list A) :
  Py.neg_index (Py.del_last 1 l) 1 = Py.neg_index l 2.
Proof.
  unfold Py.neg_index, Py.del_last.
  destruct l as [|x l] using rev_ind; [reflexivity|].
  rewrite length_app. cbn [List.length].
  replace (List.length l + 1 - 1)%nat with (List.length l) by lia.
  rewrite firstn_app, Nat.sub_diag, firstn_all. cbn [firstn]. rewrite app_nil_r.
  destruct l as [|y l']; [reflexivity|].
  cbn [List.length].
  replace (S (List.length l') <? 1)%nat with false by (symmetry; apply Nat.ltb_ge; lia).
  replace (S (List.length l') + 1 <? 2)%nat with false by (symmetry; apply Nat.ltb_ge; lia).
  replace (S (List.length l') + 1 - 2)%nat with (S (List.length l') - 1)%nat by lia.
  rewrite nth_error_app1; [reflexivity|]. simpl. lia.
Qed.

Lemma string_append_assoc (a b c : string) : ((a ++ b) ++ c = a ++ (b ++ c))%string.
Proof. induction a as [|x a IH]; simpl; [reflexivity|now rewrite IH]. Qed.

Lemma string_append_nil_r (a : string) : (a ++ "" = a)%string.
Proof. induction a as [|x a IH]; simpl; [reflexivity|now rewrite IH]. Qed.

Lemma concat_cons (x : string) (l : list string) :
  Py.concat (x :: l) = (x ++ Py.concat l)%string.
Proof.
  unfold Py.concat. destruct l as [|y l]; simpl; [now rewrite string_append_nil_r|reflexivity].
Qed.

Lemma fold_left_append {A : Type} (f : A -> string) (l : list A) (acc : string) :
  fold_left (fun r x => (r ++ f x)%string) l acc = (acc ++ Py.concat (map f l))%string.
Proof.
  revert acc. induction l as [|x l IH]; intros acc.
  - simpl. now rewrite string_append_nil_r.
  - cbn [fold_left map]. now rewrite IH, string_append_assoc, concat_cons.
Qed.

Lemma times_newline (n : Z) : Py.times Py.nl n = newlines n.
Proof.
  unfold Py.times, newlines.
  induction (Z.to_nat n) as [|k IH]; [reflexivity|].
  cbn [repeat]. rewrite concat_cons, IH. reflexivity.
Qed.

Lemma newlines_len (n : Z) :
  Py.len (newlines n) = Z.max 0 n /\ Py.count_newlines (newlines n) = Z.max 0 n.
Proof.
  unfold newlines, Py.count_newlines, Py.chars. rewrite len_of_chars.
  assert (forall l, list_ascii_of_string (Py.of_chars l) = l) as Hround.
  { intros l. apply list_ascii_of_string_of_list_ascii. }
  rewrite Hround.
  assert (filter (Ascii.eqb Py.newline) (repeat Py.newline (Z.to_nat n))
          = repeat Py.newline (Z.to_nat n)) as ->.
  { induction (Z.to_nat n) as [|k IH]; [reflexivity|]. simpl. now rewrite IH. }
  rewrite repeat_length. lia.
Qed.

(** A text that holds a newline splits into two physical lines or more. *)
Lemma split_lines_aux_cons (l cur : list ascii) :
  exists first rest, Py.split_lines_aux cur l = first :: rest.
Proof.
  revert cur. induction l as [|c l IH]; intros cur; simpl; [eauto|].
  destruct (Ascii.eqb c Py.newline); [eauto|apply IH].
Qed.

Lemma split_lines_aux_newline (l cur : list ascii) :
  existsb (Ascii.eqb Py.newline) l = true ->
  exists first second rest, Py.split_lines_aux cur l = first :: second :: rest.
Proof.
  revert cur. induction l as [|c l IH]; intros cur; [discriminate|].
  cbn [existsb Py.split_lines_aux]. rewrite (Ascii.eqb_sym c Py.newline).
  destruct (Ascii.eqb Py.newline c).
  - intros _. destruct (split_lines_aux_cons l []) as (second & rest & ->). eauto.
  - simpl. apply IH.
Qed.

Lemma split_lines_newline (s : string) :
  Py.has_newline s = true ->
  exists first second rest, Py.split_lines s = first :: second :: rest.
Proof. apply split_lines_aux_newline. Qed.

Lemma length_set_nth {A : Type} (l : list A) (i : nat) (v : A) :
  List.length (set_nth l i v) = List.length l.
Proof.
  revert i. induction l as [|x l IH]; intros i; [reflexivity|].
  destruct i; simpl; [reflexivity|now rewrite IH].
Qed.

Lemma length_setitem {A : Type} (l : list A) (i : Z) (v : A) :
  List.length (setitem l i v) = List.length l.
Proof. unfold setitem. destruct (0 <=? i); apply length_set_nth. Qed.

Lemma getitem_in_range {A : Type} (l : list A) (i : Z) :
  0 <= i < Z.of_nat (List.length l) -> exists x, getitem l i = Some x.
Proof.
  intros Hi. unfold getitem.
  replace (0 <=? i) with true by (symmetry; apply Z.leb_le; lia).
  replace (i <? Z.of_nat (List.length l)) with true by (symmetry; apply Z.ltb_lt; lia).
  simpl. destruct (nth_error l (Z.to_nat i)) eqn:Hn; [eauto|].
  apply nth_error_None in Hn. lia.
Qed.

Lemma length_del_last {A : Type} (l : list A) (k : nat) :
  List.length (Py.del_last k l) = (List.length l - k)%nat.
Proof. unfold Py.del_last. rewrite length_firstn. lia. Qed.

Lemma del_last_0 {A : Type} (l : list A) : Py.del_last 0 l = l.
Proof. unfold Py.del_last. rewrite Nat.sub_0_r. apply firstn_all. Qed.

Lemma neg_index_some_length {A : Type} (l : list A) (k : nat) (x : A) :
  Py.neg_index l k = Some x -> (k <= List.length l)%nat.
Proof.
  unfold Py.neg_index. destruct (Nat.ltb_spec (List.length l) k); [discriminate|lia].
Qed.

Lemma neg_index_none_length {A : Type} (l : list A) (k : nat) :
  (0 < k)%nat -> Py.neg_index l k = None -> (List.length l < k)%nat.
Proof.
  unfold Py.neg_index. intros Hk.
  destruct (Nat.ltb_spec (List.length l) k); [lia|].
  intros Hnone. apply nth_error_None in Hnone. lia.
Qed.

Lemma triple_read {S B : Type} (P : S -> Prop) (f : S -> M S B)
      (Q : B -> S -> Prop) (X : exn -> S -> Prop) :
  (forall s, P s -> triple P (f s) Q X) -> triple P (bind get f) Q X.
Proof. intros Hf s Hs. unfold bind, get. exact (Hf s Hs s Hs). Qed.

Lemma triple_post {S A : Type} (P : S -> Prop) (m : M S A)
      (Q Q' : A -> S -> Prop) (X : exn -> S -> Prop) :
  triple P m Q X -> (forall a s, Q a s -> Q' a s) -> triple P m Q' X.
Proof.
  intros Hm HQ s Hs. specialize (Hm s Hs).
  destruct (m s); [apply HQ|]; assumption.
Qed.

Lemma triple_or {S A : Type} (P1 P2 : S -> Prop) (m : M S A)
      (Q : A -> S -> Prop) (X : exn -> S -> Prop) :
  triple P1 m Q X -> triple P2 m Q X -> triple (fun s => P1 s \/ P2 s) m Q X.
Proof. intros H1 H2 s [Hs|Hs]; [apply H1|apply H2]; assumption. Qed.

Lemma triple_assume {S A : Type} (C : Prop) (P : S -> Prop) (m : M S A)
      (Q : A -> S -> Prop) (X : exn -> S -> Prop) :
  (C -> triple P m Q X) -> triple (fun s => C /\ P s) m Q X.
Proof. intros Hm s [Hc Hs]. now apply Hm. Qed.

Lemma triple_assume_r {S A : Type} (C : Prop) (P : S -> Prop) (m : M S A)
      (Q : A -> S -> Prop) (X : exn -> S -> Prop) :
  (C -> triple P m Q X) -> triple (fun s => P s /\ C) m Q X.
Proof. intros Hm s [Hs Hc]. now apply Hm. Qed.

Lemma triple_lift {S A : Type} (P : S -> Prop) (r : result A) (X : exn -> S -> Prop) :
  (forall e s, P s -> X e s) ->
  triple P (lift r) (fun a s => P s /\ r = Return a) X.
Proof. intros HX s Hs. destruct r; simpl; auto. Qed.

Lemma triple_lift_keep {S A : Type} (P : S -> Prop) (r : result A) :
  triple P (lift r) (fun _ => P) (fun _ => P).
Proof. intros s Hs. destruct r; simpl; auto. Qed.

Section MoreLineProofs.
Context `{Collaborators}.

Lemma with_lengths_leaves (h : Heap) (l : Line.t) (pairs : list (Z * LeafID)) :
  map (fun t => snd (fst t)) (Line.with_lengths h l pairs)
  = take_while (on_one_line h) (map snd pairs).
Proof.
  induction pairs as [|[index leaf] pairs IH]; [reflexivity|].
  cbn [Line.with_lengths map take_while snd]. unfold on_one_line at 1.
  destruct (Py.has_newline _); [reflexivity|]. simpl. now rewrite IH.
Qed.

Lemma with_lengths_In (h : Heap) (l : Line.t) (pairs : list (Z * LeafID))
      (i : Z) (leaf : LeafID) (n : Z) :
  In (i, leaf, n) (Line.with_lengths h l pairs) ->
  In (i, leaf) pairs /\ n = Line.length_with_comments h l leaf.
Proof.
  induction pairs as [|[index x] pairs IH]; [intros []|].
  cbn [Line.with_lengths]. destruct (Py.has_newline _); [intros []|].
  intros [[= <- <- <-]|Hin]; [split; [now left|reflexivity]|].
  apply IH in Hin as [Hin Hn]. split; [now right|assumption].
Qed.

Lemma with_lengths_enumerate_from (h : Heap) (l : Line.t) (ls : list LeafID) (index : Z) :
  Line.with_lengths h l (enumerate_at index ls) = Line.enumerate_from h l index ls.
Proof.
  revert index. induction ls as [|leaf ls IH]; intros index; [reflexivity|].
  cbn [enumerate_at Line.with_lengths Line.enumerate_from].
  destruct (Py.has_newline _); [reflexivity|]. now rewrite IH.
Qed.

(** X3: [enumerate_with_length] walks the leaves in the order asked for and stops
    at the first one whose text holds a newline.  Each triple it yields holds
    a leaf, the index of that leaf in [line.leaves] (in either direction) and
    the length of its prefix and text and of the text of the comments after
    it.  Forwards it is the enumeration the paren rules use. *)
Theorem enumerate_with_length_stops_at_multiline
        (h : Heap) (l : Line.t) (reversed : bool) :
  map (fun t => snd (fst t)) (Line.enumerate_with_length_by h l reversed)
  = take_while (on_one_line h)
               (if reversed then rev (Line.leaves l) else Line.leaves l)
  /\ (forall i leaf n,
         In (i, leaf, n) (Line.enumerate_with_length_by h l reversed) ->
         0 <= i < Z.of_nat (List.length (Line.leaves l))
         /\ nth_error (Line.leaves l) (Z.to_nat i) = Some leaf
         /\ n = Py.len (Leaf.prefix (h leaf)) + Py.len (Leaf.value (h leaf))
                + sum_Z (map (fun comment => Py.len (Leaf.value (h comment)))
                             (Line.comments_after l leaf)))
  /\ Line.enumerate_with_length_by h l false = Line.enumerate_with_length h l.
Proof.
  unfold Line.enumerate_with_length_by. split; [|split].
  - rewrite with_lengths_leaves. f_equal. destruct reversed.
    + rewrite enumerate_reversed_rev, map_rev. f_equal. apply map_snd_enumerate_at.
    + apply map_snd_enumerate_at.
  - intros i leaf n Hin. apply with_lengths_In in Hin as [Hin ->].
    assert (In (i, leaf) (enumerate (Line.leaves l))) as Hpair.
    { destruct reversed; [|assumption].
      rewrite enumerate_reversed_rev in Hin. now apply in_rev in Hin. }
    apply enumerate_at_nth in Hpair. rewrite Z.sub_0_r in Hpair.
    destruct Hpair as [Hrange Hnth]. repeat split; try lia; try assumption.
    unfold Line.length_with_comments. apply fold_left_sum.
  - apply with_lengths_enumerate_from.
Qed.

Lemma existsb_eqb_In (k : LeafID) (l : list LeafID) :
  existsb (Z.eqb k) l = true <-> In k l.
Proof.
  rewrite existsb_exists. split.
  - intros (x & Hin & Heq). apply Z.eqb_eq in Heq. now subst.
  - intros Hin. exists k. split; [assumption|apply Z.eqb_refl].
Qed.

Lemma uncollapsable_head (h : Heap) (ignored : list LeafID) (seen : bool)
      (leaf_id comment : LeafID) (items : list (LeafID * LeafID)) :
  uncollapsable h ignored seen ((leaf_id, comment) :: items)
  <-> (is_type_comment h comment "" = true
       /\ (seen = true
           \/ (is_type_comment h comment " ignore" = false /\ ~ In leaf_id ignored)))
      \/ uncollapsable h ignored true items.
Proof.
  split.
  - intros (before & k & c & after & Hitems & Hty & Hwhy).
    destruct before as [|x before].
    + injection Hitems as <- <- <-. left. split; [assumption|].
      destruct Hwhy as [?|[?|?]]; [auto|congruence|auto].
    + injection Hitems as <- ->. right. exists before, k, c, after. auto.
  - intros [[Hty Hwhy]|(before & k & c & after & -> & Hty & _)].
    + exists [], leaf_id, comment, items. split; [reflexivity|]. split; [assumption|].
      destruct Hwhy; auto.
    + exists ((leaf_id, comment) :: before), k, c, after.
      split; [reflexivity|]. split; [assumption|]. right. left. discriminate.
Qed.

Lemma uncollapsable_nil (h : Heap) (ignored : list LeafID) (seen : bool) :
  ~ uncollapsable h ignored seen [].
Proof. intros (before & k & c & after & Hitems & _). now destruct before. Qed.

Lemma scan_comments_spec (h : Heap) (ignored : list LeafID) (leaf_id : LeafID)
      (comments : list LeafID) (rest : list (LeafID * LeafID)) :
  forall seen,
    match Line.scan_comments h ignored leaf_id seen comments with
    | None => uncollapsable h ignored seen (map (pair leaf_id) comments ++ rest)
    | Some seen' =>
        (uncollapsable h ignored seen (map (pair leaf_id) comments ++ rest)
         <-> uncollapsable h ignored seen' rest)
    end.
Proof.
  induction comments as [|comment comments IH]; intros seen; [simpl; tauto|].
  cbn [Line.scan_comments map app].
  destruct (is_type_comment h comment "" && _) eqn:Hhit.
  - apply uncollapsable_head. left.
    apply andb_prop in Hhit as [Hty Hwhy]. split; [assumption|].
    apply orb_prop in Hwhy as [Hseen|Hwhy]; [now left|right].
    apply andb_prop in Hwhy as [Hignore Hid].
    apply negb_true_iff in Hignore, Hid. split; [assumption|].
    intros Hin. apply existsb_eqb_In in Hin. congruence.
  - assert (uncollapsable h ignored seen ((leaf_id, comment) :: map (pair leaf_id) comments ++ rest)
            <-> uncollapsable h ignored true (map (pair leaf_id) comments ++ rest)) as Hskip.
    { rewrite uncollapsable_head. split; [|auto].
      intros [[Hty Hwhy]|Hrest]; [|assumption]. exfalso.
      rewrite Hty in Hhit. simpl in Hhit.
      apply orb_false_elim in Hhit as [Hseen Hhit].
      destruct Hwhy as [Hwhy|[Hignore Hid]]; [congruence|].
      rewrite Hignore in Hhit. simpl in Hhit. apply negb_false_iff in Hhit.
      apply existsb_eqb_In in Hhit. contradiction. }
    specialize (IH true).
    destruct (Line.scan_comments h ignored leaf_id true comments).
    + rewrite Hskip. exact IH.
    + apply Hskip. exact IH.
Qed.

Lemma scan_items_spec (h : Heap) (ignored : list LeafID) (items : Dict.t) :
  forall seen,
    Line.scan_items h ignored seen items = true
    <-> uncollapsable h ignored seen (attached items).
Proof.
  induction items as [|[leaf_id comments] items IH]; intros seen.
  - simpl. split; [discriminate|]. intros Hu. now apply uncollapsable_nil in Hu.
  - cbn [Line.scan_items attached flat_map fst snd].
    pose proof (scan_comments_spec h ignored leaf_id comments (attached items) seen)
      as Hinner.
    unfold attached in Hinner.
    destruct (Line.scan_comments h ignored leaf_id seen comments) as [seen'|].
    + rewrite Hinner. apply IH.
    + tauto.
Qed.

(** X4: [contains_uncollapsable_type_comments] answers [True] exactly when pragma
    comments are wrapped, the line has the leaves its end is read from, and
    some type comment of the line either comes after another comment, or is
    not a [type: ignore] comment and is filed under a leaf that is not the
    last one (nor the one before a trailing comma or invisible paren). *)
Theorem contains_uncollapsable_type_comments_cases (h : Heap) (l : Line.t) :
  Line.contains_uncollapsable_type_comments h l = true
  <-> Mode.wrap_pragma_comments (Line.mode l) = true
      /\ exists ignored,
          Line.ignored_ids h l = Some ignored
          /\ exists before leaf_id comment after,
              attached (Line.comments l) = before ++ (leaf_id, comment) :: after
              /\ is_type_comment h comment "" = true
              /\ (before <> []
                  \/ (is_type_comment h comment " ignore" = false
                      /\ ~ In leaf_id ignored)).
Proof.
  unfold Line.contains_uncollapsable_type_comments.
  destruct (Mode.wrap_pragma_comments (Line.mode l)); cbn [negb].
  2:{ split; [discriminate|]. intros [Hwrap _]. discriminate. }
  destruct (Line.ignored_ids h l) as [ignored|].
  2:{ split; [discriminate|]. intros (_ & ignored & Hnone & _). discriminate. }
  rewrite scan_items_spec. unfold uncollapsable. split.
  - intros (before & k & c & after & Hitems & Hty & Hwhy).
    split; [reflexivity|]. exists ignored. split; [reflexivity|].
    exists before, k, c, after. repeat split; try assumption.
    destruct Hwhy as [?|[?|?]]; [discriminate|auto|auto].
  - intros (_ & ignored' & [= <-] & before & k & c & after & Hitems & Hty & Hwhy).
    exists before, k, c, after. repeat split; try assumption. now right.
Qed.

(** What the method reads from the end of the line. *)
Lemma ignored_ids_cases (h : Heap) (l : Line.t) :
  (Line.leaves l = [] -> Line.ignored_ids h l = None)
  /\ (forall last, Py.neg_index (Line.leaves l) 1 = Some last ->
        Leaf.type (h last) <> COMMA ->
        (Leaf.type (h last) = RPAR -> Leaf.value (h last) <> "") ->
        Line.ignored_ids h l = Some [last]).
Proof.
  unfold Line.ignored_ids. split.
  - intros ->. reflexivity.
  - intros last -> Hcomma Hparen.
    rewrite (type_eqb_neq _ _ Hcomma). cbn [orb].
    destruct (type_eqb (Leaf.type (h last)) RPAR) eqn:Hty; [|reflexivity].
    apply type_eqb_eq in Hty. specialize (Hparen Hty).
    destruct (Leaf.value (h last)); [congruence|reflexivity].
Qed.

Lemma remove_trailing_comma_returns (s : Line.St) (trailing_comma new_last : LeafID) :
  Py.neg_index (Line.leaves (Line.self s)) 1 = Some trailing_comma ->
  Py.neg_index (Line.leaves (Line.self s)) 2 = Some new_last ->
  exists s',
    Line.remove_trailing_comma s = Ok tt s'
    /\ Line.heap s' = Line.heap s
    /\ Line.leaves (Line.self s') = Py.del_last 1 (Line.leaves (Line.self s))
    /\ Permutation (Dict.chain_values (Line.comments (Line.self s')))
                   (Dict.chain_values (Line.comments (Line.self s)))
    /\ Line.magic_trailing_comma (Line.self s') = Line.magic_trailing_comma (Line.self s).
Proof.
  intros Hlast Hbefore.
  unfold Line.remove_trailing_comma, bind, get. rewrite Hlast. simpl.
  rewrite neg_index_del_last, Hbefore. simpl.
  eexists. split; [reflexivity|]. simpl.
  split; [reflexivity|]. split; [reflexivity|]. split; [|reflexivity].
  eapply Permutation_trans; [apply chain_values_setdefault_extend|].
  eapply Permutation_trans; [apply Permutation_app_comm|].
  apply Permutation_sym, chain_values_remove.
Qed.

(** X6: [remove_trailing_comma] on a line of two leaves or more: the last leaf
    goes, the leaf store is untouched, no comment is lost, and the comments
    of the removed leaf now follow those of the new last leaf; the comments
    of every other leaf stay where they were. *)
Theorem remove_trailing_comma_moves_comments
        (s : Line.St) (trailing_comma new_last : LeafID) :
  Py.neg_index (Line.leaves (Line.self s)) 1 = Some trailing_comma ->
  Py.neg_index (Line.leaves (Line.self s)) 2 = Some new_last ->
  exists s',
    Line.remove_trailing_comma s = Ok tt s'
    /\ Line.heap s' = Line.heap s
    /\ Line.leaves (Line.self s') = Py.del_last 1 (Line.leaves (Line.self s))
    /\ Py.neg_index (Line.leaves (Line.self s')) 1 = Some new_last
    /\ Permutation (Dict.chain_values (Line.comments (Line.self s')))
                   (Dict.chain_values (Line.comments (Line.self s)))
    /\ (trailing_comma <> new_last ->
        Line.comments_after (Line.self s') new_last
        = Line.comments_after (Line.self s) new_last
          ++ Line.comments_after (Line.self s) trailing_comma)
    /\ (forall x, x <> trailing_comma -> x <> new_last ->
                  Line.comments_after (Line.self s') x
                  = Line.comments_after (Line.self s) x).
Proof.
  intros Hlast Hbefore.
  unfold Line.remove_trailing_comma, bind, get. rewrite Hlast. simpl.
  rewrite neg_index_del_last, Hbefore. simpl.
  eexists. split; [reflexivity|]. simpl.
  split; [reflexivity|]. split; [reflexivity|].
  split; [now rewrite neg_index_del_last|].
  unfold Line.comments_after. simpl. split; [|split].
  - eapply Permutation_trans; [apply chain_values_setdefault_extend|].
    eapply Permutation_trans; [apply Permutation_app_comm|].
    apply Permutation_sym, chain_values_remove.
  - intros Hne. rewrite get_setdefault_extend_same.
    rewrite get_remove_other; auto.
  - intros x Hx Hy. rewrite get_setdefault_extend_other by assumption.
    now apply get_remove_other.
Qed.

(** X7: [remove_trailing_comma] on a shorter line raises [IndexError]: at once on
    a line without leaves, and on a line of one leaf after that leaf and its
    comments were taken off the line. *)
Theorem remove_trailing_comma_short_line (s : Line.St) :
  (Line.leaves (Line.self s) = [] ->
   Line.remove_trailing_comma s = Raise IndexError s)
  /\ (forall only,
         Line.leaves (Line.self s) = [only] ->
         Line.remove_trailing_comma s
         = Raise IndexError
                 (Line.mkSt (Line.heap s)
                            (Line.set_comments
                               (Dict.remove (Line.comments (Line.self s)) only)
                               (Line.set_leaves [] (Line.self s))))).
Proof.
  unfold Line.remove_trailing_comma, bind, get. split.
  - intros ->. reflexivity.
  - intros only Hl. rewrite Hl. simpl. rewrite Hl. reflexivity.
Qed.

(** X8: What [str(line)] is: a bare newline for a line without leaves and
    comments; [StopIteration] for a line that has comments and no leaf; and
    otherwise the first leaf's prefix, the indentation, the first leaf's text,
    the other leaves, then every comment in the order of the comment map,
    and a newline. *)
Theorem str_inner_outcomes (h : Heap) (l : Line.t) (for_width_calculation : bool) :
  (Line.leaves l = [] -> Line.comments l = [] ->
   Line._str_inner h l for_width_calculation = Return Py.nl)
  /\ (Line.leaves l = [] -> Line.comments l <> [] ->
      Line._str_inner h l for_width_calculation = Throw StopIteration)
  /\ (forall first rest,
         Line.leaves l = first :: rest ->
         Line._str_inner h l for_width_calculation
         = Return (Leaf.prefix (h first)
                   ++ Line.render_indent_chars l for_width_calculation
                   ++ Leaf.value (h first)
                   ++ Py.concat (map (fun leaf => Leaf.str (h leaf)) rest)
                   ++ Py.concat (map (fun comment => Leaf.str (h comment))
                                     (Dict.chain_values (Line.comments l)))
                   ++ Py.nl)%string).
Proof.
  unfold Line._str_inner, Line.__bool__. repeat split.
  - intros -> ->. reflexivity.
  - intros -> Hc. destruct (Line.comments l); [congruence|reflexivity].
  - intros first rest ->. simpl. rewrite !fold_left_append.
    rewrite !string_append_assoc. reflexivity.
Qed.

(** X9: [all_lines] never fails: it returns the content lines between two strings
    of newlines, [before] of them in front and [after] of them behind, and
    none where the count is zero or negative. *)
Theorem all_lines_frames_content (h : Heap) (b : LinesBlock.t) :
  LinesBlock.all_lines h b
  = Return (newlines (LinesBlock.before b) :: LinesBlock.content_lines b
            ++ [newlines (LinesBlock.after b)])
  /\ Py.len (newlines (LinesBlock.before b)) = Z.max 0 (LinesBlock.before b)
  /\ Py.len (newlines (LinesBlock.after b)) = Z.max 0 (LinesBlock.after b)
  /\ Py.count_newlines (newlines (LinesBlock.before b)) = Z.max 0 (LinesBlock.before b)
  /\ Py.count_newlines (newlines (LinesBlock.after b)) = Z.max 0 (LinesBlock.after b).
Proof.
  split.
  - unfold LinesBlock.all_lines. simpl. now rewrite !times_newline.
  - pose proof (newlines_len (LinesBlock.before b)) as [? ?].
    pose proof (newlines_len (LinesBlock.after b)) as [? ?]. auto.
Qed.

(** The line numbers at the two ends agree when every leaf that has a line
    number has the same one. *)
Lemma first_lineno_one_line (h : Heap) (ls : list LeafID) (n : Z) :
  (forall x, In x ls -> Leaf.lineno (h x) = n \/ Leaf.lineno (h x) = 0) ->
  Line.first_lineno h ls = Line.first_lineno h (rev ls).
Proof.
  intros Hall.
  assert (forall l, (forall x, In x l -> Leaf.lineno (h x) = n \/ Leaf.lineno (h x) = 0) ->
            Line.first_lineno h l
            = match filter (fun leaf => negb (Leaf.lineno (h leaf) =? 0)) l with
              | [] => 0
              | _ => n
              end) as Hfirst.
  { intros l Hl. unfold Line.first_lineno.
    destruct (filter _ l) as [|x rest] eqn:Hf; [reflexivity|].
    assert (In x (filter (fun leaf => negb (Leaf.lineno (h leaf) =? 0)) l)) as Hin
        by (rewrite Hf; now left).
    apply filter_In in Hin as [Hin Hx]. apply negb_true_iff, Z.eqb_neq in Hx.
    destruct (Hl x Hin); congruence. }
  rewrite (Hfirst ls Hall), (Hfirst (rev ls)).
  - rewrite filter_rev. destruct (filter _ ls) as [|x rest]; [reflexivity|].
    simpl. destruct (rev rest ++ [x]) eqn:Hr; [|reflexivity].
    now apply app_eq_nil in Hr as [_ Hr].
  - intros x Hin. apply in_rev in Hin. auto.
Qed.

(** X5: [contains_unsplittable_type_ignore] answers [True] exactly when pragma
    comments are wrapped, the first and the last line number of the line
    agree, and a [type: ignore] comment is filed under one of the last two
    leaves.  The line numbers agree as soon as the leaves that have one share
    it. *)
Theorem contains_unsplittable_type_ignore_cases (h : Heap) (l : Line.t) :
  (Line.contains_unsplittable_type_ignore h l = true
   <-> Mode.wrap_pragma_comments (Line.mode l) = true
       /\ Line.first_lineno h (Line.leaves l) = Line.first_lineno h (rev (Line.leaves l))
       /\ exists node comment,
           In node (Py.last_slice 2 (Line.leaves l))
           /\ In comment (Line.comments_after l node)
           /\ is_type_comment h comment " ignore" = true)
  /\ (forall n,
         (forall x, In x (Line.leaves l) ->
                    Leaf.lineno (h x) = n \/ Leaf.lineno (h x) = 0) ->
         Line.first_lineno h (Line.leaves l) = Line.first_lineno h (rev (Line.leaves l))).
Proof.
  split; [|intros n; apply first_lineno_one_line].
  unfold Line.contains_unsplittable_type_ignore, Line.comments_after.
  destruct (Mode.wrap_pragma_comments (Line.mode l)); cbn [negb].
  2:{ split; [discriminate|]. intros [Hwrap _]. discriminate. }
  destruct (Line.leaves l) as [|x rest] eqn:Hl.
  { split; [discriminate|]. intros (_ & _ & node & comment & [] & _). }
  rewrite <- Hl. cbv zeta.
  destruct (Z.eqb_spec (Line.first_lineno h (Line.leaves l))
                       (Line.first_lineno h (rev (Line.leaves l)))) as [Heq|Hne].
  - rewrite existsb_exists. split.
    + intros (node & Hin & Hsome). apply existsb_exists in Hsome as (c & Hc & Hty).
      split; [reflexivity|]. split; [assumption|]. eauto.
    + intros (_ & _ & node & c & Hin & Hc & Hty). exists node. split; [assumption|].
      apply existsb_exists. eauto.
  - split; [discriminate|]. intros (_ & Heq & _). contradiction.
Qed.

End MoreLineProofs.

(** ** More on the line-fit judge *)

Section MoreJudgeProofs.
Context `{Collaborators}.

Lemma calm_str_inner (h : Heap) (l : Line.t) (w : bool) : calm (Line._str_inner h l w).
Proof.
  unfold Line._str_inner. destruct (negb _); [apply calm_return|].
  destruct (Line.leaves l); [|apply calm_return].
  intros e [= <-]. reflexivity.
Qed.

Lemma calm_rendered (h : Heap) (line : Line.t) (mode : Mode.t) (line_str : string) :
  calm (rendered h line mode line_str).
Proof.
  unfold rendered. apply calm_rbind.
  - destruct (negb _); [|apply calm_return].
    unfold line_to_string. apply calm_rbind; [apply calm_str_inner|intros; apply calm_return].
  - intros s. destruct (Mode.use_tabs mode); [|apply calm_return].
    apply calm_rbind; [apply calm_str_inner|intros; apply calm_return].
Qed.

Lemma calm_mls_step (h : Heap) (line : Line.t) (line_str : string)
      (st : mls_state) (i : Z) (leaf : LeafID) :
  calm (mls_step h line line_str st i leaf).
Proof.
  unfold mls_step.
  apply calm_rbind.
  { destruct (max_level_to_update st); [apply calm_return|].
    destruct (_ >? _); [apply calm_return|].
    destruct (_ <? _); [|apply calm_return].
    destruct (Py.neg_index _ _); [apply calm_return|].
    intros e [= <-]. reflexivity. }
  intros [cs had_comma].
  match goal with |- calm (if ?c then _ else _) => destruct c end; [apply calm_return|].
  apply calm_rbind.
  { match goal with |- calm (if ?c then _ else _) => destruct c end; [|apply calm_return].
    match goal with |- calm (if ?c then _ else _) => destruct c end; [|apply calm_return].
    destruct (getitem _ _); [apply calm_return|].
    intros e [= <-]. reflexivity. }
  intros cs'.
  destruct (is_multiline_string h leaf); [|apply calm_return].
  destruct (_ <? _)%nat; apply calm_return.
Qed.

Lemma calm_mls_loop (h : Heap) (line : Line.t) (line_str : string) (ls : list LeafID) :
  forall st i, calm (mls_loop h line line_str st i ls).
Proof.
  induction ls as [|leaf ls IH]; intros st i; simpl.
  - destruct (multiline_string_contexts st); apply calm_return.
  - apply calm_rbind; [apply calm_mls_step|].
    intros [b|st']; [apply calm_return|apply IH].
Qed.

(** X15: On a rendering without a newline the answer of [is_line_short_enough] is
    the same with the multiline-string layout on or off: the effective
    length is within [line_length] and no leaf is a standalone comment. *)
Theorem is_line_short_enough_on_one_physical_line
        (h : Heap) (line : Line.t) (mode : Mode.t) (line_str s : string) :
  rendered h line mode line_str = Return s ->
  Py.has_newline s = false ->
  is_line_short_enough h line mode line_str
  = Return ((effective_length h line mode s <=? Mode.line_length mode)
            && negb (Line.contains_standalone_comments h line sys_maxsize)).
Proof.
  intros Hs Hnl. unfold is_line_short_enough. rewrite Hs. simpl. rewrite Hnl.
  destruct (mode_contains multiline_string_handling mode); simpl.
  - destruct (Line.contains_standalone_comments h line sys_maxsize); simpl;
      [now rewrite andb_false_r|now rewrite andb_true_r].
  - now rewrite andb_true_r.
Qed.

(** X16: With the multiline-string layout on and a rendering of several physical
    lines: a standalone comment among the leaves, or a first or last physical
    line wider than [line_length], gives [False]; and unpacking the physical
    lines never fails, so that [is_line_short_enough] does not raise
    [ValueError] in any mode. *)
Theorem is_line_short_enough_on_several_physical_lines
        (h : Heap) (line : Line.t) (mode : Mode.t) (line_str : string) :
  (forall s,
      mode_contains multiline_string_handling mode = true ->
      rendered h line mode line_str = Return s ->
      Py.has_newline s = true ->
      (Line.contains_standalone_comments h line sys_maxsize = true ->
       is_line_short_enough h line mode line_str = Return false)
      /\ exists first second rest,
          Py.split_lines s = first :: second :: rest
          /\ (width mode first > Mode.line_length mode
              \/ width mode (List.last (second :: rest) first) > Mode.line_length mode ->
              is_line_short_enough h line mode line_str = Return false))
  /\ calm (is_line_short_enough h line mode line_str).
Proof.
  split.
  - intros s Hon Hs Hnl. unfold is_line_short_enough. rewrite Hs. cbn [rbind].
    rewrite Hon, Hnl. cbn [negb]. split.
    + intros ->. reflexivity.
    + destruct (split_lines_newline s Hnl) as (first & second & rest & Hsplit).
      exists first, second, rest. split; [assumption|].
      intros Hwide. destruct (Line.contains_standalone_comments _ _ _); [reflexivity|].
      rewrite Hsplit.
      assert ((width mode first >? Mode.line_length mode)
              || (width mode (List.last (second :: rest) first) >? Mode.line_length mode)
              = true) as ->; [|reflexivity].
      apply orb_true_intro.
      destruct Hwide as [Hw|Hw]; [left|right]; apply Z.gtb_lt; lia.
  - unfold is_line_short_enough. apply calm_rbind; [apply calm_rendered|].
    intros s. cbv zeta.
    destruct (negb (mode_contains _ _)); [apply calm_return|].
    destruct (Line.contains_standalone_comments _ _ _); [apply calm_return|].
    destruct (negb (Py.has_newline s)) eqn:Hnl; [apply calm_return|].
    apply negb_false_iff in Hnl.
    destruct (split_lines_newline s Hnl) as (first & second & rest & ->).
    destruct (_ || _); [apply calm_return|apply calm_mls_loop].
Qed.

(** While no multiline string was met, one turn of the loop keeps one comma
    counter per open level and goes on. *)
Lemma mls_step_without_string (h : Heap) (line : Line.t) (line_str : string)
      (cs : list Z) (i : Z) (leaf : LeafID) (previous : Z) :
  is_multiline_string h leaf = false ->
  Z.of_nat (List.length cs) = previous + 1 ->
  0 <= Leaf.bracket_depth (h leaf) ->
  previous - 1 <= Leaf.bracket_depth (h leaf) <= previous + 1 ->
  exists cs',
    mls_step h line line_str (mk_mls cs None [] None) i leaf
    = Return (inr (mk_mls cs' None [] None))
    /\ Z.of_nat (List.length cs') = Leaf.bracket_depth (h leaf) + 1.
Proof.
  intros Hplain Hlen Hpos Hstep. unfold mls_step. cbn [commas multiline_string
    multiline_string_contexts max_level_to_update].
  set (d := Leaf.bracket_depth (h leaf)) in *.
  assert (exists cs1 had,
             (if d + 1 >? Z.of_nat (List.length cs) then Return (cs ++ [0], None)
              else if d + 1 <? Z.of_nat (List.length cs)
                   then match Py.neg_index cs 1 with
                        | Some c => Return (Py.del_last 1 cs, Some c)
                        | None => Throw IndexError
                        end
                   else Return (cs, None))
             = Return (cs1, had)
             /\ Z.of_nat (List.length cs1) = d + 1) as (cs1 & had & -> & Hlen1).
  { destruct (Z.gtb_spec (d + 1) (Z.of_nat (List.length cs))).
    - eexists _, _. split; [reflexivity|]. rewrite length_app. simpl. lia.
    - destruct (Z.ltb_spec (d + 1) (Z.of_nat (List.length cs))).
      + destruct cs as [|c cs]; [simpl in *; lia|].
        destruct (neg_index_last_exists c cs) as [y ->].
        eexists _, _. split; [reflexivity|]. rewrite length_del_last.
        simpl List.length in *. lia.
      + eexists _, _. split; [reflexivity|]. lia. }
  cbn [rbind]. destruct had as [hc|]; cbn [rbind];
    rewrite Hplain.
  all: destruct (type_eqb (Leaf.type (h leaf)) COMMA); cbn [andb];
    try (eexists; split; [reflexivity|assumption]).
  all: destruct (negb _); try (eexists; split; [reflexivity|assumption]).
  all: destruct (getitem_in_range cs1 d) as [c ->]; [lia|].
  all: eexists; split; [reflexivity|]; cbn [commas]; now rewrite length_setitem.
Qed.

Lemma mls_loop_without_string (h : Heap) (line : Line.t) (line_str : string)
      (ls : list LeafID) :
  (forall x, In x ls -> is_multiline_string h x = false) ->
  forall cs i previous,
    Z.of_nat (List.length cs) = previous + 1 ->
    smooth_depths h previous ls ->
    mls_loop h line line_str (mk_mls cs None [] None) i ls = Return true.
Proof.
  induction ls as [|leaf ls IH]; intros Hplain cs i previous Hlen Hsmooth.
  - reflexivity.
  - destruct Hsmooth as (Hpos & Hstep & Hsmooth).
    destruct (mls_step_without_string h line line_str cs i leaf previous)
      as (cs' & Hrun & Hlen'); auto.
    { apply Hplain. now left. }
    cbn [mls_loop]. rewrite Hrun. cbn [rbind].
    apply (IH (fun x Hx => Hplain x (or_intror Hx)) cs' (i + 1) _ Hlen' Hsmooth).
Qed.

(** X17: With the multiline-string layout on, a rendering of several physical
    lines whose first and last line are within [line_length] is short enough
    when no leaf is a multiline string (a string with line continuations, for
    one) and no leaf is a standalone comment. *)
Theorem is_line_short_enough_without_multiline_leaf
        (h : Heap) (line : Line.t) (mode : Mode.t) (line_str s first second : string)
        (rest : list string) :
  mode_contains multiline_string_handling mode = true ->
  rendered h line mode line_str = Return s ->
  Py.has_newline s = true ->
  Py.split_lines s = first :: second :: rest ->
  width mode first <= Mode.line_length mode ->
  width mode (List.last (second :: rest) first) <= Mode.line_length mode ->
  Line.contains_standalone_comments h line sys_maxsize = false ->
  (forall x, In x (Line.leaves line) -> is_multiline_string h x = false) ->
  smooth_depths h (-1) (Line.leaves line) ->
  is_line_short_enough h line mode line_str = Return true.
Proof.
  intros Hon Hs Hnl Hsplit Hfirst Hlast Hsc Hplain Hsmooth.
  unfold is_line_short_enough. rewrite Hs. cbn [rbind].
  rewrite Hon, Hsc, Hnl. cbn [negb]. rewrite Hsplit.
  replace (width mode first >? Mode.line_length mode) with false
    by (symmetry; rewrite Z.gtb_ltb; apply Z.ltb_ge; lia).
  replace (width mode (List.last (second :: rest) first) >? Mode.line_length mode)
    with false by (symmetry; rewrite Z.gtb_ltb; apply Z.ltb_ge; lia).
  cbn [orb].
  apply (mls_loop_without_string h line s (Line.leaves line) Hplain [] 0 (-1));
    [reflexivity|assumption].
Qed.

Lemma opening_paren_loop_monotone (h : Heap) (line : Line.t) (first : LeafID)
      (shorter longer : Z) (triples : list (Z * LeafID * Z)) :
  shorter <= longer ->
  forall remainder length _index,
    opening_paren_loop h line first shorter remainder length _index triples = true ->
    opening_paren_loop h line first longer remainder length _index triples = true.
Proof.
  intros Hle. induction triples as [|[[index leaf] leaf_length] triples IH];
    intros remainder length _index; [auto|].
  cbn [opening_paren_loop].
  match goal with
  | |- context [if (if ?c then true else remainder) then _ else _] =>
      destruct (if c then true else remainder)
  end; [|apply IH].
  destruct (Z.gtb_spec (length + leaf_length) shorter); [discriminate|].
  destruct (Z.gtb_spec (length + leaf_length) longer); [lia|]. apply IH.
Qed.

Lemma closing_paren_loop_monotone (h : Heap) (last : LeafID)
      (shorter longer : Z) (triples : list (Z * LeafID * Z)) :
  shorter <= longer ->
  forall length seen,
    closing_paren_loop h last shorter length seen triples = true ->
    closing_paren_loop h last longer length seen triples = true.
Proof.
  intros Hle. induction triples as [|[[index leaf] leaf_length] triples IH];
    intros length seen; [auto|].
  cbn [closing_paren_loop].
  match goal with
  | |- context [if ?c then _ else closing_paren_loop _ _ _ _ (_ || _) _] => destruct c
  end; [|apply IH].
  destruct seen; [auto|]. cbn [orb].
  destruct (Z.leb_spec (length + leaf_length) shorter).
  - intros _. destruct (Z.leb_spec (length + leaf_length) longer); [reflexivity|lia].
  - intros Hloop. apply IH in Hloop.
    destruct (length + leaf_length <=? longer); [reflexivity|assumption].
Qed.

(** X18: A longer line never brings the invisible parentheses back: when they can
    be omitted within [shorter] columns they can be omitted within any
    [longer] budget, and so for each of the two bracket rules. *)
Theorem can_omit_invisible_parens_monotone
        (h : Heap) (rhs : RHSResult.t) (shorter longer : Z) :
  shorter <= longer ->
  (can_omit_invisible_parens h rhs shorter = Return true ->
   can_omit_invisible_parens h rhs longer = Return true)
  /\ (forall first,
         _can_omit_opening_paren h (RHSResult.body rhs) first shorter = true ->
         _can_omit_opening_paren h (RHSResult.body rhs) first longer = true)
  /\ (forall last,
         _can_omit_closing_paren h (RHSResult.body rhs) last shorter = true ->
         _can_omit_closing_paren h (RHSResult.body rhs) last longer = true).
Proof.
  intros Hle.
  assert (forall first,
             _can_omit_opening_paren h (RHSResult.body rhs) first shorter = true ->
             _can_omit_opening_paren h (RHSResult.body rhs) first longer = true) as Hopen.
  { intros first. apply opening_paren_loop_monotone, Hle. }
  assert (forall last,
             _can_omit_closing_paren h (RHSResult.body rhs) last shorter = true ->
             _can_omit_closing_paren h (RHSResult.body rhs) last longer = true) as Hclose.
  { intros last. apply closing_paren_loop_monotone, Hle. }
  split; [|split; assumption].
  unfold can_omit_invisible_parens. cbv zeta.
  destruct (BracketTracker.delimiters _); [auto|].
  destruct (_ >? 1); [auto|].
  match goal with |- context [rbind ?r _] => destruct r as [[|]|e] end; cbn [rbind]; auto.
  destruct (_ =? DOT_PRIORITY); [auto|].
  destruct (Line.leaves (RHSResult.body rhs)) as [|first [|second rest]] eqn:Hl; auto.
  rewrite <- Hl.
  assert (forall X : result bool,
             match Py.neg_index (Line.leaves (RHSResult.body rhs)) 2,
                   Py.neg_index (Line.leaves (RHSResult.body rhs)) 1 with
             | Some penultimate, Some last =>
                 if type_eqb (Leaf.type (h last)) RPAR
                    || type_eqb (Leaf.type (h last)) RBRACE
                    || (type_eqb (Leaf.type (h last)) RSQB
                        && match Leaf.parent (h last) with
                           | Some p => negb (type_eqb (node_type p) trailer)
                           | None => false
                           end)
                 then
                   if type_in (Leaf.type (h penultimate)) OPENING_BRACKETS
                   then Return false
                   else if is_multiline_string h first then Return true
                   else Return (_can_omit_closing_paren h (RHSResult.body rhs) last shorter)
                 else Return false
             | _, _ => Throw IndexError
             end = Return true ->
             X = match Py.neg_index (Line.leaves (RHSResult.body rhs)) 2,
                       Py.neg_index (Line.leaves (RHSResult.body rhs)) 1 with
                 | Some penultimate, Some last =>
                     if type_eqb (Leaf.type (h last)) RPAR
                        || type_eqb (Leaf.type (h last)) RBRACE
                        || (type_eqb (Leaf.type (h last)) RSQB
                            && match Leaf.parent (h last) with
                               | Some p => negb (type_eqb (node_type p) trailer)
                               | None => false
                               end)
                     then
                       if type_in (Leaf.type (h penultimate)) OPENING_BRACKETS
                       then Return false
                       else if is_multiline_string h first then Return true
                       else Return (_can_omit_closing_paren h (RHSResult.body rhs) last longer)
                     else Return false
                 | _, _ => Throw IndexError
                 end ->
             X = Return true) as Htail.
  { intros X Hshort ->.
    destruct (Py.neg_index _ 2) as [penultimate|]; [|discriminate].
    destruct (Py.neg_index _ 1) as [last|]; [|discriminate].
    destruct (_ || _); [|discriminate].
    destruct (type_in _ OPENING_BRACKETS); [discriminate|].
    destruct (is_multiline_string h first); [reflexivity|].
    injection Hshort as Hc. now rewrite (Hclose last Hc). }
  specialize (Hopen first).
  destruct (type_in (Leaf.type (h first)) OPENING_BRACKETS
            && negb (type_in (Leaf.type (h second)) CLOSING_BRACKETS)); cbn [andb].
  - destruct (_can_omit_opening_paren h (RHSResult.body rhs) first shorter).
    + now rewrite (Hopen eq_refl).
    + intros Hshort.
      destruct (_can_omit_opening_paren h (RHSResult.body rhs) first longer);
        [reflexivity|].
      now apply Htail.
  - intros Hshort. now apply Htail.
Qed.

(** The enumeration is cut short by a leaf whose text holds a newline. *)
Lemma enumerate_from_cut (h : Heap) (l : Line.t) (ls : list LeafID) (x : LeafID) :
  In x ls -> Py.has_newline (Leaf.value (h x)) = true ->
  forall index,
    (List.length (Line.enumerate_from h l index ls) < List.length ls)%nat.
Proof.
  intros Hin Hnl. induction ls as [|leaf ls IH]; intros index; [destruct Hin|].
  cbn [Line.enumerate_from].
  destruct (Py.has_newline (Leaf.value (h leaf))) eqn:Hleaf; [simpl; lia|].
  destruct Hin as [->|Hin]; [congruence|].
  specialize (IH Hin (index + 1)). simpl. lia.
Qed.

(** The index the opening rule ends with is the index of the last triple. *)
Lemma opening_paren_loop_end (h : Heap) (line : Line.t) (first : LeafID)
      (line_length : Z) (ls : list LeafID) :
  forall remainder length index _index,
    _index = index - 1 ->
    opening_paren_loop h line first line_length remainder length _index
                       (Line.enumerate_from h line index ls) = true ->
    Z.of_nat (List.length (Line.leaves line))
    = index + Z.of_nat (List.length (Line.enumerate_from h line index ls)).
Proof.
  induction ls as [|leaf ls IH]; intros remainder length index _index ->.
  - simpl. intros Heq. apply Z.eqb_eq in Heq. lia.
  - cbn [Line.enumerate_from].
    destruct (Py.has_newline _).
    + simpl. intros Heq. apply Z.eqb_eq in Heq. lia.
    + cbn [opening_paren_loop List.length].
      match goal with
      | |- context [if (if ?c then true else remainder) then _ else _] =>
          destruct (if c then true else remainder)
      end.
      * destruct (_ >? _); [discriminate|].
        intros Hloop. apply IH in Hloop; lia.
      * intros Hloop. apply IH in Hloop; lia.
Qed.

Lemma closing_paren_loop_found (h : Heap) (last : LeafID) (line_length : Z)
      (triples : list (Z * LeafID * Z)) :
  forall length seen,
    closing_paren_loop h last line_length length seen triples = true ->
    exists opening,
      Leaf.opening_bracket (h last) = Some opening
      /\ In opening (map (fun t => snd (fst t)) triples).
Proof.
  induction triples as [|[[index leaf] leaf_length] triples IH]; intros length seen;
    [discriminate|].
  cbn [closing_paren_loop map fst snd].
  destruct (Leaf.opening_bracket (h last)) as [ob|] eqn:Hob.
  - destruct (Z.eqb_spec leaf ob) as [->|Hne].
    + intros _. exists ob. split; [reflexivity|now left].
    + intros Hloop. apply IH in Hloop as (opening & Hsome & Hin).
      exists opening. split; [assumption|now right].
  - intros Hloop. apply IH in Hloop as (opening & Hsome & _). discriminate.
Qed.

Lemma enumerate_from_leaves (h : Heap) (l : Line.t) (ls : list LeafID) (index : Z) :
  map (fun t => snd (fst t)) (Line.enumerate_from h l index ls)
  = take_while (on_one_line h) ls.
Proof.
  revert index. induction ls as [|leaf ls IH]; intros index; [reflexivity|].
  cbn [Line.enumerate_from take_while]. unfold on_one_line at 1.
  destruct (Py.has_newline _); [reflexivity|]. simpl. now rewrite IH.
Qed.

(** X19: A leaf whose text holds a newline stops both bracket rules: the opening
    rule then never lets the parentheses go, and the closing rule lets them
    go only when the bracket that [last] closes is a leaf of the line that
    comes before every such leaf. *)
Theorem multiline_leaf_stops_the_paren_rules
        (h : Heap) (line : Line.t) (line_length : Z) :
  (forall first multiline,
      In multiline (Line.leaves line) ->
      Py.has_newline (Leaf.value (h multiline)) = true ->
      _can_omit_opening_paren h line first line_length = false)
  /\ (forall last,
         _can_omit_closing_paren h line last line_length = true ->
         exists opening,
           Leaf.opening_bracket (h last) = Some opening
           /\ In opening (take_while (on_one_line h) (Line.leaves line))).
Proof.
  split.
  - intros first multiline Hin Hnl.
    destruct (_can_omit_opening_paren h line first line_length) eqn:Hopen; [|reflexivity].
    unfold _can_omit_opening_paren, Line.enumerate_with_length in Hopen.
    apply opening_paren_loop_end in Hopen; [|reflexivity].
    pose proof (enumerate_from_cut h line _ _ Hin Hnl 0) as Hcut. lia.
  - intros last Hclose.
    unfold _can_omit_closing_paren, Line.enumerate_with_length in Hclose.
    apply closing_paren_loop_found in Hclose as (opening & Hsome & Hin).
    rewrite enumerate_from_leaves in Hin. eauto.
Qed.

Lemma can_omit_single_delimiter (h : Heap) (rhs : RHSResult.t) (line_length : Z) :
  single_delimiter rhs ->
  can_omit_invisible_parens h rhs line_length
  = let line := RHSResult.body rhs in
    match Line.leaves line with
    | first :: second :: _ =>
        if type_in (Leaf.type (h first)) OPENING_BRACKETS
           && negb (type_in (Leaf.type (h second)) CLOSING_BRACKETS)
           && _can_omit_opening_paren h line first line_length
        then Return true
        else
          match Py.neg_index (Line.leaves line) 2, Py.neg_index (Line.leaves line) 1 with
          | Some penultimate, Some last =>
              if type_eqb (Leaf.type (h last)) RPAR
                 || type_eqb (Leaf.type (h last)) RBRACE
                 || (type_eqb (Leaf.type (h last)) RSQB
                     && match Leaf.parent (h last) with
                        | Some p => negb (type_eqb (node_type p) trailer)
                        | None => false
                        end)
              then
                if type_in (Leaf.type (h penultimate)) OPENING_BRACKETS
                then Return false
                else if is_multiline_string h first then Return true
                else Return (_can_omit_closing_paren h line last line_length)
              else Return false
          | _, _ => Throw IndexError
          end
    | _ => Throw AssertionError
    end.
Proof.
  intros (Hne & Hcount & Hoff & Hdot). unfold can_omit_invisible_parens. cbv zeta.
  destruct (BracketTracker.delimiters _); [congruence|].
  destruct (Z.gtb_spec (delimiter_count_with_priority
                          (Line.bracket_tracker (RHSResult.body rhs))
                          (max_delimiter_priority
                             (Line.bracket_tracker (RHSResult.body rhs)))) 1); [lia|].
  rewrite Hoff. cbn [andb and_then].
  destruct (_ =? 1); cbn [rbind].
  all: destruct (Z.eqb_spec (max_delimiter_priority
                               (Line.bracket_tracker (RHSResult.body rhs)))
                            DOT_PRIORITY); [contradiction|reflexivity].
Qed.

Lemma neg_index_two {A : Type} (first second : A) (rest : list A) :
  exists penultimate last,
    Py.neg_index (first :: second :: rest) 2 = Some penultimate
    /\ Py.neg_index (first :: second :: rest) 1 = Some last.
Proof.
  destruct (neg_index_last_exists first (second :: rest)) as [last Hlast].
  unfold Py.neg_index in *. cbn [List.length] in *.
  replace (S (S (List.length rest)) <? 2)%nat with false
    by (symmetry; apply Nat.ltb_ge; lia).
  destruct (nth_error _ (S (S (List.length rest)) - 2)) as [p|] eqn:Hp.
  - exists p, last. auto.
  - apply nth_error_None in Hp. simpl in Hp. lia.
Qed.

(** X20: With a single delimiter that neither of the special rules covers, a body
    of fewer than two leaves fails the assertion (a stranded delimiter); a
    body that ends in no closing bracket, or in the bracket of a subscript,
    keeps its parentheses unless the opening rule lets them go; and so does a
    body that ends in a pair of empty brackets. *)
Theorem can_omit_invisible_parens_single_delimiter
        (h : Heap) (rhs : RHSResult.t) (line_length : Z) :
  single_delimiter rhs ->
  let line := RHSResult.body rhs in
  ((List.length (Line.leaves line) < 2)%nat ->
   can_omit_invisible_parens h rhs line_length = Throw AssertionError)
  /\ (forall first second rest penultimate last,
         Line.leaves line = first :: second :: rest ->
         Py.neg_index (Line.leaves line) 2 = Some penultimate ->
         Py.neg_index (Line.leaves line) 1 = Some last ->
         (type_in (Leaf.type (h first)) OPENING_BRACKETS = true ->
          type_in (Leaf.type (h second)) CLOSING_BRACKETS = false ->
          _can_omit_opening_paren h line first line_length = true ->
          can_omit_invisible_parens h rhs line_length = Return true)
         /\ (type_in (Leaf.type (h first)) OPENING_BRACKETS
             && negb (type_in (Leaf.type (h second)) CLOSING_BRACKETS)
             && _can_omit_opening_paren h line first line_length = false ->
             (type_in (Leaf.type (h last)) CLOSING_BRACKETS = false ->
              can_omit_invisible_parens h rhs line_length = Return false)
             /\ (forall p, Leaf.type (h last) = RSQB ->
                           Leaf.parent (h last) = Some p -> node_type p = trailer ->
                           can_omit_invisible_parens h rhs line_length = Return false)
             /\ (Leaf.type (h last) = RPAR \/ Leaf.type (h last) = RBRACE ->
                 type_in (Leaf.type (h penultimate)) OPENING_BRACKETS = true ->
                 can_omit_invisible_parens h rhs line_length = Return false))).
Proof.
  intros Hsingle line. rewrite (can_omit_single_delimiter h rhs line_length Hsingle).
  cbv zeta. fold line. split.
  - destruct (Line.leaves line) as [|first [|second rest]]; simpl; try reflexivity; lia.
  - intros first second rest penultimate last Hl Hp Hlast. rewrite Hl.
    rewrite Hl in Hp, Hlast. rewrite Hp, Hlast. split.
    + intros -> -> ->. reflexivity.
    + intros ->. split; [|split].
      * intros Hty. unfold CLOSING_BRACKETS in Hty. cbn [type_in existsb] in Hty.
        apply orb_false_elim in Hty as [Hrpar Hty].
        apply orb_false_elim in Hty as [Hrsqb Hty].
        apply orb_false_elim in Hty as [Hrbrace _].
        now rewrite Hrpar, Hrsqb, Hrbrace.
      * intros p Hty Hparent Htrailer. rewrite Hty, Hparent, Htrailer. reflexivity.
      * intros [Hty|Hty] Hopen; rewrite Hty, Hopen; reflexivity.
Qed.

(** X21: Under the preview layout for several context managers, a body whose one
    delimiter is a comma is kept in parentheses after the head of a [with]
    statement. *)
Theorem can_omit_invisible_parens_with_statement
        (h : Heap) (rhs : RHSResult.t) (line_length : Z) :
  let line := RHSResult.body rhs in
  let bt := Line.bracket_tracker line in
  BracketTracker.delimiters bt <> [] ->
  delimiter_count_with_priority bt (max_delimiter_priority bt) = 1 ->
  max_delimiter_priority bt = COMMA_PRIORITY ->
  mode_contains wrap_multiple_context_managers_in_parens (Line.mode line) = true ->
  (Line.is_with_or_async_with_stmt h (RHSResult.head rhs) = Return true ->
   can_omit_invisible_parens h rhs line_length = Return false)
  /\ (forall e, Line.is_with_or_async_with_stmt h (RHSResult.head rhs) = Throw e ->
                e = IndexError
                /\ can_omit_invisible_parens h rhs line_length = Throw IndexError).
Proof.
  intros line bt Hne Hcount Hcomma Hon.
  unfold can_omit_invisible_parens. cbv zeta. fold line. fold bt.
  destruct (BracketTracker.delimiters bt); [congruence|].
  rewrite Hcount, Hcomma, Hon, !Z.eqb_refl.
  change (1 >? 1) with false. cbn [andb and_then]. split.
  - intros ->. reflexivity.
  - intros e He. pose proof (first_leaf_is_throws _ _ _ He) as Hindex. subst e.
    rewrite He. auto.
Qed.

End MoreJudgeProofs.

(** ** More on [append] *)

Section MoreAppendProofs.
Context `{Collaborators}.

Lemma has_magic_trailing_comma_total
      (h : Heap) (l : Line.t) (closing : LeafID) (b : bool) :
  exists answer, Line.has_magic_trailing_comma h l closing b = Return answer.
Proof.
  unfold Line.has_magic_trailing_comma.
  destruct (Py.neg_index (Line.leaves l) 1) as [comma|] eqn:Hlast; [|eauto].
  assert (exists x rest, Line.leaves l = x :: rest) as (x & rest & Hl).
  { destruct (Line.leaves l) as [|x rest]; [discriminate|eauto]. }
  unfold Line.is_import. rewrite (first_leaf_is_with_leaves _ _ _ _ Hl). cbn [rbind].
  repeat match goal with
         | |- exists answer, Return _ = Return answer => eexists; reflexivity
         | |- exists answer, (if ?c then _ else _) = _ => destruct c
         | |- exists answer, match ?x with _ => _ end = _ => destruct x
         end.
Qed.

Lemma has_magic_trailing_comma_true
      (h : Heap) (l : Line.t) (closing : LeafID) (b : bool) :
  Line.has_magic_trailing_comma h l closing b = Return true ->
  type_in (Leaf.type (h closing)) CLOSING_BRACKETS = true
  /\ exists comma, Py.neg_index (Line.leaves l) 1 = Some comma.
Proof.
  intros Htrue. split.
  - destruct (type_in (Leaf.type (h closing)) CLOSING_BRACKETS) eqn:Hty; [reflexivity|].
    rewrite (has_magic_trailing_comma_not_closing _ _ _ _ Hty) in Htrue. discriminate.
  - unfold Line.has_magic_trailing_comma in Htrue.
    destruct (Py.neg_index (Line.leaves l) 1); [eauto|discriminate].
Qed.

Lemma is_class_paren_empty_total (h : Heap) (l : Line.t) :
  exists answer, Line.is_class_paren_empty h l = Return answer.
Proof.
  unfold Line.is_class_paren_empty.
  destruct (Line.__bool__ l && (List.length (Line.leaves l) =? 4)%nat) eqn:Hfour;
    [|eexists; reflexivity].
  apply andb_prop in Hfour as [_ Hfour]. apply Nat.eqb_eq in Hfour.
  destruct (Line.leaves l) as [|x rest] eqn:Hl; [discriminate|].
  cbn [and_then]. unfold Line.is_class.
  rewrite (first_leaf_is_with_leaves _ _ _ _ Hl). eexists; reflexivity.
Qed.

Section Token.
Variables (s0 : Line.St) (leaf : LeafID).
Hypothesis not_comment : Leaf.type (Line.heap s0 leaf) <> COMMENT.

Lemma underway_on_leaf (k : nat) (f : Leaf.t -> Leaf.t) :
  (forall l, Leaf.type (f l) = Leaf.type l) ->
  keeps (lone_comma s0 leaf) (underway s0 leaf k) (Line.on_leaf leaf f).
Proof.
  intros Hf. apply keeps_modify. intros s (Hty & Hm & Hl).
  unfold underway. simpl. rewrite upd_same, Hf. auto.
Qed.

(** The part of [append] that marks the token and looks after a trailing
    comma. *)
Lemma underway_mark (k : nat) (b : bool) :
  (k = 0%nat \/ type_in (Leaf.type (Line.heap s0 leaf)) CLOSING_BRACKETS = false) ->
  triple (underway s0 leaf k)
    (if b then
       Line.mark_leaf leaf ;;;
       s <- get ;;
       if Mode.magic_trailing_comma (Line.mode (Line.self s)) then
         m <- lift (Line.has_magic_trailing_comma (Line.heap s) (Line.self s) leaf false) ;;
         when m (Line.on_self (Line.set_magic_trailing_comma (Some leaf)))
       else
         m <- lift (Line.has_magic_trailing_comma (Line.heap s) (Line.self s) leaf true) ;;
         when m Line.remove_trailing_comma
     else ret tt)
    (fun _ s => underway s0 leaf k s
                \/ (k = 0%nat
                    /\ type_in (Leaf.type (Line.heap s0 leaf)) CLOSING_BRACKETS = true
                    /\ Mode.magic_trailing_comma (Line.mode (Line.self s0)) = false
                    /\ underway s0 leaf 1 s))
    (lone_comma s0 leaf).
Proof.
  intros Hk s (Hty & Hm & Hl). destruct b; [|simpl; left; unfold underway; auto].
  unfold bind at 1. unfold Line.mark_leaf, bind at 1, get at 1.
  destruct (mark _ _ _) as [bt [d ob]].
  unfold bind at 1. cbn [Line.on_leaf modify].
  cbn [Line.on_self modify Line.heap Line.self].
  set (s1 := Line.mkSt _ _).
  assert (underway s0 leaf k s1) as Hs1.
  { subst s1. unfold underway. simpl. rewrite upd_same. simpl. auto. }
  clearbody s1.
  unfold bind at 1. unfold get at 1.
  destruct Hs1 as (Hty1 & Hm1 & Hl1). rewrite Hm1.
  destruct (Mode.magic_trailing_comma (Line.mode (Line.self s0))) eqn:Hmagic.
  - destruct (has_magic_trailing_comma_total (Line.heap s1) (Line.self s1) leaf false)
      as [answer Hanswer].
    unfold bind. rewrite Hanswer. destruct answer; simpl; left; unfold underway; auto.
  - destruct (has_magic_trailing_comma_total (Line.heap s1) (Line.self s1) leaf true)
      as [answer Hanswer].
    unfold bind at 1. rewrite Hanswer. cbn [lift ret].
    destruct answer; [|simpl; left; unfold underway; auto].
    apply has_magic_trailing_comma_true in Hanswer as (Hclosing & comma & Hcomma).
    rewrite Hty1 in Hclosing.
    destruct Hk as [->|Hk]; [|congruence].
    rewrite del_last_0 in Hl1.
    cbn [when]. unfold Line.remove_trailing_comma, bind, get.
    rewrite Hcomma. cbn [index ret Line.on_self modify Line.self Line.heap Line.leaves
      Line.set_leaves Line.set_comments Line.comments].
    rewrite neg_index_del_last.
    destruct (Py.neg_index (Line.leaves (Line.self s1)) 2) as [new_last|] eqn:Hnew.
    + simpl. right. repeat split; try assumption. simpl. now rewrite Hl1.
    + apply neg_index_some_length in Hcomma.
      apply neg_index_none_length in Hnew; [|lia].
      assert (List.length (Line.leaves (Line.self s1)) = 1%nat) as Hone by lia.
      simpl. unfold lone_comma. simpl. rewrite <- Hl1.
      repeat split; try assumption.
      unfold Py.del_last. rewrite Hone. reflexivity.
Qed.

(** The end of [append] for a token that is not an inline comment: it
    becomes the last leaf. *)
Lemma underway_push (k : nat) :
  triple (underway s0 leaf k)
    (attached <- Line.append_comment leaf ;;
     when (negb attached)
          (Line.on_self (fun l => Line.set_leaves (Line.leaves l ++ [leaf]) l)))
    (fun _ s =>
       Leaf.type (Line.heap s leaf) = Leaf.type (Line.heap s0 leaf)
       /\ Line.leaves (Line.self s)
          = Py.del_last k (Line.leaves (Line.self s0)) ++ [leaf])
    (lone_comma s0 leaf).
Proof.
  intros s (Hty & Hm & Hl). unfold bind at 1. unfold Line.append_comment, bind, get.
  destruct (type_eqb (Leaf.type (Line.heap s leaf)) STANDALONE_COMMENT
            && any_open_brackets (Line.bracket_tracker (Line.self s))).
  - simpl. rewrite upd_same. simpl. rewrite Hl. auto.
  - rewrite Hty, (type_eqb_neq _ _ not_comment). simpl. rewrite Hl. auto.
Qed.

(** [append] once the token is known to be kept and the empty parentheses of
    a class were looked after. *)
Lemma underway_rest (k : nat) (preformatted track_bracket : bool) :
  (k = 0%nat \/ type_in (Leaf.type (Line.heap s0 leaf)) CLOSING_BRACKETS = false) ->
  triple (underway s0 leaf k)
    (s <- get ;;
     when (match Line.leaves (Line.self s) with [] => false | _ => true end
           && negb preformatted)
       (Line.on_leaf leaf
          (fun lf => Leaf.set_prefix
                       (Leaf.prefix lf
                        ++ whitespace (Line.heap s) leaf
                             (Line.is_complex_subscript (Line.heap s) (Line.self s) leaf))%string
                       lf)) ;;;
     s <- get ;;
     (if Line.inside_brackets (Line.self s) || negb preformatted || track_bracket then
        Line.mark_leaf leaf ;;;
        s <- get ;;
        if Mode.magic_trailing_comma (Line.mode (Line.self s)) then
          m <- lift (Line.has_magic_trailing_comma (Line.heap s) (Line.self s) leaf false) ;;
          when m (Line.on_self (Line.set_magic_trailing_comma (Some leaf)))
        else
          m <- lift (Line.has_magic_trailing_comma (Line.heap s) (Line.self s) leaf true) ;;
          when m Line.remove_trailing_comma
      else ret tt) ;;;
     attached <- Line.append_comment leaf ;;
     when (negb attached)
          (Line.on_self (fun l => Line.set_leaves (Line.leaves l ++ [leaf]) l)))
    (fun _ s =>
       Leaf.type (Line.heap s leaf) = Leaf.type (Line.heap s0 leaf)
       /\ (Line.leaves (Line.self s) = Py.del_last k (Line.leaves (Line.self s0)) ++ [leaf]
           \/ (k = 0%nat
               /\ type_in (Leaf.type (Line.heap s0 leaf)) CLOSING_BRACKETS = true
               /\ Mode.magic_trailing_comma (Line.mode (Line.self s0)) = false
               /\ Line.leaves (Line.self s)
                  = Py.del_last 1 (Line.leaves (Line.self s0)) ++ [leaf])))
    (lone_comma s0 leaf).
Proof.
  intros Hk.
  apply triple_read; intros s1 _.
  eapply triple_bind with (R := fun _ => underway s0 leaf k).
  { apply keeps_when, underway_on_leaf. reflexivity. }
  intros _.
  apply triple_read; intros s2 _.
  eapply triple_bind; [apply (underway_mark k _ Hk)|].
  intros u. apply triple_or.
  - eapply triple_post; [apply underway_push|].
    intros a s (Hty & Hl). auto.
  - apply triple_assume; intros Hzero.
    apply triple_assume; intros Hclosing.
    apply triple_assume; intros Hmagic.
    eapply triple_post; [apply underway_push|].
    intros a s (Hty & Hl). auto 10.
Qed.

End Token.

Lemma append_token (s : Line.St) (leaf : LeafID) (preformatted track_bracket : bool) :
  Leaf.type (Line.heap s leaf) <> COMMENT ->
  Line.has_value (Line.heap s leaf) = true ->
  match Line.append leaf preformatted track_bracket s with
  | Ok _ s' => appended_last s leaf s'
  | Raise e s' => lone_comma s leaf e s'
  end.
Proof.
  intros Hty Hvalue.
  unfold Line.append. unfold bind at 1. unfold get at 1. rewrite Hvalue. cbn [negb].
  assert (underway s leaf 0 s) as Hstart.
  { unfold underway. rewrite del_last_0. auto. }
  destruct (type_eqb COLON (Leaf.type (Line.heap s leaf))) eqn:Hcolon.
  - apply type_eqb_eq in Hcolon.
    destruct (is_class_paren_empty_total (Line.heap s) (Line.self s)) as [cpe Hcpe].
    rewrite Hcpe. cbn [lift]. rewrite bind_ret. destruct cpe.
    + unfold bind at 1. cbn [when Line.on_self modify].
      match goal with
      | |- match ?m ?s1 with _ => _ end =>
          pose proof (underway_rest s leaf Hty 2 preformatted track_bracket
                                    (or_intror (f_equal (fun ty => type_in ty CLOSING_BRACKETS)
                                                        (eq_sym Hcolon)))
                                    s1) as Hrest
      end.
      match type of Hrest with
      | ?P -> _ => assert P as Hpre by (unfold underway; simpl; auto)
      end.
      specialize (Hrest Hpre).
      match goal with
      | |- match ?r with _ => _ end => destruct r as [a s'|e s']
      end; [|exact Hrest].
      destruct Hrest as (Hty' & [Hl|(Hk & _)]); [|discriminate].
      unfold appended_last. cbv zeta. split; [assumption|]. right. right. auto.
    + change (when false ?m) with (@ret Line.St unit tt). rewrite bind_ret.
      pose proof (underway_rest s leaf Hty 0 preformatted track_bracket
                                (or_introl eq_refl) s Hstart) as Hrest.
      match goal with
      | |- match ?r with _ => _ end => destruct r as [a s'|e s']
      end; [|exact Hrest].
      destruct Hrest as (Hty' & [Hl|(_ & Hclosing & Hmagic & Hl)]);
        unfold appended_last; cbv zeta; (split; [assumption|]).
      * left. now rewrite del_last_0 in Hl.
      * right. left. auto.
  - rewrite bind_ret. change (when false ?m) with (@ret Line.St unit tt).
    rewrite bind_ret.
    pose proof (underway_rest s leaf Hty 0 preformatted track_bracket
                              (or_introl eq_refl) s Hstart) as Hrest.
    match goal with
    | |- match ?r with _ => _ end => destruct r as [a s'|e s']
    end; [|exact Hrest].
    destruct Hrest as (Hty' & [Hl|(_ & Hclosing & Hmagic & Hl)]);
      unfold appended_last; cbv zeta; (split; [assumption|]).
    + left. now rewrite del_last_0 in Hl.
    + right. left. auto.
Qed.

(** X10: A token that is not an inline comment and is not blank becomes the last
    leaf: when [append] returns, the token has kept its type and stands behind
    the leaves the line had, less a trailing comma or the two empty
    parentheses of a class where those were removed.  And [append] does
    return unless the line has exactly one leaf. *)
Theorem append_puts_token_last
        (s : Line.St) (leaf : LeafID) (preformatted track_bracket : bool) :
  Leaf.type (Line.heap s leaf) <> COMMENT ->
  Line.has_value (Line.heap s leaf) = true ->
  (forall s', Line.append leaf preformatted track_bracket s = Ok tt s' ->
              appended_last s leaf s')
  /\ (List.length (Line.leaves (Line.self s)) <> 1%nat ->
      exists s', Line.append leaf preformatted track_bracket s = Ok tt s'
                 /\ appended_last s leaf s').
Proof.
  intros Hty Hvalue.
  pose proof (append_token s leaf preformatted track_bracket Hty Hvalue) as Hrun.
  split.
  - intros s' Hok. now rewrite Hok in Hrun.
  - intros Hlen.
    destruct (Line.append leaf preformatted track_bracket s) as [[] s'|e s'].
    + eauto.
    + destruct Hrun as (_ & _ & Hone & _). contradiction.
Qed.

(** X11: [append] raises in one situation only, and then [IndexError]: a closing
    bracket arrives, the mode removes trailing commas, and the comma to
    remove is the only leaf of the line, which is left without leaves. *)
Theorem append_raises_only_for_a_lone_comma
        (s s' : Line.St) (leaf : LeafID) (preformatted track_bracket : bool) (e : exn) :
  Line.append leaf preformatted track_bracket s = Raise e s' ->
  lone_comma s leaf e s'.
Proof.
  intros Hraise.
  destruct (Line.has_value (Line.heap s leaf)) eqn:Hvalue.
  - destruct (NodeType_eq_dec (Leaf.type (Line.heap s leaf)) COMMENT) as [Hty|Hty].
    + destruct (append_disposes_inline_comment s leaf preformatted track_bracket
                                               Hty Hvalue) as (s1 & Hok & _).
      congruence.
    + pose proof (append_token s leaf preformatted track_bracket Hty Hvalue) as Hrun.
      now rewrite Hraise in Hrun.
  - unfold Line.append, bind, get in Hraise. rewrite Hvalue in Hraise. discriminate.
Qed.

Lemma is_class_paren_empty_leaves (h : Heap) (l : Line.t) :
  Line.is_class_paren_empty h l = Return true ->
  exists class_leaf name_leaf lpar rpar,
    Line.leaves l = [class_leaf; name_leaf; lpar; rpar]
    /\ Leaf.value (h class_leaf) = "class"
    /\ Leaf.type (h lpar) = LPAR /\ Leaf.type (h rpar) = RPAR.
Proof.
  unfold Line.is_class_paren_empty.
  destruct (Line.__bool__ l && (List.length (Line.leaves l) =? 4)%nat) eqn:Hfour;
    [|discriminate].
  apply andb_prop in Hfour as [_ Hfour]. apply Nat.eqb_eq in Hfour.
  destruct (Line.leaves l) as [|a [|b [|c [|d [|]]]]] eqn:Hl; try discriminate.
  cbn [and_then]. unfold Line.is_class.
  rewrite (first_leaf_is_with_leaves _ _ _ _ Hl). cbn [rbind nth_error].
  intros [= Htrue]. apply andb_prop in Htrue as [Hclass Hparens].
  apply andb_prop in Hclass as [_ Hclass]. apply String.eqb_eq in Hclass.
  apply andb_prop in Hparens as [Hlpar Hrpar].
  unfold Line.is_paren in *.
  apply andb_prop in Hlpar as [Hlpar _]. apply andb_prop in Hrpar as [Hrpar _].
  apply type_eqb_eq in Hlpar, Hrpar.
  exists a, b, c, d. auto.
Qed.

(** X12: A colon that arrives after [class A()] takes the place of the empty
    parentheses: [append] returns and the line is [class A:]. *)
Theorem append_colon_drops_empty_class_parens
        (s : Line.St) (leaf : LeafID) (preformatted track_bracket : bool) :
  Leaf.type (Line.heap s leaf) = COLON ->
  Line.has_value (Line.heap s leaf) = true ->
  Line.is_class_paren_empty (Line.heap s) (Line.self s) = Return true ->
  exists s' class_leaf name_leaf lpar rpar,
    Line.leaves (Line.self s) = [class_leaf; name_leaf; lpar; rpar]
    /\ Line.append leaf preformatted track_bracket s = Ok tt s'
    /\ Line.leaves (Line.self s') = [class_leaf; name_leaf; leaf]
    /\ Leaf.type (Line.heap s' leaf) = COLON.
Proof.
  intros Hty Hvalue Hcpe.
  destruct (is_class_paren_empty_leaves _ _ Hcpe)
    as (class_leaf & name_leaf & lpar & rpar & Hl & _).
  assert (Leaf.type (Line.heap s leaf) <> COMMENT) as Hnot by (rewrite Hty; discriminate).
  assert (type_in (Leaf.type (Line.heap s leaf)) CLOSING_BRACKETS = false) as Hclosing
      by (rewrite Hty; reflexivity).
  unfold Line.append. unfold bind at 1. unfold get at 1. rewrite Hvalue. cbn [negb].
  rewrite Hty. change (type_eqb COLON COLON) with true. cbv iota.
  rewrite Hcpe. cbn [lift]. rewrite bind_ret.
  unfold bind at 1. cbn [when Line.on_self modify].
  match goal with
  | |- exists s' _ _ _ _, _ /\ ?m ?s1 = _ /\ _ =>
      pose proof (underway_rest s leaf Hnot 2 preformatted track_bracket
                                (or_intror Hclosing) s1) as Hrest;
      assert (underway s leaf 2 s1) as Hs1 by (unfold underway; simpl; auto);
      specialize (Hrest Hs1);
      destruct (m s1) as [[] s'|e s']
  end.
  - destruct Hrest as (Hty' & [Hleaves|(Hk & _)]); [|discriminate].
    exists s', class_leaf, name_leaf, lpar, rpar.
    rewrite Hleaves, Hl, Hty' , Hty. auto.
  - destruct Hrest as (_ & _ & _ & Hc & _). congruence.
Qed.

Lemma has_magic_trailing_comma_brace
      (h : Heap) (l : Line.t) (closing comma : LeafID) (b : bool) :
  Py.neg_index (Line.leaves l) 1 = Some comma ->
  Leaf.type (h comma) = COMMA -> Leaf.type (h closing) = RBRACE ->
  Line.has_magic_trailing_comma h l closing b = Return true.
Proof.
  intros Hlast Hcomma Hty. unfold Line.has_magic_trailing_comma.
  rewrite Hlast, Hcomma, Hty. reflexivity.
Qed.

Lemma append_comment_other (s : Line.St) (leaf : LeafID) :
  Leaf.type (Line.heap s leaf) <> COMMENT ->
  Leaf.type (Line.heap s leaf) <> STANDALONE_COMMENT ->
  Line.append_comment leaf s = Ok false s.
Proof.
  intros Hc Hs. unfold Line.append_comment, bind, get.
  rewrite (type_eqb_neq _ _ Hc), (type_eqb_neq _ _ Hs). reflexivity.
Qed.

(** X13: A closing brace that arrives after a trailing comma, the tracker being
    on: in a mode with magic trailing commas the brace is recorded as the
    magic trailing comma of the line, and the comma stays; in a mode without
    them the comma is removed before the brace is appended, and its comments
    stay on the line. *)
Theorem append_closing_brace_after_comma
        (s : Line.St) (leaf comma : LeafID) (preformatted track_bracket : bool) :
  Leaf.type (Line.heap s leaf) = RBRACE ->
  Py.neg_index (Line.leaves (Line.self s)) 1 = Some comma ->
  Leaf.type (Line.heap s comma) = COMMA ->
  Line.inside_brackets (Line.self s) || negb preformatted || track_bracket = true ->
  (Mode.magic_trailing_comma (Line.mode (Line.self s)) = true ->
   exists s',
     Line.append leaf preformatted track_bracket s = Ok tt s'
     /\ Line.leaves (Line.self s') = Line.leaves (Line.self s) ++ [leaf]
     /\ Line.magic_trailing_comma (Line.self s') = Some leaf
     /\ Line.comments (Line.self s') = Line.comments (Line.self s))
  /\ (Mode.magic_trailing_comma (Line.mode (Line.self s)) = false ->
      forall new_last,
        Py.neg_index (Line.leaves (Line.self s)) 2 = Some new_last ->
        exists s',
          Line.append leaf preformatted track_bracket s = Ok tt s'
          /\ Line.leaves (Line.self s')
             = Py.del_last 1 (Line.leaves (Line.self s)) ++ [leaf]
          /\ Line.magic_trailing_comma (Line.self s')
             = Line.magic_trailing_comma (Line.self s)
          /\ Permutation (Dict.chain_values (Line.comments (Line.self s')))
                         (Dict.chain_values (Line.comments (Line.self s)))).
Proof.
  intros Hty Hlast Hcomma Hmark.
  assert (exists s1,
             Line.append leaf preformatted track_bracket s
             = (s <- get ;;
                (if Mode.magic_trailing_comma (Line.mode (Line.self s)) then
                   m <- lift (Line.has_magic_trailing_comma (Line.heap s) (Line.self s)
                                                            leaf false) ;;
                   when m (Line.on_self (Line.set_magic_trailing_comma (Some leaf)))
                 else
                   m <- lift (Line.has_magic_trailing_comma (Line.heap s) (Line.self s)
                                                            leaf true) ;;
                   when m Line.remove_trailing_comma) ;;;
                attached <- Line.append_comment leaf ;;
                when (negb attached)
                     (Line.on_self (fun l => Line.set_leaves (Line.leaves l ++ [leaf]) l)))
                 s1
             /\ (forall x, Leaf.type (Line.heap s1 x) = Leaf.type (Line.heap s x))
             /\ Line.leaves (Line.self s1) = Line.leaves (Line.self s)
             /\ Line.comments (Line.self s1) = Line.comments (Line.self s)
             /\ Line.mode (Line.self s1) = Line.mode (Line.self s)
             /\ Line.magic_trailing_comma (Line.self s1)
                = Line.magic_trailing_comma (Line.self s))
    as (s1 & -> & Htypes & Hleaves & Hcomments & Hmode & Hmtc).
  { unfold Line.append. unfold bind at 1. unfold get at 1.
    unfold Line.has_value. rewrite Hty. cbn [type_in existsb BRACKETS OPENING_BRACKETS
      CLOSING_BRACKETS app orb negb].
    change (type_eqb RBRACE LPAR) with false. change (type_eqb RBRACE LSQB) with false.
    change (type_eqb RBRACE LBRACE) with false. change (type_eqb RBRACE RPAR) with false.
    change (type_eqb RBRACE RSQB) with false. change (type_eqb RBRACE RBRACE) with true.
    cbn [orb negb]. change (type_eqb COLON RBRACE) with false. cbv iota.
    rewrite bind_ret. change (when false ?m) with (@ret Line.St unit tt).
    rewrite bind_ret. unfold bind at 1. unfold get at 1.
    match goal with
    | |- context [bind (when ?c ?m) _ s] =>
        assert (exists sA, when c m s = Ok tt sA
                           /\ (forall x, Leaf.type (Line.heap sA x)
                                         = Leaf.type (Line.heap s x))
                           /\ Line.self sA = Line.self s) as (sA & HsA & HtyA & HselfA)
    end.
    { destruct (_ && _).
      - eexists. split; [reflexivity|]. split; [|reflexivity].
        intros x. simpl. unfold upd. destruct (Z.eqb_spec leaf x) as [->|]; reflexivity.
      - eexists. split; [reflexivity|]. auto. }
    unfold bind at 1. rewrite HsA.
    unfold bind at 1. unfold get at 1. rewrite HselfA, Hmark.
    unfold bind at 1. unfold bind at 1.
    unfold Line.mark_leaf, bind at 1, get at 1.
    destruct (mark _ _ _) as [bt [d ob]].
    unfold bind at 1. cbn [Line.on_leaf Line.on_self modify Line.heap Line.self].
    eexists. split; [reflexivity|]. simpl. rewrite HselfA. repeat split.
    intros x. unfold upd. destruct (Z.eqb_spec leaf x) as [->|]; simpl; apply HtyA. }
  assert (forall b, Line.has_magic_trailing_comma (Line.heap s1) (Line.self s1) leaf b
                    = Return true) as Hmagic.
  { intros b. apply (has_magic_trailing_comma_brace _ _ _ comma).
    - now rewrite Hleaves.
    - now rewrite Htypes.
    - now rewrite Htypes. }
  assert (forall s2, (forall x, Leaf.type (Line.heap s2 x) = Leaf.type (Line.heap s x)) ->
            (attached <- Line.append_comment leaf ;;
             when (negb attached)
                  (Line.on_self (fun l => Line.set_leaves (Line.leaves l ++ [leaf]) l))) s2
            = Ok tt (Line.mkSt (Line.heap s2)
                               (Line.set_leaves (Line.leaves (Line.self s2) ++ [leaf])
                                                (Line.self s2)))) as Hpush.
  { intros s2 Hs2. unfold bind. rewrite append_comment_other; [reflexivity| |];
      rewrite Hs2, Hty; discriminate. }
  split.
  - intros Hon. unfold bind at 1. unfold get at 1.
    rewrite Hmode, Hon, Hmagic. cbn [lift]. rewrite bind_ret.
    unfold bind at 1. cbn [when Line.on_self modify].
    rewrite Hpush by (intros x; apply Htypes).
    eexists. split; [reflexivity|]. simpl. rewrite Hleaves, Hcomments. auto.
  - intros Hoff new_last Hnew. unfold bind at 1. unfold get at 1.
    rewrite Hmode, Hoff, Hmagic. cbn [lift]. rewrite bind_ret.
    cbn [when].
    destruct (remove_trailing_comma_returns s1 comma new_last)
      as (s2 & Hremove & Hheap & Hl2 & Hperm & Hm2); [now rewrite Hleaves..|].
    unfold bind at 1. rewrite Hremove.
    rewrite Hpush by (intros x; rewrite Hheap; apply Htypes).
    eexists. split; [reflexivity|]. simpl. rewrite Hl2, Hleaves, Hm2, Hmtc.
    split; [reflexivity|]. split; [reflexivity|].
    now rewrite <- Hcomments.
Qed.

End MoreAppendProofs.

(** ** More on the blank-line tracker *)

Section MoreTrackerProofs.
Context `{Collaborators}.
Import EmptyLineTracker.

Section Counts.
Variables (s0 : St) (current_line : Line.t).

Lemma max_allowed_pos : 1 <= (max_allowed (mode (self s0)) current_line).
Proof.
  unfold max_allowed. destruct (_ =? 0); [destruct (Mode.is_pyi _)|]; lia.
Qed.

Lemma nonempty_depth : nonempty (Line.depth current_line) = negb (len_depth current_line =? 0).
Proof. unfold len_depth. destruct (Line.depth current_line); reflexivity. Qed.

Lemma counted_set_previous_defs (f : t -> list Line.t) :
  keeps (fun _ => (counted s0 current_line)) (counted s0 current_line) (on_self (fun x => set_previous_defs (f x) x)).
Proof. apply keeps_modify. intros s Hs. exact Hs. Qed.

Lemma counted_set_before (c : BlockID) (f : LinesBlock.t -> Z) :
  semantic_leading_comment (self s0) = Some c ->
  keeps (fun _ => (counted s0 current_line)) (counted s0 current_line) (on_block c (fun b => LinesBlock.set_before (f b) b)).
Proof.
  intros Hc. apply keeps_modify.
  intros s (Hh & Hm & Hl & Hb & Hslc & Hn & Hothers & Hsame).
  unfold counted. simpl. repeat split; try assumption.
  - intros i Hi. destruct (Z.eqb_spec c i) as [->|]; [congruence|auto].
  - intros i. destruct (Z.eqb_spec c i) as [->|]; [|auto].
    rewrite <- Hsame. reflexivity.
Qed.

Lemma unwind_step_bounded (h : Heap) (x : t) (top : Line.t) (before before' : Z) :
  mode x = mode (self s0) ->
  0 <= before <= (max_allowed (mode (self s0)) current_line) ->
  unwind_step h x current_line top before = Return before' ->
  0 <= before' <= (max_allowed (mode (self s0)) current_line).
Proof.
  intros Hm Hb. unfold unwind_step. rewrite Hm, nonempty_depth.
  unfold max_allowed in *. destruct (Mode.is_pyi (mode (self s0))).
  - destruct (previous_line x); [|discriminate].
    match goal with |- (if ?c then _ else _) = _ -> _ => destruct c end.
    { intros [= <-]. destruct (_ =? 0); lia. }
    match goal with |- rbind ?r _ = _ -> _ => destruct r as [[|]|] end; cbn [rbind];
      try discriminate.
    + intros [= <-]. destruct (_ =? 0); lia.
    + destruct (len_depth current_line =? 0); intros [= <-]; simpl; lia.
  - destruct (len_depth current_line =? 0); cbn [negb].
    + match goal with |- rbind ?r _ = _ -> _ => destruct r as [[|]|] end; cbn [rbind];
        try discriminate; intros [= <-]; lia.
    + intros [= <-]. lia.
Qed.

Lemma counted_unwind (stack : list Line.t) :
  forall before,
    0 <= before <= (max_allowed (mode (self s0)) current_line) ->
    triple (counted s0 current_line) (unwind current_line stack before)
           (fun before' s => (counted s0 current_line) s /\ 0 <= before' <= (max_allowed (mode (self s0)) current_line)) (fun _ => (counted s0 current_line)).
Proof.
  induction stack as [|top stack IH]; intros before Hb; cbn [unwind].
  - apply triple_ret. auto.
  - destruct (_ >=? _); [|apply triple_ret; auto].
    apply triple_read; intros s Hs.
    eapply triple_bind; [apply triple_lift; auto|]. intros before'. cbv beta.
    apply triple_assume_r; intros Hstep.
    eapply triple_bind with (R := fun _ => (counted s0 current_line)).
    { apply (counted_set_previous_defs (fun x => Py.del_last 1 (previous_defs x))). }
    intros _. apply IH.
    eapply unwind_step_bounded; [|exact Hb|exact Hstep].
    apply Hs.
Qed.

Lemma counted_class_or_def (before : Z) :
  0 <= before <= (max_allowed (mode (self s0)) current_line) ->
  triple (counted s0 current_line) (_maybe_empty_lines_for_class_or_def current_line before)
         (fun counts s => (counted s0 current_line) s /\ bounded (mode (self s0)) current_line counts)
         (fun _ => (counted s0 current_line)).
Proof.
  intros Hb. pose proof max_allowed_pos as Hpos.
  assert (forall s, (counted s0 current_line) s -> (counted s0 current_line) s /\ bounded (mode (self s0)) current_line (0, 0)) as Hzero.
  { intros s Hs. split; [assumption|]. unfold bounded. simpl. lia. }
  unfold _maybe_empty_lines_for_class_or_def.
  apply triple_read; intros s Hs.
  eapply triple_bind; [apply triple_lift_keep|intros cur_decorator].
  eapply triple_bind with (R := fun _ => (counted s0 current_line)).
  { apply keeps_when, (counted_set_previous_defs (fun x => previous_defs x ++ [current_line])). }
  intros _.
  destruct (previous_line (self s)) as [prev|]; [|apply triple_ret; exact Hzero].
  eapply triple_bind; [apply triple_lift_keep|intros prev_decorator].
  destruct prev_decorator.
  { eapply triple_bind; [apply triple_lift_keep|intros stub].
    destruct stub; apply triple_ret; [|exact Hzero].
    intros s' Hs'. split; [assumption|]. unfold bounded. simpl. lia. }
  eapply triple_bind; [apply triple_lift_keep|intros deeper].
  destruct deeper; [apply triple_ret; exact Hzero|].
  eapply triple_bind; [apply triple_lift; auto|]. intros [go_on hoist]. cbv beta.
  apply triple_assume_r; intros Hhoist.
  destruct (negb go_on); [apply triple_ret; exact Hzero|].
  eapply triple_bind; [apply triple_lift; auto|]. intros newlines. cbv beta.
  apply triple_assume_r; intros Hnewlines.
  assert (0 <= newlines <= (max_allowed (mode (self s0)) current_line)) as Hrange.
  { destruct Hs as (_ & Hm & _). rewrite Hm in Hnewlines.
    unfold max_allowed in *. rewrite nonempty_depth in Hnewlines.
    destruct (Mode.is_pyi (mode (self s0))).
    - match type of Hnewlines with rbind ?r _ = _ => destruct r as [[|]|] end;
        cbn [rbind] in Hnewlines; try discriminate.
      + destruct (_ <? _); [injection Hnewlines as <-; destruct (_ =? 0); lia|].
        destruct (_ >? _); [injection Hnewlines as <-; destruct (_ =? 0); lia|].
        match type of Hnewlines with rbind ?r _ = _ => destruct r as [[|]|] end;
          cbn [rbind] in Hnewlines; try discriminate;
          injection Hnewlines as <-; destruct (_ =? 0); lia.
      + match type of Hnewlines with rbind ?r _ = _ => destruct r as [[|]|] end;
          cbn [rbind] in Hnewlines; try discriminate.
        * destruct (len_depth current_line =? 0); cbn [negb] in Hnewlines;
            injection Hnewlines as <-; lia.
        * destruct (_ >? _); injection Hnewlines as <-; destruct (_ =? 0); lia.
    - injection Hnewlines as <-. destruct (len_depth current_line =? 0); simpl; lia. }
  assert (forall s', (counted s0 current_line) s' -> (counted s0 current_line) s' /\ bounded (mode (self s0)) current_line (newlines, 0))
    as Hcounts.
  { intros s' Hs'. split; [assumption|]. unfold bounded. simpl. lia. }
  destruct hoist as [c|]; [|apply triple_ret; exact Hcounts].
  destruct (LinesBlock.previous_block (blocks s c)) as [pb|];
    [|apply triple_ret; exact Hcounts].
  eapply triple_bind with (R := fun _ => (counted s0 current_line)); [|intros _; apply triple_ret; exact Hzero].
  apply (counted_set_before c (fun b => Z.max (LinesBlock.before b) newlines - _)).
  destruct Hs as (_ & _ & _ & _ & Hslc & _). rewrite <- Hslc.
  destruct (_ && _) in Hhoist; [|discriminate].
  destruct (semantic_leading_comment (self s)) as [c'|]; [|discriminate].
  destruct (LinesBlock.previous_block (blocks s c')); [|discriminate].
  match type of Hhoist with rbind ?r _ = _ => destruct r as [[|]|] end;
    cbn [rbind] in Hhoist; congruence.
Qed.

(** [_maybe_empty_lines] from its first line on. *)
Lemma counted_maybe_empty_lines :
  match _maybe_empty_lines current_line s0 with
  | Ok counts s => (counted s0 current_line) s /\ bounded (mode (self s0)) current_line counts
  | Raise _ s => (counted s0 current_line) s
  end.
Proof.
  pose proof max_allowed_pos as Hpos.
  unfold _maybe_empty_lines. unfold bind at 1. unfold get at 1.
  fold (max_allowed (mode (self s0)) current_line).
  match goal with
  | |- match bind ?first ?rest s0 with _ => _ end =>
      assert (exists before s1, first s0 = Ok before s1 /\ (counted s0 current_line) s1 /\ 0 <= before <= (max_allowed (mode (self s0)) current_line))
        as (before & s1 & Hfirst & Hs1 & Hb)
  end.
  { unfold counted, consumed.
    destruct (Line.leaves current_line) as [|first_leaf rest].
    - exists 0, s0. simpl. repeat split; auto; lia.
    - eexists _, _. split; [reflexivity|]. simpl.
      unfold Py.count_newlines. repeat split; auto; try lia. }
  unfold bind at 1. rewrite Hfirst.
  match goal with
  | |- match ?m s1 with _ => _ end =>
      assert (triple (counted s0 current_line) m (fun counts s => (counted s0 current_line) s /\ bounded (mode (self s0)) current_line counts)
                     (fun _ => (counted s0 current_line))) as Hrun
  end; [|exact (Hrun s1 Hs1)].
  eapply triple_bind; [apply counted_unwind; exact Hb|]. intros before'. cbv beta.
  apply triple_assume_r; intros Hb'.
  apply triple_read; intros s Hs.
  eapply triple_bind; [apply triple_lift_keep|intros class_or_def].
  destruct class_or_def; [apply counted_class_or_def; exact Hb'|].
  eapply triple_bind; [apply triple_lift_keep|intros after_import].
  destruct after_import.
  { apply triple_ret. intros s' Hs'. split; [assumption|]. unfold bounded. simpl.
    destruct (before' =? 0); lia. }
  eapply triple_bind; [apply triple_lift_keep|intros docstring].
  destruct docstring.
  { apply triple_ret. intros s' Hs'. split; [assumption|]. unfold bounded. simpl. lia. }
  eapply triple_bind; [apply triple_lift_keep|intros in_block].
  destruct in_block; apply triple_ret; intros s' Hs'; (split; [assumption|]);
    unfold bounded; simpl; lia.
Qed.

End Counts.

(** [maybe_empty_lines] after the counts: a new block, the semantic leading
    comment looked after, the line and the block remembered. *)
Lemma maybe_empty_lines_outcome (current_line : Line.t) (s : St) :
  match maybe_empty_lines current_line s with
  | Ok b s' =>
      exists before after s1,
        _maybe_empty_lines current_line s = Ok (before, after) s1
        /\ b = next_block s
        /\ next_block s' = next_block s + 1
        /\ heap s' = heap s1
        /\ mode (self s') = mode (self s)
        /\ previous_line (self s') = Some current_line
        /\ previous_block (self s') = Some b
        /\ previous_defs (self s') = previous_defs (self s1)
        /\ blocks s' b = LinesBlock.mk (mode (self s)) (previous_block (self s))
                                       current_line (block_before s before) [] after
        /\ (forall i, i <> b -> blocks s' i = blocks s1 i)
        /\ (semantic_leading_comment (self s') = semantic_leading_comment (self s)
            \/ (if Line.is_comment (heap s1) current_line
                then semantic_leading_comment (self s') = Some b
                else semantic_leading_comment (self s') = None))
  | Raise e s' => heap s' = consumed (heap s) current_line
  end.
Proof.
  pose proof (counted_maybe_empty_lines s current_line) as Hcounts.
  unfold maybe_empty_lines. unfold bind at 1.
  destruct (_maybe_empty_lines current_line s) as [[before after] s1|e s1];
    [|apply Hcounts].
  destruct Hcounts as ((Hh & Hm & Hl & Hb & Hslc & Hn & Hothers & Hsame) & _).
  unfold bind at 1. unfold get at 1.
  unfold bind at 1. unfold new_block at 1. unfold bind at 1, get at 1.
  unfold bind at 1. unfold modify at 1. unfold ret at 1.
  cbn [heap self blocks next_block].
  fold (previous_after s1).
  assert (previous_after s1 = previous_after s) as ->.
  { unfold previous_after. rewrite Hb.
    destruct (previous_block (self s)) as [pb|]; [|reflexivity].
    pose proof (Hsame pb) as Hpb. unfold LinesBlock.set_before in Hpb.
    now injection Hpb. }
  rewrite Hl. fold (block_before s before).
  set (s2 := mkSt _ _ _ _).
  unfold bind at 1.
  match goal with
  | |- match match ?m s2 with _ => _ end with _ => _ end =>
      assert (match m s2 with
              | Ok _ s3 =>
                  heap s3 = heap s2 /\ blocks s3 = blocks s2 /\ next_block s3 = next_block s2
                  /\ mode (self s3) = mode (self s2)
                  /\ previous_defs (self s3) = previous_defs (self s2)
                  /\ (semantic_leading_comment (self s3) = semantic_leading_comment (self s2)
                      \/ (if Line.is_comment (heap s1) current_line
                          then semantic_leading_comment (self s3) = Some (next_block s1)
                          else semantic_leading_comment (self s3) = None))
              | Raise _ s3 => heap s3 = heap s2
              end) as Hslc3; [|destruct (m s2) as [[] s3|e s3]]
  end.
  { destruct (Line.is_comment (heap s1) current_line).
    - match goal with |- match bind (lift ?r) _ s2 with _ => _ end => destruct r as [[|]|] end;
        simpl; auto 10.
    - match goal with |- match bind (lift ?r) _ s2 with _ => _ end => destruct r as [[|]|] end;
        simpl; auto 10. }
  - destruct Hslc3 as (Hh3 & Hb3 & Hn3 & Hm3 & Hd3 & Hs3).
    simpl. exists before, after, s1. rewrite Hb3, Hh3, Hn3, Hm3, Hd3. subst s2. simpl.
    rewrite Z.eqb_refl, Hn, Hm, Hb. repeat split; try reflexivity.
    + intros i Hi. destruct (Z.eqb_spec (next_block s) i); [congruence|reflexivity].
    + rewrite <- Hn, <- Hslc. simpl in Hs3. exact Hs3.
  - simpl. rewrite Hslc3. subst s2. simpl. exact Hh.
Qed.

Lemma consumed_same (h : Heap) (current_line : Line.t) (x : LeafID) :
  Leaf.type (consumed h current_line x) = Leaf.type (h x)
  /\ Leaf.value (consumed h current_line x) = Leaf.value (h x).
Proof.
  unfold consumed. destruct (Line.leaves current_line) as [|first rest]; [auto|].
  unfold upd. destruct (Z.eqb_spec first x) as [->|]; auto.
Qed.

Lemma first_leaf_is_ext (f g : LeafID -> bool) (l : Line.t) :
  (forall x, f x = g x) -> Line.first_leaf_is f l = Line.first_leaf_is g l.
Proof.
  intros Hfg. unfold Line.first_leaf_is.
  destruct (Line.__bool__ l); [|reflexivity]. cbn [and_then].
  destruct (Line.leaves l); [reflexivity|]. now rewrite Hfg.
Qed.

Lemma is_decorator_consumed (h : Heap) (current_line l : Line.t) :
  Line.is_decorator (consumed h current_line) l = Line.is_decorator h l.
Proof.
  apply first_leaf_is_ext. intros x. now destruct (consumed_same h current_line x) as [-> _].
Qed.

Lemma is_class_consumed (h : Heap) (current_line l : Line.t) :
  Line.is_class (consumed h current_line) l = Line.is_class h l.
Proof.
  apply first_leaf_is_ext. intros x. now destruct (consumed_same h current_line x) as [-> ->].
Qed.

Lemma is_triple_quoted_string_consumed (h : Heap) (current_line l : Line.t) :
  Line.is_triple_quoted_string (consumed h current_line) l
  = Line.is_triple_quoted_string h l.
Proof.
  apply first_leaf_is_ext. intros x. now destruct (consumed_same h current_line x) as [-> ->].
Qed.

Lemma is_stub_class_consumed (h : Heap) (current_line l : Line.t) :
  Line.is_stub_class (consumed h current_line) l = Line.is_stub_class h l.
Proof.
  unfold Line.is_stub_class. rewrite is_class_consumed.
  destruct (Line.is_class h l); [|reflexivity]. cbn [rbind]. do 2 f_equal.
  induction (Py.last_slice 3 (Line.leaves l)) as [|x ls IH]; [reflexivity|].
  cbn [forallb]. rewrite IH. f_equal. unfold Line.is_dot.
  now destruct (consumed_same h current_line x) as [-> ->].
Qed.

Lemma is_def_consumed (h : Heap) (current_line l : Line.t) :
  Line.is_def (consumed h current_line) l = Line.is_def h l.
Proof.
  unfold consumed. destruct (Line.leaves current_line); [reflexivity|].
  apply is_def_clear_prefix.
Qed.

Lemma is_comment_consumed (h : Heap) (current_line l : Line.t) :
  Line.is_comment (consumed h current_line) l = Line.is_comment h l.
Proof.
  unfold Line.is_comment. destruct (Line.leaves l) as [|x [|]]; try reflexivity.
  now destruct (consumed_same h current_line x) as [-> _].
Qed.

Lemma opens_block_consumed (h : Heap) (current_line l : Line.t) :
  Line.opens_block (consumed h current_line) l = Line.opens_block h l.
Proof.
  unfold Line.opens_block. destruct (Py.neg_index (Line.leaves l) 1) as [x|]; [|reflexivity].
  now destruct (consumed_same h current_line x) as [-> _].
Qed.

Lemma first_leaf_is_returns (test : LeafID -> bool) (l : Line.t) :
  Line.leaves l <> [] -> exists b, Line.first_leaf_is test l = Return b.
Proof. intros Hl. apply first_leaf_is_total. intros Hnil. contradiction. Qed.

Lemma is_stub_class_returns (h : Heap) (l : Line.t) :
  Line.leaves l <> [] -> exists b, Line.is_stub_class h l = Return b.
Proof.
  intros Hl. unfold Line.is_stub_class, Line.is_class.
  destruct (first_leaf_is_returns
              (fun x => type_eqb (Leaf.type (h x)) NAME
                        && String.eqb (Leaf.value (h x)) "class") l Hl) as [c ->].
  eexists; reflexivity.
Qed.

(** One turn of the [while] loop returns on the lines a tracker is fed. *)
Lemma unwind_step_total (h : Heap) (x : t) (current_line top : Line.t) (before : Z) :
  Line.leaves current_line <> [] ->
  (Mode.is_pyi (mode x) = true -> previous_line x <> None /\ Line.leaves top <> []) ->
  exists before', unwind_step h x current_line top before = Return before'.
Proof.
  intros Hcur Hpyi. unfold unwind_step.
  destruct (Mode.is_pyi (mode x)).
  - destruct (Hpyi eq_refl) as [Hprev Htop].
    destruct (previous_line x) as [prev|]; [|contradiction].
    match goal with |- exists b, (if ?c then _ else _) = _ => destruct c end; [eauto|].
    unfold Line.is_class.
    destruct (first_leaf_is_returns
                (fun x => type_eqb (Leaf.type (h x)) NAME
                          && String.eqb (Leaf.value (h x)) "class") top Htop) as [c Hc].
    destruct (is_stub_class_returns h top Htop) as [st Hst].
    unfold Line.is_class in Hst. rewrite Hc, Hst.
    destruct (mode_contains _ _), c, st; cbn;
      try destruct (nonempty (Line.depth current_line)); eauto.
  - destruct (nonempty (Line.depth current_line)); [eauto|].
    destruct (Line.leaves current_line) as [|first rest] eqn:Hl; [contradiction|].
    destruct (neg_index_last_exists first rest) as [last ->].
    cbn [negb andb]. destruct (nonempty (Line.depth top)); cbn [and_then rbind]; [|eauto].
    match goal with |- exists b, (if ?c then _ else _) = _ => destruct c end; eauto.
Qed.

Lemma with_defs_with_defs (ds ds' : list Line.t) (s : St) :
  with_defs ds' (with_defs ds s) = with_defs ds' s.
Proof. reflexivity. Qed.

Lemma unwind_total (current_line : Line.t) (stack : list Line.t) :
  forall (s : St) (before : Z),
    Line.leaves current_line <> [] ->
    (Mode.is_pyi (mode (self s)) = true ->
     previous_line (self s) <> None /\ Forall (fun d => Line.leaves d <> []) stack) ->
    exists before' ds',
      unwind current_line stack before s = Ok before' (with_defs ds' s).
Proof.
  induction stack as [|top stack IH]; intros s before Hcur Hpyi; cbn [unwind].
  - exists before, (previous_defs (self s)). destruct s as [h b n [? ? ? ? ?]]. reflexivity.
  - destruct (_ >=? _).
    2:{ exists before, (previous_defs (self s)). destruct s as [h b n [? ? ? ? ?]]. reflexivity. }
    unfold bind at 1. unfold get at 1.
    destruct (unwind_step_total (heap s) (self s) current_line top before Hcur)
      as [before' Hstep].
    { intros Hp. destruct (Hpyi Hp) as [Hprev Hstack]. split; [assumption|].
      now inversion Hstack. }
    rewrite Hstep. cbn [lift]. rewrite bind_ret.
    unfold bind at 1. cbn [on_self modify].
    fold (with_defs (Py.del_last 1 (previous_defs (self s))) s).
    destruct (IH (with_defs (Py.del_last 1 (previous_defs (self s))) s) before' Hcur)
      as (before'' & ds' & Hrest).
    { simpl. intros Hp. destruct (Hpyi Hp) as [Hprev Hstack]. split; [assumption|].
      now inversion Hstack. }
    rewrite Hrest. exists before'', ds'. reflexivity.
Qed.

(** [_maybe_empty_lines] up to the end of the [while] loop. *)
Lemma maybe_empty_lines_unwound (current_line : Line.t) (s : St) :
  well_fed s current_line ->
  exists before ds,
    0 <= before <= max_allowed (mode (self s)) current_line
    /\ _maybe_empty_lines current_line s
       = (s <- get ;;
          let h := heap s in
          class_or_def <- lift (either (Line.is_decorator h current_line)
                                  (either (Return (Line.is_def h current_line))
                                          (Line.is_class h current_line))) ;;
          if class_or_def then _maybe_empty_lines_for_class_or_def current_line before
          else
            after_import <- lift
              (both (previous_line_and (self s) (Line.is_import h))
                 (both (non (Line.is_import h current_line))
                    (Return (negb (Line.is_fmt_pass_converted h current_line
                                                              (Some (is_import h)))
                             && match previous_line (self s) with
                                | Some prev => len_depth current_line =? len_depth prev
                                | None => false
                                end)))) ;;
            if after_import then ret (if before =? 0 then 1 else before, 0)
            else
              docstring <- lift
                (both (previous_line_and (self s) (Line.is_class h))
                      (Line.is_triple_quoted_string h current_line)) ;;
              if docstring then ret (before, 1)
              else
                in_block <- lift
                  (previous_line_and (self s) (fun pl => Return (Line.opens_block h pl))) ;;
                if in_block then ret (0, 0) else ret (before, 0))
           (with_defs ds (after_prefix current_line s)).
Proof.
  intros [Hcur Hpyi].
  unfold _maybe_empty_lines. unfold bind at 1. unfold get at 1.
  match goal with
  | |- exists before ds, _ /\ bind ?first ?rest s = _ =>
      assert (exists before0, first s = Ok before0 (after_prefix current_line s)
                              /\ 0 <= before0 <= max_allowed (mode (self s)) current_line)
        as (before0 & Hfirst & Hb0)
  end.
  { unfold after_prefix, consumed.
    destruct (Line.leaves current_line) as [|first_leaf rest]; [contradiction|].
    eexists. split; [reflexivity|]. unfold Py.count_newlines.
    pose proof (max_allowed_pos s current_line). fold (max_allowed (mode (self s)) current_line).
    lia. }
  unfold bind at 1. rewrite Hfirst.
  destruct (unwind_total current_line (rev (previous_defs (self s)))
                         (after_prefix current_line s) before0 Hcur)
    as (before & ds & Hunwind).
  { simpl. intros Hp. destruct (Hpyi Hp). split; [assumption|]. now apply Forall_rev. }
  pose proof (counted_unwind s current_line (rev (previous_defs (self s))) before0 Hb0
                             (after_prefix current_line s)) as Hbound.
  rewrite Hunwind in Hbound.
  exists before, ds. split.
  - apply Hbound. unfold counted, after_prefix. simpl. auto 10.
  - unfold bind at 1. rewrite Hunwind. reflexivity.
Qed.

Lemma bool_of_leaves (l : Line.t) : Line.leaves l <> [] -> Line.__bool__ l = true.
Proof. unfold Line.__bool__. destruct (Line.leaves l); [contradiction|reflexivity]. Qed.

Lemma is_decorator_returns (h : Heap) (l : Line.t) :
  Line.leaves l <> [] -> exists d, Line.is_decorator h l = Return d.
Proof. apply first_leaf_is_returns. Qed.

Lemma is_class_returns (h : Heap) (l : Line.t) :
  Line.leaves l <> [] -> exists d, Line.is_class h l = Return d.
Proof. apply first_leaf_is_returns. Qed.

(** From the counts to the block, on lines with leaves. *)
Lemma block_of_counts (current_line prev : Line.t) (s s1 : St) (before after : Z) :
  previous_line (self s) = Some prev ->
  Line.leaves current_line <> [] -> Line.leaves prev <> [] ->
  _maybe_empty_lines current_line s = Ok (before, after) s1 ->
  exists b s', maybe_empty_lines current_line s = Ok b s'
               /\ LinesBlock.before (blocks s' b) = before - previous_after s
               /\ LinesBlock.after (blocks s' b) = after.
Proof.
  intros Hline Hcur Hprev Hrun.
  destruct (maybe_empty_lines_returns current_line s s1 _ _ Hrun)
    as (s' & Hret & Hbefore & Hafter).
  - now apply is_decorator_returns.
  - intros prev' Hprev'. rewrite Hline in Hprev'. injection Hprev' as <-.
    now apply is_decorator_returns.
  - exists (next_block s1), s'. split; [assumption|]. split; [|assumption].
    rewrite Hbefore. unfold block_before. now rewrite Hline.
Qed.

(** What decorates or defines: the first test of [_maybe_empty_lines]. *)
Lemma class_or_def_test (h : Heap) (l : Line.t) :
  Line.leaves l <> [] ->
  exists d c,
    Line.is_decorator h l = Return d /\ Line.is_class h l = Return c
    /\ either (Line.is_decorator h l)
              (either (Return (Line.is_def h l)) (Line.is_class h l))
       = Return (d || Line.is_def h l || c).
Proof.
  intros Hl. destruct (is_decorator_returns h l Hl) as [d Hd].
  destruct (is_class_returns h l Hl) as [c Hc].
  exists d, c. rewrite Hd, Hc. repeat split.
  destruct d; [reflexivity|]. simpl. destruct (Line.is_def h l); reflexivity.
Qed.

(** X25: The line after a decorator gets no blank line before it, whichever of a
    decorator, a [def] and a [class] it is; in a stub file a stub class gets
    one after it. *)
Theorem no_blank_line_after_a_decorator (s : St) (current_line prev : Line.t) :
  well_fed s current_line ->
  previous_line (self s) = Some prev ->
  Line.is_decorator (heap s) prev = Return true ->
  Line.is_decorator (heap s) current_line = Return true
  \/ Line.is_def (heap s) current_line = true
  \/ Line.is_class (heap s) current_line = Return true ->
  exists stub after,
    Line.is_stub_class (heap s) current_line = Return stub
    /\ after = (if Mode.is_pyi (mode (self s)) && stub then 1 else 0)
    /\ (exists s1, _maybe_empty_lines current_line s = Ok (0, after) s1)
    /\ exists b s', maybe_empty_lines current_line s = Ok b s'
                    /\ LinesBlock.before (blocks s' b) = - previous_after s
                    /\ LinesBlock.after (blocks s' b) = after.
Proof.
  intros Hfed Hline Hprev Hkind.
  assert (Line.leaves prev <> []) as Hprev_leaves.
  { intros Hnil. unfold Line.is_decorator, Line.first_leaf_is, Line.__bool__ in Hprev.
    rewrite Hnil in Hprev. destruct (Line.comments prev); discriminate. }
  pose proof Hfed as [Hcur _].
  destruct (is_stub_class_returns (heap s) current_line Hcur) as [stub Hstub].
  exists stub, (if Mode.is_pyi (mode (self s)) && stub then 1 else 0).
  split; [assumption|]. split; [reflexivity|].
  assert (exists s1, _maybe_empty_lines current_line s
                     = Ok (0, if Mode.is_pyi (mode (self s)) && stub then 1 else 0) s1)
    as [s1 Hrun].
  { destruct (maybe_empty_lines_unwound current_line s Hfed) as (before & ds & _ & ->).
    unfold bind at 1. unfold get at 1. cbn [heap with_defs after_prefix].
    destruct (class_or_def_test (consumed (heap s) current_line) current_line Hcur)
      as (d & c & Hd & Hc & ->).
    rewrite is_decorator_consumed in Hd. rewrite is_class_consumed in Hc.
    rewrite is_def_consumed.
    assert (d || Line.is_def (heap s) current_line || c = true) as ->.
    { destruct Hkind as [Hk|[Hk|Hk]].
      - rewrite Hk in Hd. injection Hd as <-. reflexivity.
      - rewrite Hk. now rewrite orb_true_r.
      - rewrite Hk in Hc. injection Hc as <-. now rewrite orb_true_r. }
    cbn [lift]. rewrite bind_ret.
    unfold _maybe_empty_lines_for_class_or_def. unfold bind at 1. unfold get at 1.
    cbn [heap self with_defs after_prefix set_previous_defs previous_line mode].
    rewrite Hline. cbv beta iota.
    rewrite !is_decorator_consumed, is_stub_class_consumed, Hd, Hprev, Hstub.
    destruct d, (Mode.is_pyi (mode (self s))), stub; eexists; reflexivity. }
  split; [eauto|].
  destruct (block_of_counts current_line prev s s1 _ _ Hline Hcur Hprev_leaves Hrun)
    as (b & s' & Hret & Hbefore & Hafter).
  exists b, s'. split; [assumption|]. split; [|assumption]. rewrite Hbefore. lia.
Qed.

Lemma previous_line_and_some (x : t) (prev : Line.t) (test : Line.t -> result bool) :
  previous_line x = Some prev -> Line.leaves prev <> [] ->
  previous_line_and x test = test prev.
Proof.
  intros Hline Hprev. unfold previous_line_and.
  rewrite Hline, (bool_of_leaves _ Hprev). reflexivity.
Qed.

Lemma plain_statement_test (h : Heap) (current_line l : Line.t) :
  plain_statement h l ->
  either (Line.is_decorator (consumed h current_line) l)
         (either (Return (Line.is_def (consumed h current_line) l))
                 (Line.is_class (consumed h current_line) l))
  = Return false.
Proof.
  intros (Hd & Hf & Hc).
  rewrite is_decorator_consumed, is_def_consumed, is_class_consumed, Hd, Hf, Hc.
  reflexivity.
Qed.

(** X26: After an import line, a line of the same depth that is neither an import
    nor a definition gets one blank line at least, and no more than its depth
    allows. *)
Theorem blank_line_after_imports (s : St) (current_line prev : Line.t) :
  well_fed s current_line ->
  previous_line (self s) = Some prev ->
  Line.leaves prev <> [] ->
  plain_statement (heap s) current_line ->
  Line.is_import (consumed (heap s) current_line) prev = Return true ->
  Line.is_import (consumed (heap s) current_line) current_line = Return false ->
  Line.is_fmt_pass_converted (consumed (heap s) current_line) current_line
                             (Some (is_import (consumed (heap s) current_line)))
  = false ->
  len_depth current_line = len_depth prev ->
  exists before,
    1 <= before <= max_allowed (mode (self s)) current_line
    /\ (exists s1, _maybe_empty_lines current_line s = Ok (before, 0) s1)
    /\ exists b s', maybe_empty_lines current_line s = Ok b s'
                    /\ LinesBlock.before (blocks s' b) = before - previous_after s
                    /\ LinesBlock.after (blocks s' b) = 0.
Proof.
  intros Hfed Hline Hprev Hplain Himport Hcur Hfmt Hdepth.
  pose proof Hfed as [Hleaves _].
  destruct (maybe_empty_lines_unwound current_line s Hfed) as (before & ds & Hb & Hrun).
  exists (if before =? 0 then 1 else before).
  assert (_maybe_empty_lines current_line s
          = Ok (if before =? 0 then 1 else before, 0)
               (with_defs ds (after_prefix current_line s))) as Hcounts.
  { rewrite Hrun. unfold bind at 1. unfold get at 1.
    cbn [heap self with_defs after_prefix].
    rewrite (plain_statement_test _ _ _ Hplain). cbn [lift]. rewrite bind_ret.
    cbv iota.
    rewrite (previous_line_and_some _ prev) by (simpl; assumption).
    simpl previous_line. rewrite Hline, Himport, Hcur, Hfmt, Hdepth, Z.eqb_refl.
    reflexivity. }
  pose proof (max_allowed_pos s current_line) as Hpos.
  split; [destruct (Z.eqb_spec before 0); lia|]. split; [eauto|].
  exact (block_of_counts current_line prev s _ _ _ Hline Hleaves Hprev Hcounts).
Qed.

(** X27: The first line of a block gets no blank line before it: after a line
    that ends in a colon, a line that is no definition and no docstring (nor
    comes after an import) has the counts [(0, 0)]. *)
Theorem no_blank_line_at_the_start_of_a_block (s : St) (current_line prev : Line.t) :
  well_fed s current_line ->
  previous_line (self s) = Some prev ->
  Line.leaves prev <> [] ->
  Line.opens_block (heap s) prev = true ->
  plain_statement (heap s) current_line ->
  Line.is_import (consumed (heap s) current_line) prev = Return false ->
  Line.is_triple_quoted_string (heap s) current_line = Return false ->
  (exists s1, _maybe_empty_lines current_line s = Ok (0, 0) s1)
  /\ exists b s', maybe_empty_lines current_line s = Ok b s'
                  /\ LinesBlock.before (blocks s' b) = - previous_after s
                  /\ LinesBlock.after (blocks s' b) = 0.
Proof.
  intros Hfed Hline Hprev Hopens Hplain Himport Hstring.
  pose proof Hfed as [Hleaves _].
  destruct (maybe_empty_lines_unwound current_line s Hfed) as (before & ds & Hb & Hrun).
  assert (_maybe_empty_lines current_line s
          = Ok (0, 0) (with_defs ds (after_prefix current_line s))) as Hcounts.
  { rewrite Hrun. unfold bind at 1. unfold get at 1.
    cbn [heap self with_defs after_prefix].
    rewrite (plain_statement_test _ _ _ Hplain). cbn [lift]. rewrite bind_ret.
    cbv iota.
    rewrite !(previous_line_and_some _ prev) by (simpl; assumption).
    rewrite Himport, is_triple_quoted_string_consumed, Hstring, opens_block_consumed, Hopens.
    destruct (is_class_returns (consumed (heap s) current_line) prev Hprev) as [c ->].
    destruct c; reflexivity. }
  split; [eauto|].
  destruct (block_of_counts current_line prev s _ _ _ Hline Hleaves Hprev Hcounts)
    as (b & s' & Hret & Hbefore & Hafter).
  exists b, s'. split; [assumption|]. split; [|assumption]. rewrite Hbefore. lia.
Qed.

Lemma triple_quoted_is_plain (h : Heap) (l : Line.t) :
  Line.is_triple_quoted_string h l = Return true -> plain_statement h l.
Proof.
  unfold Line.is_triple_quoted_string, Line.first_leaf_is. intros Hstring.
  destruct (Line.__bool__ l) eqn:Hbool; [|discriminate]. cbn [and_then] in Hstring.
  destruct (Line.leaves l) as [|x rest] eqn:Hl; [discriminate|].
  injection Hstring as Hstring. apply andb_prop in Hstring as [Hty _].
  apply type_eqb_eq in Hty.
  unfold plain_statement, Line.is_decorator, Line.is_class, Line.is_def.
  rewrite !(first_leaf_is_with_leaves _ _ _ _ Hl), Hl, Hty. auto.
Qed.

(** The [while] loop does not run when the definition on top of the stack is
    less deep than the line. *)
Lemma unwind_shallow (current_line : Line.t) (defs : list Line.t) (before : Z) (s : St) :
  (forall top, Py.neg_index defs 1 = Some top -> len_depth top < len_depth current_line) ->
  unwind current_line (rev defs) before s = Ok before s.
Proof.
  intros Htop. destruct defs as [|d defs] using rev_ind; [reflexivity|].
  rewrite rev_app_distr. cbn [rev app unwind].
  assert (len_depth d < len_depth current_line) as Hd.
  { apply Htop. unfold Py.neg_index. rewrite length_app. cbn [List.length].
    destruct (Nat.ltb_spec (List.length defs + 1) 1); [lia|].
    replace (List.length defs + 1 - 1)%nat with (List.length defs) by lia.
    rewrite nth_error_app2, Nat.sub_diag by lia. reflexivity. }
  assert ((len_depth d >=? len_depth current_line) = false) as ->; [|reflexivity].
  rewrite Z.geb_leb. apply Z.leb_gt. exact Hd.
Qed.

(** X28: A docstring right after the [class] line gets one blank line after it.
    Before it, it gets a count within what its depth allows; and when the
    definition on top of the stack (the class, in a run over a file) is less
    deep than the docstring, that count is the number of newlines the source
    has in front of the docstring, capped by what its depth allows. *)
Theorem blank_line_after_class_docstring (s : St) (current_line prev : Line.t) :
  well_fed s current_line ->
  previous_line (self s) = Some prev ->
  Line.is_class (heap s) prev = Return true ->
  Line.is_triple_quoted_string (heap s) current_line = Return true ->
  Line.is_import (consumed (heap s) current_line) prev = Return false ->
  exists before,
    0 <= before <= max_allowed (mode (self s)) current_line
    /\ (exists s1, _maybe_empty_lines current_line s = Ok (before, 1) s1)
    /\ (exists b s', maybe_empty_lines current_line s = Ok b s'
                     /\ LinesBlock.before (blocks s' b) = before - previous_after s
                     /\ LinesBlock.after (blocks s' b) = 1)
    /\ (forall first_leaf rest,
           Line.leaves current_line = first_leaf :: rest ->
           (forall top, Py.neg_index (previous_defs (self s)) 1 = Some top ->
                        len_depth top < len_depth current_line) ->
           before = Z.min (Py.count_newlines (Leaf.prefix (heap s first_leaf)))
                          (max_allowed (mode (self s)) current_line)).
Proof.
  intros Hfed Hline Hclass Hstring Himport.
  pose proof Hfed as [Hleaves _].
  assert (Line.leaves prev <> []) as Hprev.
  { intros Hnil. unfold Line.is_class, Line.first_leaf_is, Line.__bool__ in Hclass.
    rewrite Hnil in Hclass. destruct (Line.comments prev); discriminate. }
  destruct (maybe_empty_lines_unwound current_line s Hfed) as (before & ds & Hb & Hrun).
  exists before. split; [assumption|].
  assert (forall before0 s0,
             heap s0 = consumed (heap s) current_line ->
             previous_line (self s0) = previous_line (self s) ->
             (class_or_def <- lift (either (Line.is_decorator (heap s0) current_line)
                                     (either (Return (Line.is_def (heap s0) current_line))
                                             (Line.is_class (heap s0) current_line))) ;;
              if class_or_def
              then _maybe_empty_lines_for_class_or_def current_line before0
              else
                after_import <- lift
                  (both (previous_line_and (self s0) (Line.is_import (heap s0)))
                     (both (non (Line.is_import (heap s0) current_line))
                        (Return (negb (Line.is_fmt_pass_converted
                                         (heap s0) current_line
                                         (Some (is_import (heap s0))))
                                 && match previous_line (self s0) with
                                    | Some prev =>
                                        len_depth current_line =? len_depth prev
                                    | None => false
                                    end)))) ;;
                if after_import then ret (if before0 =? 0 then 1 else before0, 0)
                else
                  docstring <- lift
                    (both (previous_line_and (self s0) (Line.is_class (heap s0)))
                          (Line.is_triple_quoted_string (heap s0) current_line)) ;;
                  if docstring then ret (before0, 1)
                  else
                    in_block <- lift
                      (previous_line_and (self s0)
                         (fun pl => Return (Line.opens_block (heap s0) pl))) ;;
                    if in_block then ret (0, 0) else ret (before0, 0)) s0
             = Ok (before0, 1) s0) as Hrest.
  { intros before0 s0 Hheap Hprevious. rewrite Hheap.
    rewrite (plain_statement_test _ _ _ (triple_quoted_is_plain _ _ Hstring)).
    cbn [lift]. rewrite bind_ret.
    rewrite !(previous_line_and_some _ prev) by (rewrite ?Hprevious; assumption).
    rewrite Himport, is_triple_quoted_string_consumed, Hstring, is_class_consumed, Hclass.
    reflexivity. }
  assert (_maybe_empty_lines current_line s
          = Ok (before, 1) (with_defs ds (after_prefix current_line s))) as Hcounts.
  { rewrite Hrun. unfold bind at 1. unfold get at 1. apply Hrest; reflexivity. }
  split; [eauto|]. split.
  - exact (block_of_counts current_line prev s _ _ _ Hline Hleaves Hprev Hcounts).
  - intros first_leaf rest Hl Htop.
    assert (_maybe_empty_lines current_line s
            = Ok (Z.min (Py.count_newlines (Leaf.prefix (heap s first_leaf)))
                        (max_allowed (mode (self s)) current_line), 1)
                 (after_prefix current_line s)) as Hdirect.
    { unfold _maybe_empty_lines. unfold bind at 1. unfold get at 1. rewrite Hl.
      unfold bind at 1. unfold bind at 1. cbn [on_leaf modify ret].
      assert (mkSt (upd (heap s) first_leaf (Leaf.set_prefix "" (heap s first_leaf)))
                   (blocks s) (next_block s) (self s)
              = after_prefix current_line s) as ->.
      { unfold after_prefix, consumed. now rewrite Hl. }
      unfold bind at 1. rewrite (unwind_shallow _ _ _ _ Htop).
      unfold bind at 1. unfold get at 1. apply Hrest; reflexivity. }
    rewrite Hcounts in Hdirect. now injection Hdirect.
Qed.

Lemma comment_is_not_decorator (h : Heap) (l : Line.t) :
  Line.is_comment h l = true -> Line.is_decorator h l = Return false.
Proof.
  unfold Line.is_comment. destruct (Line.leaves l) as [|x [|]] eqn:Hl; try discriminate.
  intros Hty. apply type_eqb_eq in Hty.
  unfold Line.is_decorator. rewrite (first_leaf_is_with_leaves _ _ _ _ Hl), Hty.
  reflexivity.
Qed.

(** X29: A [def] right under a comment, outside stubs: the blank lines the [def]
    is due go in front of the semantic leading comment.  With no blank line
    between the comment and the [def] and nothing on the stack of
    definitions, the counts of the [def] are [(0, 0)] and the block of the
    leading comment, already returned, has its [before] raised to what the
    [def] is due, less the [after] of the block before the comment; no other
    block changes. *)
Theorem blank_lines_move_before_leading_comment
        (s : St) (current_line prev : Line.t) (c pb : BlockID)
        (first_leaf : LeafID) (rest : list LeafID) :
  Mode.is_pyi (mode (self s)) = false ->
  previous_line (self s) = Some prev ->
  previous_defs (self s) = [] ->
  Line.leaves current_line = first_leaf :: rest ->
  Py.count_newlines (Leaf.prefix (heap s first_leaf)) = 0 ->
  Line.is_def (heap s) current_line = true ->
  Line.is_comment (heap s) prev = true ->
  len_depth prev = len_depth current_line ->
  semantic_leading_comment (self s) = Some c ->
  LinesBlock.previous_block (blocks s c) = Some pb ->
  Line.is_class (heap s) (LinesBlock.original_line (blocks s pb)) = Return false ->
  Line.opens_block (heap s) (LinesBlock.original_line (blocks s pb)) = false ->
  LinesBlock.before (blocks s c) <= 1 ->
  exists s1,
    _maybe_empty_lines current_line s = Ok (0, 0) s1
    /\ LinesBlock.before (blocks s1 c)
       = Z.max (LinesBlock.before (blocks s c))
               (if nonempty (Line.depth current_line) then 1 else 2)
         - LinesBlock.after (blocks s pb)
    /\ LinesBlock.after (blocks s1 c) = LinesBlock.after (blocks s c)
    /\ (forall i, i <> c -> blocks s1 i = blocks s i).
Proof.
  intros Hpyi Hline Hdefs Hl Hcount Hdef Hcomment Hdepth Hslc Hpb Hclass Hopens Hbefore.
  unfold _maybe_empty_lines. unfold bind at 1. unfold get at 1.
  rewrite Hl, Hdefs, Hcount, Hpyi. cbn [rev].
  assert (Z.min 0 (if len_depth current_line =? 0 then 2 else 1) = 0) as ->
      by (destruct (_ =? 0); reflexivity).
  unfold bind at 1. unfold bind at 1. cbn [on_leaf modify ret unwind].
  unfold bind at 1. cbn [ret].
  unfold bind at 1. unfold get at 1. cbn [heap].
  assert (upd (heap s) first_leaf (Leaf.set_prefix "" (heap s first_leaf))
          = consumed (heap s) current_line) as ->
      by (unfold consumed; now rewrite Hl).
  set (h := consumed (heap s) current_line).
  rewrite (def_is_not_decorator h current_line) by (subst h; now rewrite is_def_consumed).
  assert (Line.is_def h current_line = true) as -> by (subst h; now rewrite is_def_consumed).
  cbn [either rbind lift]. rewrite bind_ret.
  unfold _maybe_empty_lines_for_class_or_def. unfold bind at 1. unfold get at 1.
  cbn [heap self blocks]. fold h.
  rewrite (def_is_not_decorator h current_line) by (subst h; now rewrite is_def_consumed).
  cbn [lift]. rewrite bind_ret.
  unfold bind at 1. cbn [negb when on_self modify].
  rewrite Hline. cbv beta iota.
  rewrite (comment_is_not_decorator h prev) by (subst h; now rewrite is_comment_consumed).
  cbn [lift]. rewrite bind_ret. cbv iota.
  rewrite Hdepth, Z.ltb_irrefl. cbn [and_then lift]. rewrite bind_ret. cbv iota.
  assert (Line.is_comment h prev = true) as -> by (subst h; now rewrite is_comment_consumed).
  rewrite Z.eqb_refl. cbn [andb Z.eqb].
  rewrite Hslc, Hpb.
  assert (Line.is_class h (LinesBlock.original_line (blocks s pb)) = Return false) as ->
      by (subst h; now rewrite is_class_consumed).
  assert (Line.opens_block h (LinesBlock.original_line (blocks s pb)) = false) as ->
      by (subst h; now rewrite opens_block_consumed).
  apply Z.leb_le in Hbefore. rewrite Hbefore.
  cbn [non both rbind negb andb lift]. rewrite bind_ret. cbv beta iota. cbn [negb].
  cbn [mode self set_previous_defs]. rewrite Hpyi. cbn [lift]. rewrite bind_ret.
  rewrite Hpb. unfold bind at 1. cbn [on_block modify ret].
  eexists. split; [reflexivity|]. cbn [blocks]. rewrite Z.eqb_refl.
  split; [reflexivity|]. split; [reflexivity|].
  intros i Hi. destruct (Z.eqb_spec c i); [congruence|reflexivity].
Qed.

(** X22: The counts of [_maybe_empty_lines] are never negative; [before] is at
    most two at module level outside stubs and at most one otherwise, and
    [after] is at most one.  So the block [maybe_empty_lines] returns after a
    block with [after] of zero or one has [before] between [-1] and that
    maximum. *)
Theorem blank_line_counts_are_bounded (s : St) (current_line : Line.t) :
  (forall before after s1,
      _maybe_empty_lines current_line s = Ok (before, after) s1 ->
      0 <= before <= max_allowed (mode (self s)) current_line /\ 0 <= after <= 1)
  /\ (forall b s',
         maybe_empty_lines current_line s = Ok b s' ->
         0 <= LinesBlock.after (blocks s' b) <= 1
         /\ (0 <= previous_after s <= 1 ->
             -1 <= LinesBlock.before (blocks s' b)
                <= max_allowed (mode (self s)) current_line)).
Proof.
  pose proof (counted_maybe_empty_lines s current_line) as Hcounts.
  assert (forall before after s1,
             _maybe_empty_lines current_line s = Ok (before, after) s1 ->
             0 <= before <= max_allowed (mode (self s)) current_line /\ 0 <= after <= 1)
    as Hbounded.
  { intros before after s1 Hrun. rewrite Hrun in Hcounts. apply Hcounts. }
  split; [exact Hbounded|].
  intros b s' Hret.
  apply maybe_empty_lines_returned in Hret as (before & after & s1 & Hrun & -> & ->).
  destruct (Hbounded _ _ _ Hrun) as [Hb Ha]. split; [assumption|].
  pose proof (max_allowed_pos s current_line) as Hpos.
  intros Hprev. unfold block_before. destruct (previous_line (self s)); lia.
Qed.

(** X23: The tracker consumes the newlines in front of the line it is given, and
    touches nothing else in the leaf store: whether [maybe_empty_lines]
    returns or raises, the prefix of the first leaf of the line is empty
    afterwards and every other attribute of every leaf is what it was. *)
Theorem maybe_empty_lines_consumes_prefix (s : St) (current_line : Line.t) :
  heap (final_state (maybe_empty_lines current_line s))
  = consumed (heap s) current_line
  /\ heap (final_state (_maybe_empty_lines current_line s))
     = consumed (heap s) current_line
  /\ (forall first_leaf rest,
         Line.leaves current_line = first_leaf :: rest ->
         consumed (heap s) current_line first_leaf
         = Leaf.set_prefix "" (heap s first_leaf)
         /\ forall x, x <> first_leaf -> consumed (heap s) current_line x = heap s x)
  /\ (Line.leaves current_line = [] -> consumed (heap s) current_line = heap s).
Proof.
  split; [|split; [|split]].
  - pose proof (maybe_empty_lines_outcome current_line s) as Hout.
    destruct (maybe_empty_lines current_line s) as [b s'|e s']; [|exact Hout].
    destruct Hout as (before & after & s1 & Hrun & _ & _ & Hheap & _).
    pose proof (counted_maybe_empty_lines s current_line) as Hcounts.
    rewrite Hrun in Hcounts. simpl. rewrite Hheap. apply Hcounts.
  - pose proof (counted_maybe_empty_lines s current_line) as Hcounts.
    destruct (_maybe_empty_lines current_line s) as [r s1|e s1]; simpl; apply Hcounts.
  - intros first_leaf rest Hl. unfold consumed. rewrite Hl. split.
    + apply upd_same.
    + intros x Hx. now apply upd_other.
  - intros Hl. unfold consumed. now rewrite Hl.
Qed.

(** X24: Every call of [maybe_empty_lines] that returns hands out a block of its
    own, numbered after the blocks handed out before, that holds the line and
    points back at the block of the call before; the tracker remembers the
    line and the block.  Of the blocks handed out earlier only the one of the
    semantic leading comment may differ afterwards, and that one in [before]
    alone. *)
Theorem maybe_empty_lines_links_blocks
        (s s' : St) (current_line : Line.t) (b : BlockID) :
  maybe_empty_lines current_line s = Ok b s' ->
  b = next_block s
  /\ next_block s' = next_block s + 1
  /\ previous_line (self s') = Some current_line
  /\ previous_block (self s') = Some b
  /\ mode (self s') = mode (self s)
  /\ LinesBlock.original_line (blocks s' b) = current_line
  /\ LinesBlock.previous_block (blocks s' b) = previous_block (self s)
  /\ LinesBlock.mode (blocks s' b) = mode (self s)
  /\ LinesBlock.content_lines (blocks s' b) = []
  /\ (forall i, i <> b -> semantic_leading_comment (self s) <> Some i ->
                blocks s' i = blocks s i)
  /\ (forall i, i <> b ->
                LinesBlock.set_before 0 (blocks s' i) = LinesBlock.set_before 0 (blocks s i))
  /\ (semantic_leading_comment (self s') = semantic_leading_comment (self s)
      \/ semantic_leading_comment (self s') = Some b
      \/ semantic_leading_comment (self s') = None).
Proof.
  intros Hret. pose proof (maybe_empty_lines_outcome current_line s) as Hout.
  rewrite Hret in Hout.
  destruct Hout as (before & after & s1 & Hrun & Hb & Hn & Hheap & Hm & Hl & Hpb & Hd
                    & Hblock & Hothers & Hslc).
  pose proof (counted_maybe_empty_lines s current_line) as Hcounts.
  rewrite Hrun in Hcounts.
  destruct Hcounts as ((_ & _ & _ & _ & _ & _ & Hkept & Hsame) & _).
  rewrite Hblock. simpl. repeat split; try assumption.
  - intros i Hi Hc. rewrite (Hothers i Hi). now apply Hkept.
  - intros i Hi. rewrite (Hothers i Hi). apply Hsame.
  - destruct Hslc as [Hslc|Hslc]; [now left|right].
    destruct (Line.is_comment (heap s1) current_line); auto.
Qed.

(** X14: A line is at most one of a standalone comment, a decorator, a [def], a
    [class] and a docstring; the tests that read the first leaf raise
    [IndexError] exactly on a line that has comments and no leaf; and a stub
    class is a class. *)
Theorem line_kinds_are_exclusive (h : Heap) (l : Line.t) :
  (forall d c t,
      Line.is_decorator h l = Return d ->
      Line.is_class h l = Return c ->
      Line.is_triple_quoted_string h l = Return t ->
      Z.b2z (Line.is_comment h l) + Z.b2z d + Z.b2z (Line.is_def h l)
      + Z.b2z c + Z.b2z t <= 1)
  /\ (forall test,
         (exists e, Line.first_leaf_is test l = Throw e)
         <-> Line.leaves l = [] /\ Line.comments l <> [])
  /\ (forall e test, Line.first_leaf_is test l = Throw e -> e = IndexError)
  /\ (Line.is_stub_class h l = Return true -> Line.is_class h l = Return true).
Proof.
  split; [|split; [|split]].
  - unfold Line.is_decorator, Line.is_class, Line.is_triple_quoted_string,
      Line.is_comment, Line.is_def.
    destruct (Line.leaves l) as [|x rest] eqn:Hl.
    + unfold Line.first_leaf_is. rewrite Hl.
      destruct (Line.__bool__ l); cbn [and_then]; intros d c t; try discriminate.
      intros [= <-] [= <-] [= <-]. simpl. lia.
    + rewrite !(first_leaf_is_with_leaves _ _ _ _ Hl).
      intros d c t [= <-] [= <-] [= <-].
      assert (forall a b : bool, Z.b2z (a && b) <= Z.b2z a) as Hand
          by (intros [|] [|]; simpl; lia).
      assert (Z.b2z (match rest with
                     | [] => type_eqb (Leaf.type (h x)) STANDALONE_COMMENT
                     | _ :: _ => false
                     end)
              <= Z.b2z (type_eqb (Leaf.type (h x)) STANDALONE_COMMENT)) as Hcomment
          by (destruct rest; simpl; [lia|destruct (type_eqb _ _); simpl; lia]).
      assert (forall v : bool,
                 Z.b2z (type_eqb (Leaf.type (h x)) NAME
                        && String.eqb (Leaf.value (h x)) "def"
                        || type_eqb (Leaf.type (h x)) ASYNC && v)
                 + Z.b2z (type_eqb (Leaf.type (h x)) NAME
                          && String.eqb (Leaf.value (h x)) "class")
                 <= Z.b2z (type_eqb (Leaf.type (h x)) NAME)
                    + Z.b2z (type_eqb (Leaf.type (h x)) ASYNC)) as Hnames.
      { intros v. destruct (String.eqb_spec (Leaf.value (h x)) "def") as [->|_].
        - change ("def" =? "class")%string with false.
          rewrite andb_false_r.
          destruct (type_eqb _ NAME), (type_eqb _ ASYNC), v; simpl; lia.
        - rewrite andb_false_r.
          destruct (type_eqb _ NAME), (type_eqb _ ASYNC), v,
            (String.eqb (Leaf.value (h x)) "class"); simpl; lia. }
      match goal with
      | |- context [type_eqb (Leaf.type (h x)) ASYNC && ?v] => specialize (Hnames v)
      end.
      match goal with
      | |- context [type_eqb (Leaf.type (h x)) STRING && ?v] =>
          pose proof (Hand (type_eqb (Leaf.type (h x)) STRING) v) as Hstring
      end.
      assert (Z.b2z (type_eqb (Leaf.type (h x)) STANDALONE_COMMENT)
              + Z.b2z (type_eqb (Leaf.type (h x)) AT)
              + Z.b2z (type_eqb (Leaf.type (h x)) NAME)
              + Z.b2z (type_eqb (Leaf.type (h x)) ASYNC)
              + Z.b2z (type_eqb (Leaf.type (h x)) STRING) <= 1) as Hone.
      { destruct (Leaf.type (h x)); vm_compute; discriminate. }
      lia.
  - intros test. unfold Line.first_leaf_is, Line.__bool__.
    destruct (Line.leaves l) as [|x rest]; destruct (Line.comments l) as [|k cs];
      cbn [and_then]; split.
    all: try (intros [e He]; discriminate).
    all: try (intros [Hl Hc]; congruence).
    + intros _. split; [reflexivity|discriminate].
    + intros _. eauto.
  - intros e test. apply first_leaf_is_throws.
  - unfold Line.is_stub_class. destruct (Line.is_class h l) as [c|]; [|discriminate].
    cbn [rbind]. intros [= Hstub]. destruct c; [reflexivity|discriminate].
Qed.

End MoreTrackerProofs.

(** * The statements on sample lines *)

Section Examples.
Import Sample Demo.


(** [{a,}] has a magic trailing comma, the subscript [x[a,]] has none, the
    subscript [x[a, b,]] has one, and so has [from a import (b,)]. *)
Lemma has_magic_trailing_comma_examples :
  Line.has_magic_trailing_comma brace_heap brace_line 4 false = Return true
  /\ Line.has_magic_trailing_comma subscript_heap subscript_line 5 false = Return false
  /\ Line.has_magic_trailing_comma subscript2_heap subscript2_line 7 false = Return true
  /\ Line.has_magic_trailing_comma import_heap import_line 7 false = Return true.
Proof.
  split; [|split; [|split]].
  - pose proof (has_magic_trailing_comma_cases brace_heap brace_line 4) as Hcases.
    cbv zeta in Hcases. destruct Hcases as (_ & _ & _ & Hcomma).
    destruct (Hcomma 3 eq_refl eq_refl) as (Hbrace & _).
    apply Hbrace. reflexivity.
  - pose proof (has_magic_trailing_comma_cases subscript_heap subscript_line 5) as Hcases.
    cbv zeta in Hcases. destruct Hcases as (_ & _ & _ & Hcomma).
    destruct (Hcomma 4 eq_refl eq_refl) as (_ & Hsquare & _).
    destruct (Hsquare eq_refl) as [Hone _].
    apply (Hone 100 2); reflexivity.
  - pose proof (has_magic_trailing_comma_cases subscript2_heap subscript2_line 7) as Hcases.
    cbv zeta in Hcases. destruct Hcases as (_ & _ & _ & Hcomma).
    destruct (Hcomma 6 eq_refl eq_refl) as (_ & Hsquare & _).
    destruct (Hsquare eq_refl) as [_ Hmany].
    apply (Hmany 2); reflexivity.
  - pose proof (has_magic_trailing_comma_cases import_heap import_line 7) as Hcases.
    cbv zeta in Hcases. destruct Hcases as (_ & _ & _ & Hcomma).
    destruct (Hcomma 6 eq_refl eq_refl) as (_ & _ & Himport).
    apply Himport; reflexivity.
Defined.

(** No delimiter: omit.  Two delimiters of the highest priority: keep.  One
    attribute access: omit. *)
Lemma can_omit_invisible_parens_examples :
  can_omit_invisible_parens names_heap (body_with []) 88 = Return true
  /\ can_omit_invisible_parens names_heap (body_with [(1, 5); (2, 5)]) 88 = Return false
  /\ can_omit_invisible_parens names_heap (body_with [(2, 1)]) 88 = Return true.
Proof.
  assert (DOT_PRIORITY <> COMMA_PRIORITY) as Hdistinct by (vm_compute; discriminate).
  split; [|split].
  - pose proof (can_omit_invisible_parens_by_delimiters
                  names_heap (body_with []) 88 Hdistinct) as Hcases.
    cbv zeta in Hcases. destruct Hcases as (Hnone & _).
    apply Hnone. reflexivity.
  - pose proof (can_omit_invisible_parens_by_delimiters
                  names_heap (body_with [(1, 5); (2, 5)]) 88 Hdistinct) as Hcases.
    cbv zeta in Hcases. destruct Hcases as (_ & Hmany & _).
    apply Hmany; [discriminate|reflexivity].
  - pose proof (can_omit_invisible_parens_by_delimiters
                  names_heap (body_with [(2, 1)]) 88 Hdistinct) as Hcases.
    cbv zeta in Hcases. destruct Hcases as (_ & _ & Hdot).
    apply Hdot; [discriminate|reflexivity|reflexivity].
Defined.

(** With no bracket open, a standalone comment after [x] is refused; with a
    bracket open, [append_safe] is [append]. *)
Lemma append_safe_examples :
  (exists msg,
      Line.append_safe 2 false (populated 0) = Raise (ValueError msg) (populated 0))
  /\ Line.append_safe 2 false (populated 1) = Line.append 2 false false (populated 1).
Proof.
  split.
  - destruct (append_safe_protocol (populated 0) 2 false) as (Hraises & _).
    apply Hraises. reflexivity.
  - destruct (append_safe_protocol (populated 1) 2 false) as (_ & Hpasses & _).
    apply Hpasses. reflexivity.
Defined.

(** C4 as worded fails three ways: a standalone comment appended to [x] while
    a bracket is open is a violation by the words and is appended by the code;
    with no bracket open it is no violation by the words and the code raises;
    and an inline comment appended to a standalone comment is no violation by
    the words and the code raises. *)
Lemma append_safe_not_as_worded :
  (worded_protocol_violation (populated 1) 2 = true
   /\ raises_value_error (Line.append_safe 2 false (populated 1)) = false)
  /\ (worded_protocol_violation (populated 0) 2 = false
      /\ raises_value_error (Line.append_safe 2 false (populated 0)) = true)
  /\ (worded_protocol_violation comment_line 2 = false
      /\ raises_value_error (Line.append_safe 2 false comment_line) = true).
Proof. repeat split; vm_compute; reflexivity. Qed.

(** The comment [  # noqa: E501] counts whole: 14 characters. *)
Lemma trailing_pragma_comment_length_example :
  Line.trailing_pragma_comment_length pragma_heap (pragma_line plain) = 14.
Proof.
  destruct (trailing_pragma_comment_length_from_marker pragma_heap (pragma_line plain))
    as (_ & Hsum & _).
  rewrite (Hsum 1 eq_refl). reflexivity.
Defined.

(** C5 as worded fails: whether pragma comments are wrapped or not, the code
    returns 14 for [  # noqa: E501], where the words give 0 (protection not
    disabled) or 5, the length of [ E501] (protection disabled). *)
Lemma trailing_pragma_comment_length_not_mode_dependent :
  Line.trailing_pragma_comment_length pragma_heap (pragma_line (mode 88 true false))
  <> mode_dependent_pragma_length false pragma_heap (pragma_line (mode 88 true false))
  /\ Line.trailing_pragma_comment_length pragma_heap (pragma_line (mode 88 true false))
     <> mode_dependent_pragma_length true pragma_heap (pragma_line (mode 88 true false))
  /\ Line.trailing_pragma_comment_length pragma_heap (pragma_line (mode 88 false false))
     <> mode_dependent_pragma_length false pragma_heap (pragma_line (mode 88 false false))
  /\ Line.trailing_pragma_comment_length pragma_heap (pragma_line (mode 88 false false))
     <> mode_dependent_pragma_length true pragma_heap (pragma_line (mode 88 false false)).
Proof. repeat split; intros Hc; vm_compute in Hc; discriminate Hc. Qed.

(** A comment after the invisible paren of [(x)] is filed under [x]; after a
    lone invisible paren it is made standalone and refused. *)
Lemma append_comment_after_invisible_paren_examples :
  Line.append_comment 4 atom
  = Ok true (Line.mkSt atom_heap (Line.set_comments [(2, [4])] (Line.self atom)))
  /\ exists h',
      Line.append_comment 4 lone_paren = Ok false (Line.mkSt h' (Line.self lone_paren))
      /\ heap_after_standalone atom_heap h' 4.
Proof.
  split.
  - pose proof (append_comment_after_invisible_paren atom 4 3 200) as Hcases.
    cbv zeta in Hcases.
    assert (List.length (node_leaves 200%Z) <= 3)%nat as Hsmall by (vm_compute; lia).
    destruct (Hcases eq_refl eq_refl eq_refl eq_refl eq_refl Hsmall eq_refl)
      as [Hfiled _].
    apply (Hfiled 2). reflexivity.
  - pose proof (append_comment_after_invisible_paren lone_paren 4 3 200) as Hcases.
    cbv zeta in Hcases.
    assert (List.length (node_leaves 200%Z) <= 3)%nat as Hsmall by (vm_compute; lia).
    destruct (Hcases eq_refl eq_refl eq_refl eq_refl eq_refl Hsmall eq_refl)
      as [_ Hstandalone].
    apply Hstandalone. vm_compute. lia.
Defined.

(** [def g] after [def f]: two blank lines in normal mode, none in a stub. *)
Lemma blank_lines_between_defs_examples :
  (exists b s',
      EmptyLineTracker.maybe_empty_lines (def_g plain) (after_def_f plain) = Ok b s'
      /\ LinesBlock.before (EmptyLineTracker.blocks s' b) = 2
      /\ LinesBlock.after (EmptyLineTracker.blocks s' b) = 0)
  /\ (exists b s',
         EmptyLineTracker.maybe_empty_lines (def_g stub) (after_def_f stub) = Ok b s'
         /\ LinesBlock.before (EmptyLineTracker.blocks s' b) = 0).
Proof.
  split.
  - destruct (blank_lines_between_defs (after_def_f plain) (def_g plain) (def_f plain))
      as [Hnormal _]; try reflexivity.
    apply Hnormal; reflexivity.
  - destruct (blank_lines_between_defs (after_def_f stub) (def_g stub) (def_f stub))
      as [_ Hstub]; try reflexivity.
    apply Hstub; try reflexivity.
    vm_compute. repeat constructor. discriminate.
Defined.

(** An inline comment appended to [x] is filed, and no leaf is an inline
    comment afterwards. *)
Lemma append_inline_comment_example :
  no_inline_comment_leaf (final_state (Line.append 2 false false name_line))
  /\ exists s', Line.append 2 false false name_line = Ok tt s'
                /\ disposed name_line 2 s'.
Proof.
  assert (no_inline_comment_leaf name_line) as Hinv.
  { intros x [<-|[]]. intros Hc. vm_compute in Hc. discriminate Hc. }
  destruct (append_never_stores_inline_comment name_line 2 false false Hinv)
    as (Hkept & _ & Hfate).
  split; [exact Hkept|].
  destruct (Hfate eq_refl eq_refl) as (s' & Hrun & Hdisposed & _).
  exists s'. split; assumption.
Defined.

(** A token of two blanks leaves the line as it was. *)
Lemma append_blank_token_example :
  Line.append 3 false false name_line = Ok tt name_line.
Proof.
  apply (append_without_value_is_noop name_line 3 false false); reflexivity.
Defined.

(** [def g] comes after three newlines: as the first line it gets no blank
    line before it; after [def f] it gets the two that were counted. *)
Lemma maybe_empty_lines_before_examples :
  (exists b s',
      EmptyLineTracker.maybe_empty_lines (def_g plain) (start defs_heap plain) = Ok b s'
      /\ LinesBlock.before (EmptyLineTracker.blocks s' b) = 0)
  /\ (exists b s',
         EmptyLineTracker.maybe_empty_lines (def_g plain) (after_def_f plain) = Ok b s'
         /\ LinesBlock.before (EmptyLineTracker.blocks s' b)
            = 2 - previous_after (after_def_f plain)
         /\ LinesBlock.after (EmptyLineTracker.blocks s' b) = 0).
Proof.
  split.
  - destruct (maybe_empty_lines_before (start defs_heap plain) (def_g plain))
      as (Hfirst & _).
    apply Hfirst; [reflexivity|reflexivity|discriminate].
  - destruct (maybe_empty_lines_before (after_def_f plain) (def_g plain))
      as (_ & _ & Hlater & _).
    assert (EmptyLineTracker._maybe_empty_lines (def_g plain) (after_def_f plain)
            = Ok (2, 0) (final_state (EmptyLineTracker._maybe_empty_lines
                                        (def_g plain) (after_def_f plain))))
      as Hcounts by (vm_compute; reflexivity).
    eapply (Hlater (def_f plain) 2 0);
      [reflexivity|discriminate|discriminate|exact Hcounts].
Defined.

End Examples.

(** * More statements on sample lines *)

Section LineExamples.
Import Sample Demo.

(** Removing the comma of [a,] leaves [a], with the comma's comment filed
    after the comment [a] had. *)
Lemma remove_trailing_comma_example :
  exists s',
    Line.remove_trailing_comma comma_line = Ok tt s'
    /\ Line.leaves (Line.self s') = [1]
    /\ Line.comments_after (Line.self s') 1 = [3; 4].
Proof.
  destruct (remove_trailing_comma_moves_comments comma_line 2 1 eq_refl eq_refl)
    as (s' & Hok & _ & Hleaves & _ & _ & Hmoved & _).
  exists s'. split; [exact Hok|]. split.
  - rewrite Hleaves. reflexivity.
  - rewrite Hmoved by discriminate. reflexivity.
Defined.

(** [x  # noqa: E501] is 15 wide: with a budget of 10 columns and pragma
    comments wrapped like any other, it does not fit. *)
Lemma is_line_short_enough_one_line_example :
  is_line_short_enough pragma_heap (pragma_line (mode 10 true false))
                       (mode 10 true false) ""
  = Return false.
Proof.
  rewrite (is_line_short_enough_on_one_physical_line
             pragma_heap (pragma_line (mode 10 true false)) (mode 10 true false)
             "" "x  # noqa: E501").
  - reflexivity.
  - vm_compute. reflexivity.
  - reflexivity.
Defined.

(** A rendering of two physical lines for [a b c], none of them a multiline
    string, fits. *)
Lemma is_line_short_enough_two_lines_example :
  is_line_short_enough names_heap (line layout [] [1; 2; 3] [] 0) layout
                       ("a" ++ Py.nl ++ "b")
  = Return true.
Proof.
  apply (is_line_short_enough_without_multiline_leaf
           names_heap (line layout [] [1; 2; 3] [] 0) layout
           ("a" ++ Py.nl ++ "b") ("a" ++ Py.nl ++ "b") "a" "b" []).
  - reflexivity.
  - reflexivity.
  - reflexivity.
  - reflexivity.
  - vm_compute. discriminate.
  - vm_compute. discriminate.
  - reflexivity.
  - intros x [<-|[<-|[<-|[]]]]; reflexivity.
  - simpl. repeat split; vm_compute; discriminate.
Defined.

(** The parentheses around [f(a)] can be omitted with two columns, hence with
    88. *)
Lemma can_omit_invisible_parens_monotone_example :
  can_omit_invisible_parens call_heap call_body 88 = Return true.
Proof.
  destruct (can_omit_invisible_parens_monotone call_heap call_body 2 88) as (Hwhole & _).
  - lia.
  - apply Hwhole. reflexivity.
Defined.

(** [a b c] with one delimiter, no bracket at either end: the parentheses
    stay. *)
Lemma can_omit_invisible_parens_single_delimiter_example :
  can_omit_invisible_parens names_heap (body_with [(2, 5)]) 88 = Return false.
Proof.
  pose proof (can_omit_invisible_parens_single_delimiter
                names_heap (body_with [(2, 5)]) 88) as Hcases.
  destruct Hcases as (_ & Hlong).
  - repeat split; vm_compute; discriminate.
  - destruct (Hlong 1 2 [3] 2 3 eq_refl eq_refl eq_refl) as (_ & Hclosing).
    destruct (Hclosing eq_refl) as (Hother & _).
    apply Hother. reflexivity.
Defined.

(** [with a, b] under the layout for several context managers: the
    parentheses stay. *)
Lemma can_omit_invisible_parens_with_example :
  can_omit_invisible_parens with_heap with_rhs 88 = Return false.
Proof.
  pose proof (can_omit_invisible_parens_with_statement with_heap with_rhs 88) as Hcases.
  destruct Hcases as (Hwith & _).
  - discriminate.
  - reflexivity.
  - reflexivity.
  - reflexivity.
  - apply Hwith. reflexivity.
Defined.

(** [c] appended to [a b] gives [a b c]. *)
Lemma append_token_example :
  exists s',
    Line.append 3 false false names_line = Ok tt s'
    /\ Line.leaves (Line.self s') = [1; 2; 3].
Proof.
  destruct (append_puts_token_last names_line 3 false false) as (_ & Hlong).
  - vm_compute. discriminate.
  - reflexivity.
  - destruct Hlong as (s' & Hok & _ & Hleaves).
    + vm_compute. discriminate.
    + exists s'. split; [exact Hok|].
      destruct Hleaves as [Hplain|[(Hclosing & _)|(Hcolon & _)]].
      * exact Hplain.
      * vm_compute in Hclosing. discriminate Hclosing.
      * vm_compute in Hcolon. discriminate Hcolon.
Defined.

(** A closing brace after a comma alone on its line, trailing commas being
    removed: [IndexError], and the line is left empty. *)
Lemma append_lone_comma_example :
  lone_comma lone 2 IndexError (final_state (Line.append 2 false false lone)).
Proof.
  apply (append_raises_only_for_a_lone_comma
           lone (final_state (Line.append 2 false false lone)) 2 false false IndexError).
  reflexivity.
Defined.

(** The colon after [class A()] gives [class A:]. *)
Lemma append_colon_example :
  exists s',
    Line.append 5 false false class_line = Ok tt s'
    /\ Line.leaves (Line.self s') = [1; 2; 5].
Proof.
  destruct (append_colon_drops_empty_class_parens class_line 5 false false)
    as (s' & c & n & l & r & Hbefore & Hok & Hleaves & _).
  - reflexivity.
  - reflexivity.
  - reflexivity.
  - exists s'. split; [exact Hok|].
    rewrite Hleaves. injection Hbefore as <- <- _ _. reflexivity.
Defined.

(** The brace that closes [{a,] is appended and is the magic trailing comma
    of the line. *)
Lemma append_closing_brace_example :
  exists s',
    Line.append 4 false false (Line.mkSt brace_heap brace_line) = Ok tt s'
    /\ Line.leaves (Line.self s') = [1; 2; 3; 4]
    /\ Line.magic_trailing_comma (Line.self s') = Some 4.
Proof.
  destruct (append_closing_brace_after_comma
              (Line.mkSt brace_heap brace_line) 4 3 false false) as (Hmagic & _).
  - reflexivity.
  - reflexivity.
  - reflexivity.
  - reflexivity.
  - destruct (Hmagic eq_refl) as (s' & Hok & Hleaves & Hcomma & _).
    exists s'. split; [exact Hok|]. split; [|exact Hcomma].
    rewrite Hleaves. reflexivity.
Defined.

End LineExamples.

Section TrackerExamples.
Import Sample Demo EmptyLineTracker.

(** [def f] one newline under [@d]: no blank line before it. *)
Lemma no_blank_line_after_a_decorator_example :
  exists b s',
    maybe_empty_lines decorated_def after_decorator = Ok b s'
    /\ LinesBlock.before (blocks s' b) = 0
    /\ LinesBlock.after (blocks s' b) = 0.
Proof.
  destruct (no_blank_line_after_a_decorator after_decorator decorated_def decorator_line)
    as (stub & after & _ & Hafter & _ & b & s' & Hok & Hb & Ha).
  - split; [discriminate|]. intros Hpyi. vm_compute in Hpyi. discriminate Hpyi.
  - reflexivity.
  - reflexivity.
  - right. left. reflexivity.
  - exists b, s'. split; [exact Hok|]. split.
    + rewrite Hb. reflexivity.
    + rewrite Ha, Hafter. reflexivity.
Defined.

(** [x] right under [import os]: at least one blank line before it. *)
Lemma blank_line_after_imports_example :
  exists b s',
    maybe_empty_lines (line plain [] [3] [] 0) after_import_os = Ok b s'
    /\ 1 <= LinesBlock.before (blocks s' b) <= 2
    /\ LinesBlock.after (blocks s' b) = 0.
Proof.
  destruct (blank_line_after_imports after_import_os (line plain [] [3] [] 0) import_os)
    as (before & Hbounds & _ & b & s' & Hok & Hb & Ha).
  - split; [discriminate|]. intros Hpyi. vm_compute in Hpyi. discriminate Hpyi.
  - reflexivity.
  - discriminate.
  - repeat split; reflexivity.
  - reflexivity.
  - reflexivity.
  - reflexivity.
  - reflexivity.
  - exists b, s'. split; [exact Hok|]. split; [|exact Ha].
    rewrite Hb. change (previous_after after_import_os) with 0.
    change (max_allowed (mode (self after_import_os)) (line plain [] [3] [] 0)) with 2
      in Hbounds.
    lia.
Defined.

(** [y] two newlines under [if x:]: no blank line before it. *)
Lemma no_blank_line_at_the_start_of_a_block_example :
  exists b s',
    maybe_empty_lines (line plain [0] [4] [] 0) after_if = Ok b s'
    /\ LinesBlock.before (blocks s' b) = 0
    /\ LinesBlock.after (blocks s' b) = 0.
Proof.
  destruct (no_blank_line_at_the_start_of_a_block after_if (line plain [0] [4] [] 0) if_line)
    as (_ & b & s' & Hok & Hb & Ha).
  - split; [discriminate|]. intros Hpyi. vm_compute in Hpyi. discriminate Hpyi.
  - reflexivity.
  - discriminate.
  - reflexivity.
  - repeat split; reflexivity.
  - reflexivity.
  - reflexivity.
  - exists b, s'. split; [exact Hok|]. split; [|exact Ha].
    rewrite Hb. reflexivity.
Defined.

(** The docstring two newlines under [class A:] gets one blank line before
    it, which is what its depth allows, and one after it. *)
Lemma blank_line_after_class_docstring_example :
  exists b s',
    maybe_empty_lines docstring after_class_A = Ok b s'
    /\ LinesBlock.before (blocks s' b) = 1
    /\ LinesBlock.after (blocks s' b) = 1.
Proof.
  destruct (blank_line_after_class_docstring after_class_A docstring class_A)
    as (before & _ & _ & (b & s' & Hok & Hb & Ha) & Hsource).
  - split; [discriminate|]. intros Hpyi. vm_compute in Hpyi. discriminate Hpyi.
  - reflexivity.
  - reflexivity.
  - reflexivity.
  - reflexivity.
  - exists b, s'. split; [exact Hok|]. split; [|exact Ha].
    rewrite Hb, (Hsource 4 [] eq_refl).
    + reflexivity.
    + intros top Htop. vm_compute in Htop. injection Htop as <-. reflexivity.
Defined.

(** [x], a comment, [def f] right under the comment: the [def] gets no blank
    line and the block of the comment gets the two. *)
Lemma blank_lines_move_before_leading_comment_example :
  exists s1,
    _maybe_empty_lines (line plain [] [3; 4] [] 0) after_comment = Ok (0, 0) s1
    /\ LinesBlock.before (blocks s1 1) = 2.
Proof.
  destruct (blank_lines_move_before_leading_comment
              after_comment (line plain [] [3; 4] [] 0) (line plain [] [2] [] 0)
              1 0 3 [4])
    as (s1 & Hok & Hbefore & _).
  - reflexivity.
  - reflexivity.
  - reflexivity.
  - reflexivity.
  - reflexivity.
  - reflexivity.
  - reflexivity.
  - reflexivity.
  - reflexivity.
  - reflexivity.
  - reflexivity.
  - reflexivity.
  - vm_compute. discriminate.
  - exists s1. split; [exact Hok|]. rewrite Hbefore. reflexivity.
Defined.

(** The first call of the tracker, on [def f], hands out block 0 and keeps
    the line as the previous one. *)
Lemma maybe_empty_lines_links_blocks_example :
  next_block (after_def_f plain) = 1
  /\ previous_line (self (after_def_f plain)) = Some (def_f plain)
  /\ previous_block (self (after_def_f plain)) = Some 0
  /\ LinesBlock.original_line (blocks (after_def_f plain) 0) = def_f plain.
Proof.
  destruct (maybe_empty_lines_links_blocks
              (start defs_heap plain) (after_def_f plain) (def_f plain) 0)
    as (_ & Hnext & Hline & Hblock & _ & Horiginal & _).
  - reflexivity.
  - split; [exact Hnext|]. split; [exact Hline|]. split; [exact Hblock|exact Horiginal].
Defined.

End TrackerExamples.
